(** * Session and authentication lifecycle of the blog server

    A shallow embedding of the authentication slice of the repository:

    - [SessionManager] (middleware/session.js): token issuance, verification,
      the in-memory revocation set, the [authenticate] middleware;
    - the [POST /api/auth/login], [POST /api/auth/logout] and
      [GET /api/auth/verify] handlers of server.js, with the lockout
      counters kept in the [users] table, and the two rate limiters
      that server.js mounts in front of them;
    - [verifyCaptcha], the [auditLog] middleware and the slugs of blog
      posts (server.js);
    - the browser-side [AuthManager] (scripts/auth-manager.js): the mirrored
      session held in local storage and its activity-driven extension,
      with the attempt log of [CryptoUtils] (scripts/dynamic-blogs.js).

    Time is the JavaScript clock, [Date.now()], in milliseconds, as [Z].
    Every function that reads the clock takes the reading as an argument. *)

From Stdlib Require Import ZArith String Ascii List Lia HexString.
From stdpp Require Import base gmap strings list.

Local Open Scope Z_scope.
Local Open Scope string_scope.

(* ===================================================================== *)
(** * Part I. Definitions *)
(* ===================================================================== *)

(** ** JavaScript string helpers *)

Module Str.

(** [s.split(sep)] for a one-character separator: never empty, the empty
    string splits into one empty segment. *)
Fixpoint split (sep : ascii) (s : string) : list string :=
  match s with
  | EmptyString => [EmptyString]
  | String c s' =>
      if Ascii.eqb c sep then EmptyString :: split sep s'
      else match split sep s' with
           | seg :: rest => String c seg :: rest
           | [] => [String c EmptyString]
           end
  end.

(** [s.includes(c)] for a single character. *)
Fixpoint occurs (c : ascii) (s : string) : bool :=
  match s with
  | EmptyString => false
  | String d s' => Ascii.eqb d c || occurs c s'
  end.

(** Number of occurrences of a character. *)
Fixpoint count (c : ascii) (s : string) : nat :=
  match s with
  | EmptyString => 0%nat
  | String d s' => ((if Ascii.eqb d c then 1 else 0) + count c s')%nat
  end.

(** [s.trim() === ''] *)
Fixpoint blank (s : string) : bool :=
  match s with
  | EmptyString => true
  | String c s' => Ascii.is_space c && blank s'
  end.

(** JavaScript truthiness of a string value. *)
Definition truthy (s : string) : bool :=
  match s with EmptyString => false | _ => true end.

(** Replace the character at index [i]; out of range the string is
    returned as it is. *)
Fixpoint set_char (i : nat) (c : ascii) (s : string) : string :=
  match s, i with
  | EmptyString, _ => EmptyString
  | String _ s', O => String c s'
  | String d s', S i' => String d (set_char i' c s')
  end.

End Str.

(** ** Outcomes of code that may throw *)

Inductive outcome (A E : Type) : Type :=
| Returns (a : A)
| Throws (e : E).
Arguments Returns {A E} a.
Arguments Throws {A E} e.

Definition succeeded {A E} (o : outcome A E) : bool :=
  match o with Returns _ => true | Throws _ => false end.

(** ** The jsonwebtoken library

    [jsonwebtoken] is a dependency, not part of the repository. Its
    [sign] and [verify] are modelled after the library's documented
    behaviour for the options the server passes (HMAC secret, [expiresIn],
    [issuer], [audience]). The byte-level primitives stay abstract:
    base64url(JSON) of the header and of the payload, and the
    base64url-encoded HMAC. *)

Module Jwt.

Record jose_header := { alg : string; typ : string }.

(** The object literal handed to [jwt.sign] by [generateToken]. *)
Record session_payload := {
  p_id : Z;
  p_username : string;
  p_role : string;
  p_iat : Z;
  p_ip : string;
  p_userAgent : string
}.

(** A decoded payload. The registered claims may be missing in a token
    that was not produced by [generateToken]. *)
Record claims := {
  id : Z;
  username : string;
  role : string;
  iat : Z;
  ip : string;
  userAgent : string;
  exp : option Z;
  iss : option string;
  aud : option string
}.

Record sign_options := {
  expiresIn : Z;           (* seconds; '30m' is 1800 *)
  sign_issuer : string;
  sign_audience : string
}.

Record verify_options := {
  issuer : string;
  audience : string
}.

Inductive jwt_error :=
| JwtMustBeProvided
| JwtMalformed
| InvalidToken
| SignatureRequired
| InvalidAlgorithm
| InvalidSignature
| TokenExpired
| AudienceInvalid (expected : string)
| IssuerInvalid (expected : string).

Definition jwt_error_message (e : jwt_error) : string :=
  match e with
  | JwtMustBeProvided => "jwt must be provided"
  | JwtMalformed => "jwt malformed"
  | InvalidToken => "invalid token"
  | SignatureRequired => "jwt signature is required"
  | InvalidAlgorithm => "invalid algorithm"
  | InvalidSignature => "invalid signature"
  | TokenExpired => "jwt expired"
  | AudienceInvalid a => "jwt audience invalid. expected: " ++ a
  | IssuerInvalid i => "jwt issuer invalid. expected: " ++ i
  end.

(** The primitives under the library, with the facts about them that the
    token format relies on: decoding inverts encoding, and no encoded
    segment contains the separator (base64url has no dot). *)
Class Primitives := {
  hmac : string -> string -> string -> string;
    (* algorithm, secret, signing input: base64url(HMAC) *)
  encode_header : jose_header -> string;
  decode_header : string -> option jose_header;
  encode_payload : claims -> string;
  decode_payload : string -> option claims;
  decode_encode_header : forall h, decode_header (encode_header h) = Some h;
  decode_encode_payload : forall c, decode_payload (encode_payload c) = Some c;
  encode_header_nodot : forall h, Str.occurs "." (encode_header h) = false;
  encode_payload_nodot : forall c, Str.occurs "." (encode_payload c) = false;
  hmac_nodot : forall a k m, Str.occurs "." (hmac a k m) = false;
  hmac_not_blank : forall a k m, Str.blank (hmac a k m) = false
}.

Section Library.
Context `{Primitives}.

(** The payload as [jwt.sign] completes it: [payload.iat || now] (a
    zero [iat] is falsy and replaced by the clock), [exp] from
    [expiresIn], [iss] and [aud] from the options. *)
Definition stamp (payload : session_payload) (opts : sign_options)
    (now : Z) : claims :=
  let timestamp :=
    if (p_iat payload =? 0)%Z then now / 1000 else p_iat payload in
  {| id := p_id payload;
     username := p_username payload;
     role := p_role payload;
     iat := timestamp;
     ip := p_ip payload;
     userAgent := p_userAgent payload;
     exp := Some (timestamp + expiresIn opts);
     iss := Some (sign_issuer opts);
     aud := Some (sign_audience opts) |}.

Definition hs256_header : jose_header := {| alg := "HS256"; typ := "JWT" |}.

(** [jwt.sign(payload, secret, options)] *)
Definition sign (payload : session_payload) (secret : string)
    (opts : sign_options) (now : Z) : string :=
  let signing_input :=
    encode_header hs256_header ++ "." ++ encode_payload (stamp payload opts now) in
  signing_input ++ "." ++ hmac "HS256" secret signing_input.

Definition supported_alg (a : string) : bool :=
  String.eqb a "HS256" || String.eqb a "HS384" || String.eqb a "HS512".

(** The checks on a decoded payload, in the library's order: expiry,
    audience, issuer. [clock] is in seconds. *)
Definition check_claims (c : claims) (opts : verify_options) (clock : Z)
    : outcome claims jwt_error :=
  if match exp c with Some e => (e <=? clock)%Z | None => false end
  then Throws TokenExpired
  else if negb (bool_decide (aud c = Some (audience opts)))
  then Throws (AudienceInvalid (audience opts))
  else if negb (bool_decide (iss c = Some (issuer opts)))
  then Throws (IssuerInvalid (issuer opts))
  else Returns c.

(** [jwt.verify(token, secret, options)] *)
Definition verify (token : string) (secret : string)
    (opts : verify_options) (now : Z) : outcome claims jwt_error :=
  let clockTimestamp := now / 1000 in
  if negb (Str.truthy token) then Throws JwtMustBeProvided
  else match Str.split "." token with
  | [h; p; s] =>
      match decode_header h, decode_payload p with
      | Some header, Some payload =>
          if Str.blank s then Throws SignatureRequired
          else if negb (supported_alg (alg header)) then Throws InvalidAlgorithm
          else if negb (String.eqb s (hmac (alg header) secret (h ++ "." ++ p)))
          then Throws InvalidSignature
          else check_claims payload opts clockTimestamp
      | _, _ => Throws InvalidToken
      end
  | _ => Throws JwtMalformed
  end.

End Library.
End Jwt.

(** ** Configuration, environment and requests (server.js) *)

Record config := {
  jwtSecret : string;
  sessionTimeout : Z;
  maxLoginAttempts : Z;
  lockoutDuration : Z
}.

(** The [config] object of server.js for a given signing secret. *)
Definition server_config (secret : string) : config := {|
  jwtSecret := secret;
  sessionTimeout := 30 * 60 * 1000;
  maxLoginAttempts := 5;
  lockoutDuration := 15 * 60 * 1000
|}.

(** The variables of [process.env] that the modelled code reads. *)
Record process_env := {
  STRICT_IP_CHECK : option string;
  NODE_ENV : option string;
  HCAPTCHA_SECRET : option string
}.

(** The parts of an Express request that the modelled code reads. *)
Record request := {
  req_ip : string;
  authorization : option string;      (* req.headers['authorization'] *)
  user_agent : option string;         (* req.get('User-Agent') *)
  body_username : string;             (* after trim().escape() *)
  body_password : string;
  body_captcha : option string        (* req.body['h-captcha-response'] *)
}.

Inductive response_body :=
| ErrorBody (error : string) (code : option string) (details : option string)
| InvalidInputBody (error : string) (fields : list string)
| LoginBody (message token : string) (user_id : Z) (user_name user_role : string)
| LogoutBody (message : string) (timestamp : Z) (user_id : Z) (user_name : string)
| VerifyBody (valid : bool) (user_id : Z) (user_name user_role : string)
    (timestamp : Z).

Record response := { status : Z; body : response_body }.

Definition body_code (b : response_body) : option string :=
  match b with ErrorBody _ c _ => c | _ => None end.

(** ** The users table *)

Module Db.

Record user_row := {
  id : Z;
  username : string;
  password_hash : string;
  role : string;
  login_attempts : Z;
  locked_until : option Z;     (* DATETIME, as milliseconds since the epoch *)
  last_login : option Z
}.

Definition users := list user_row.

(** [SELECT ... FROM users WHERE username = ?] with [.get]: the first
    matching row. *)
Definition select_by_username (name : string) (t : users) : option user_row :=
  List.find (fun r => String.eqb (username r) name) t.

(** The row with [login_attempts] and [locked_until] overwritten. *)
Definition set_failed (attempts : Z) (until : option Z) (r : user_row)
    : user_row := {|
  id := id r; username := username r;
  password_hash := password_hash r; role := role r;
  login_attempts := attempts; locked_until := until;
  last_login := last_login r
|}.

(** The row with the counter reset, the lock cleared and [last_login]
    set. *)
Definition set_success (now : Z) (r : user_row) : user_row := {|
  id := id r; username := username r;
  password_hash := password_hash r; role := role r;
  login_attempts := 0; locked_until := None;
  last_login := Some now
|}.

(** [UPDATE users SET login_attempts = ?, locked_until = ? WHERE id = ?] *)
Definition update_failed (attempts : Z) (until : option Z) (uid : Z)
    (t : users) : users :=
  List.map (fun r =>
    if (id r =? uid)%Z then set_failed attempts until r else r) t.

(** [UPDATE users SET login_attempts = 0, locked_until = NULL,
    last_login = CURRENT_TIMESTAMP WHERE id = ?] *)
Definition update_success (now : Z) (uid : Z) (t : users) : users :=
  List.map (fun r => if (id r =? uid)%Z then set_success now r else r) t.

End Db.

(** ** SessionManager (middleware/session.js) *)

Module SessionManager.

Record t := {
  sm_jwtSecret : string;
  sm_sessionTimeout : Z;
  tokenBlacklist : gset string
}.

(** [new SessionManager(config)] *)
Definition create (c : config) : t := {|
  sm_jwtSecret := jwtSecret c;
  sm_sessionTimeout := sessionTimeout c;
  tokenBlacklist := ∅
|}.

Definition with_blacklist (sm : t) (b : gset string) : t := {|
  sm_jwtSecret := sm_jwtSecret sm;
  sm_sessionTimeout := sm_sessionTimeout sm;
  tokenBlacklist := b
|}.

Definition sign_opts : Jwt.sign_options := {|
  Jwt.expiresIn := 30 * 60;
  Jwt.sign_issuer := "blog-system";
  Jwt.sign_audience := "blog-users"
|}.

Definition verify_opts : Jwt.verify_options := {|
  Jwt.issuer := "blog-system";
  Jwt.audience := "blog-users"
|}.

(** Why [verifyToken] threw. *)
Inductive failure :=
| LibraryError (e : Jwt.jwt_error)
| Revoked.

(** The message of the error that [verifyToken] rethrows. *)
Definition failure_message (f : failure) : string :=
  "Token validation failed: " ++
  match f with
  | LibraryError e => Jwt.jwt_error_message e
  | Revoked => "Token has been revoked"
  end.

Section Methods.
Context `{Jwt.Primitives}.

(** [req.get('User-Agent')?.substring(0, 100) || 'unknown'] *)
Definition userAgent_claim (req : request) : string :=
  match user_agent req with
  | None => "unknown"
  | Some ua =>
      let cut := String.substring 0 100 ua in
      if Str.truthy cut then cut else "unknown"
  end.

(** The [payload] object of [generateToken]. *)
Definition token_payload (user : Db.user_row) (req : request) (now : Z)
    : Jwt.session_payload := {|
  Jwt.p_id := Db.id user;
  Jwt.p_username := Db.username user;
  Jwt.p_role := Db.role user;
  Jwt.p_iat := now / 1000;
  Jwt.p_ip := req_ip req;
  Jwt.p_userAgent := userAgent_claim req
|}.

(** [generateToken(user, req)], the clock read as [now]. *)
Definition generateToken (sm : t) (user : Db.user_row) (req : request)
    (now : Z) : string :=
  Jwt.sign (token_payload user req now) (sm_jwtSecret sm) sign_opts now.

(** [verifyToken(token, req)]: the lines written by [console.warn] and
    the value returned or the error thrown. *)
Definition verifyToken (sm : t) (env : process_env) (token : string)
    (req : request) (now : Z) : list string * outcome Jwt.claims failure :=
  match Jwt.verify token (sm_jwtSecret sm) verify_opts now with
  | Throws e => ([], Throws (LibraryError e))
  | Returns decoded =>
      if bool_decide (token ∈ tokenBlacklist sm) then ([], Throws Revoked)
      else
        let currentIP := req_ip req in
        let warnings :=
          if bool_decide (STRICT_IP_CHECK env = Some "true")
             && negb (String.eqb (Jwt.ip decoded) currentIP)
          then ["IP mismatch for user " ++ Jwt.username decoded ++ ": "
                  ++ Jwt.ip decoded ++ " vs " ++ currentIP]
          else [] in
        (warnings, Returns decoded)
  end.

(** [revokeToken(token)] *)
Definition revokeToken (sm : t) (token : string) : t :=
  with_blacklist sm ({[ token ]} ∪ tokenBlacklist sm).

(** [cleanupBlacklist()] *)
Definition cleanupBlacklist (sm : t) : t :=
  if (1000 <? Z.of_nat (size (tokenBlacklist sm)))%Z
  then with_blacklist sm ∅
  else sm.

(** What the middleware does with a request: answer it, or attach
    [req.user] and [req.token] and call [next()]. *)
Inductive middleware_result :=
| Responded (res : response)
| Next (user : Jwt.claims) (token : string).

(** [authHeader && authHeader.split(' ')[1]]; [None] is [undefined]. *)
Definition extract_token (req : request) : option string :=
  match authorization req with
  | None => None
  | Some authHeader =>
      if Str.truthy authHeader
      then Str.split " " authHeader !! 1%nat
      else Some authHeader
  end.

(** [!token] *)
Definition no_token (tok : option string) : bool :=
  match tok with
  | None => true
  | Some s => negb (Str.truthy s)
  end.

(** The answer of the [catch] block of the middleware to an error with
    this message. *)
Definition invalid_token (env : process_env) (message : string)
    : middleware_result :=
  Responded {| status := 403;
               body := ErrorBody "Invalid or expired token"
                         (Some "INVALID_TOKEN")
                         (if bool_decide (NODE_ENV env = Some "development")
                          then Some message
                          else None) |}.

(** The middleware returned by [authenticate()]. Of its [console.log]
    lines one matters: the line written after a successful verification
    evaluates [new Date(user.exp * 1000).toISOString()] inside the [try],
    and that throws a [RangeError] when the claims carry no [exp]. An
    [exp] that is present is taken to lie within the range of [Date], as
    every reading of the clock does. *)
Definition authenticate (sm : t) (env : process_env) (req : request)
    (now : Z) : middleware_result :=
  match extract_token req with
  | Some token =>
      if negb (Str.truthy token) then
        Responded {| status := 401;
                     body := ErrorBody "Access token required"
                               (Some "NO_TOKEN") None |}
      else
        match snd (verifyToken sm env token req now) with
        | Returns user =>
            match Jwt.exp user with
            | Some _ => Next user token
            | None => invalid_token env "Invalid time value"
            end
        | Throws error => invalid_token env (failure_message error)
        end
  | None =>
      Responded {| status := 401;
                   body := ErrorBody "Access token required"
                             (Some "NO_TOKEN") None |}
  end.

End Methods.
End SessionManager.

(** ** The rate limiter

    [express-rate-limit] is a dependency, not part of the repository. Its
    middleware is modelled after the library's documented behaviour for
    the options the server passes ([windowMs], [max], [message]) with
    the default memory store and the default key, [req.ip]: every
    request adds one to the count of its address, and a request whose
    count exceeds [max] is answered 429 with the message and goes no
    further. When a count is forgotten (the window of [windowMs]
    ending) is the store's business: it is an event of the run, not of
    the request. *)

Module RateLimit.

Record options := { max : nat; message : string }.

(** The hits counted for each address in the running window. *)
Abbreviation store := (gmap string nat).

Definition hits (s : store) (key : string) : nat := default 0%nat (s !! key).

(** The middleware returned by [rateLimit(options)], for a request from
    [key]: the store afterwards and, when the request is stopped, the
    answer. *)
Definition rateLimit (o : options) (s : store) (key : string)
    : store * option response :=
  let totalHits := S (hits s key) in
  (<[key := totalHits]> s,
   if (max o <? totalHits)%nat
   then Some {| status := 429; body := ErrorBody (message o) None None |}
   else None).

(** The window ends for one address, or for all of them. *)
Definition forget (s : store) (key : option string) : store :=
  match key with
  | Some k => delete k s
  | None => ∅
  end.

End RateLimit.

(** ** The authentication endpoints (server.js) *)

Module Server.

(** What the hCaptcha service answered to the [siteverify] call. *)
Inductive siteverify_reply :=
| HttpNotOk
| Verdict (success : bool)
| FetchFailed.

Record captcha_result := { success : bool; error : option string }.

(** [verifyCaptcha(token, clientIP)]; [remote] is the service's answer,
    used only when the call is made. *)
Definition verifyCaptcha (env : process_env) (token : option string)
    (remote : siteverify_reply) : captcha_result :=
  match token with
  | None => {| success := false; error := Some "Captcha token missing" |}
  | Some tok =>
      if negb (Str.truthy tok)
      then {| success := false; error := Some "Captcha token missing" |}
      else if bool_decide (NODE_ENV env = Some "development")
              || bool_decide (NODE_ENV env = None)
              || bool_decide (NODE_ENV env = Some "")
      then {| success := true; error := None |}
      else match HCAPTCHA_SECRET env with
           | None =>
               {| success := false;
                  error := Some "Captcha service not configured" |}
           | Some secret =>
               if negb (Str.truthy secret)
               then {| success := false;
                       error := Some "Captcha service not configured" |}
               else match remote with
                    | HttpNotOk =>
                        {| success := false; error := Some "hCaptcha API error" |}
                    | Verdict true => {| success := true; error := None |}
                    | Verdict false =>
                        {| success := false;
                           error := Some "Captcha verification failed" |}
                    | FetchFailed =>
                        {| success := false;
                           error := Some "Captcha verification error" |}
                    end
           end
  end.

(** The circumstances of one login request that are outside the
    handler's code: the two clock readings, the captcha service and
    whether the database statements throw. *)
Record circumstances := {
  at_check : Z;          (* [new Date()] at the lock check *)
  after_compare : Z;     (* [Date.now()], CURRENT_TIMESTAMP after bcrypt *)
  captcha_remote : siteverify_reply;
  select_throws : bool;
  update_throws : bool
}.

(** What one login request leaves behind. *)
Record login_result := {
  res : response;
  users_after : Db.users;
  comparisons : nat      (* calls of [bcrypt.compare] *)
}.

(** The validators of the route: both fields at least one character. *)
Definition validation_errors (req : request) : list string :=
  (if Str.truthy (body_username req) then [] else ["username"]) ++
  (if Str.truthy (body_password req) then [] else ["password"]).

(** [lockedUntil && now < lockedUntil] *)
Definition isLocked (user : Db.user_row) (now : Z) : bool :=
  match Db.locked_until user with
  | Some lockedUntil => (now <? lockedUntil)%Z
  | None => false
  end.

(** [const limiter = rateLimit({...})] and
    [const authLimiter = rateLimit({...})] *)
Definition limiter : RateLimit.options := {|
  RateLimit.max := 100;
  RateLimit.message := "Too many requests from this IP, please try again later."
|}.

Definition authLimiter : RateLimit.options := {|
  RateLimit.max := 5;
  RateLimit.message := "Too many login attempts, please try again later."
|}.

(** The stores of the two limiters. *)
Record limits := {
  api_hits : RateLimit.store;       (* of [limiter] *)
  auth_hits : RateLimit.store       (* of [authLimiter] *)
}.

(** [app.use('/api/', limiter)], for a request under [/api/] from [ip]. *)
Definition limited_api (l : limits) (ip : string) : limits * option response :=
  let '(a, stopped) := RateLimit.rateLimit limiter (api_hits l) ip in
  ({| api_hits := a; auth_hits := auth_hits l |}, stopped).

(** [app.use('/api/', limiter); app.use('/api/auth/', authLimiter)], for
    a request under [/api/auth/] from [ip]: the second limiter sees the
    request only when the first lets it pass. *)
Definition limited (l : limits) (ip : string) : limits * option response :=
  let '(a, stopped) := RateLimit.rateLimit limiter (api_hits l) ip in
  match stopped with
  | Some r => ({| api_hits := a; auth_hits := auth_hits l |}, Some r)
  | None =>
      let '(b, stopped') := RateLimit.rateLimit authLimiter (auth_hits l) ip in
      ({| api_hits := a; auth_hits := b |}, stopped')
  end.

(** A window of one of the limiters ends. *)
Definition forget (l : limits) (auth : bool) (ip : option string) : limits :=
  if auth
  then {| api_hits := api_hits l;
          auth_hits := RateLimit.forget (auth_hits l) ip |}
  else {| api_hits := RateLimit.forget (api_hits l) ip;
          auth_hits := auth_hits l |}.

(** What a run of the login route is made of. *)
Inductive arrival :=
| Attempt (req : request) (c : circumstances)
    (* POST /api/auth/login with a password that is a string *)
| AttemptOdd (req : request) (c : circumstances)
    (* the same with a password that is not: a number, an array, ... *)
| Elsewhere (auth : bool) (ip : string)
    (* another request from [ip], under /api/auth/ or elsewhere under /api/ *)
| WindowEnds (auth : bool) (ip : option string).
    (* the store of [authLimiter], or of [limiter], forgets *)

(** A run made of login attempts only, one after the other. *)
Definition attempts (reqs : list (request * circumstances)) : list arrival :=
  List.map (fun a => Attempt (fst a) (snd a)) reqs.

(** The stores after an arrival, and the answer of a limiter that stops
    it. *)
Definition tick (l : limits) (a : arrival) : limits * option response :=
  match a with
  | Attempt req _ => limited l (req_ip req)
  | AttemptOdd req _ => limited l (req_ip req)
  | Elsewhere auth ip =>
      (fst (if auth then limited l ip else limited_api l ip), None)
  | WindowEnds auth ip => (forget l auth ip, None)
  end.

Definition is_attempt (a : arrival) : bool :=
  match a with
  | Attempt _ _ | AttemptOdd _ _ => true
  | _ => false
  end.

(** The stores after a run. *)
Definition limits_after (l : limits) (arrivals : list arrival) : limits :=
  foldl (fun l a => fst (tick l a)) l arrivals.

(** The answers of the limiters to the login attempts of a run: [None]
    for an attempt that is let through. *)
Fixpoint verdicts (l : limits) (arrivals : list arrival)
    : list (option response) :=
  match arrivals with
  | [] => []
  | a :: rest =>
      (if is_attempt a then [snd (tick l a)] else [])
        ++ verdicts (fst (tick l a)) rest
  end.

(** No login attempt of the run is stopped by a limiter. *)
Definition let_through (l : limits) (arrivals : list arrival) : bool :=
  forallb (fun v => match v with None => true | Some _ => false end)
    (verdicts l arrivals).

Section Handlers.
Context `{Jwt.Primitives}.
(** [bcrypt.compare(password, hash)] for a password that is a string *)
Variable compare : string -> string -> bool.
Variable cfg : config.
Variable env : process_env.

(** The handler of [POST /api/auth/login], behind the validators. The
    [console.log] lines and the [auditLog] middleware in front of the
    handler are left out. [req] holds the password when it is a string;
    when it is not, [body_password req] is the text the validator makes
    of it, and [bcrypt.compare] throws: the inner [catch] answers 500. *)
Definition login_with (password_is_string : bool) (sm : SessionManager.t)
    (db : Db.users) (req : request) (c : circumstances) : login_result :=
  let answer st b n db' :=
    {| res := {| status := st; body := b |};
       users_after := db'; comparisons := n |} in
  match validation_errors req with
  | (_ :: _) as errors =>
      answer 400 (InvalidInputBody "Invalid input" errors) 0%nat db
  | [] =>
  let captchaResult :=
    verifyCaptcha env (body_captcha req) (captcha_remote c) in
  if negb (success captchaResult) then
    answer 400 (ErrorBody "Captcha verification failed. Please try again."
                  None (error captchaResult)) 0%nat db
  else if select_throws c then
    answer 500 (ErrorBody "Database error" None None) 0%nat db
  else
  match Db.select_by_username (body_username req) db with
  | None => answer 401 (ErrorBody "Invalid credentials" None None) 0%nat db
  | Some user =>
      if isLocked user (at_check c) then
        answer 423
          (ErrorBody
             "Account temporarily locked due to too many failed attempts"
             None None) 0%nat db
      else if negb password_is_string then
        answer 500 (ErrorBody "Database error" None None) 1%nat db
      else
      let isValidPassword :=
        compare (body_password req) (Db.password_hash user) in
      if negb isValidPassword then
        let newAttempts := Db.login_attempts user + 1 in
        let shouldLock := (maxLoginAttempts cfg <=? newAttempts)%Z in
        let lockUntil :=
          if shouldLock then Some (after_compare c + lockoutDuration cfg)
          else None in
        let db' :=
          if update_throws c then db
          else Db.update_failed newAttempts lockUntil (Db.id user) db in
        answer 401 (ErrorBody "Invalid credentials" None None) 1%nat db'
      else
        let db' :=
          if update_throws c then db
          else Db.update_success (after_compare c) (Db.id user) db in
        let token :=
          SessionManager.generateToken sm user req (after_compare c) in
        answer 200
          (LoginBody "Login successful" token (Db.id user)
             (Db.username user) (Db.role user)) 1%nat db'
  end
  end.

(** The handler for a body whose password is a string. *)
Definition login : SessionManager.t -> Db.users -> request ->
    circumstances -> login_result :=
  login_with true.

(** The handler for a body whose password is not a string. *)
Definition login_odd : SessionManager.t -> Db.users -> request ->
    circumstances -> login_result :=
  login_with false.

(** The handler of [POST /api/auth/logout], behind [authenticateToken]
    (and behind the two limiters, see [limited]). *)
Definition logout (sm : SessionManager.t) (req : request) (now : Z)
    : SessionManager.t * response :=
  match SessionManager.authenticate sm env req now with
  | SessionManager.Responded r => (sm, r)
  | SessionManager.Next user token =>
      let sm' :=
        if Str.truthy token then SessionManager.revokeToken sm token
        else sm in
      (sm', {| status := 200;
               body := LogoutBody "Logout successful" now
                         (Jwt.id user) (Jwt.username user) |})
  end.

(** The handler of [GET /api/auth/verify], behind [authenticateToken]
    (and behind the two limiters, see [verify_route]). *)
Definition verify (sm : SessionManager.t) (req : request) (now : Z)
    : response :=
  match SessionManager.authenticate sm env req now with
  | SessionManager.Responded r => r
  | SessionManager.Next user token =>
      {| status := 200;
         body := VerifyBody true (Jwt.id user) (Jwt.username user)
                   (Jwt.role user) now |}
  end.


(** The login handler applied to each request in turn: what a run comes
    to when the limiters let every request through. *)
Fixpoint handled (sm : SessionManager.t) (db : Db.users)
    (reqs : list (request * circumstances))
    : list response * Db.users * nat :=
  match reqs with
  | [] => ([], db, 0%nat)
  | (req, c) :: rest =>
      let r := login sm db req c in
      let '(rs, db', n) := handled sm (users_after r) rest in
      (res r :: rs, db', (comparisons r + n)%nat)
  end.

(** What an arrival does: the stores afterwards and, for a login
    attempt, its outcome. An attempt that a limiter stops never reaches
    the handler. *)
Definition arrive (sm : SessionManager.t) (l : limits) (db : Db.users)
    (a : arrival) : limits * option login_result :=
  let outcome r :=
    match snd (tick l a) with
    | Some stopped =>
        {| res := stopped; users_after := db; comparisons := 0 |}
    | None => r
    end in
  (fst (tick l a),
   match a with
   | Attempt req c => Some (outcome (login sm db req c))
   | AttemptOdd req c => Some (outcome (login_odd sm db req c))
   | Elsewhere _ _ | WindowEnds _ _ => None
   end).

(** A run of the login route, oldest arrival first: the responses to the
    login attempts, the table left behind and the number of calls of
    [bcrypt.compare]. *)
Fixpoint login_run (sm : SessionManager.t) (l : limits) (db : Db.users)
    (arrivals : list arrival) : list response * Db.users * nat :=
  match arrivals with
  | [] => ([], db, 0%nat)
  | a :: rest =>
      match snd (arrive sm l db a) with
      | Some r =>
          let '(rs, db', n) :=
            login_run sm (fst (arrive sm l db a)) (users_after r) rest in
          (res r :: rs, db', (comparisons r + n)%nat)
      | None => login_run sm (fst (arrive sm l db a)) db rest
      end
  end.

(** A run of logout requests that reach the handler, oldest first: the
    session manager they leave behind. *)
Definition logout_run (sm : SessionManager.t)
    (reqs : list (request * Z)) : SessionManager.t :=
  foldl (fun s '(req, now) => fst (logout s req now)) sm reqs.

End Handlers.
End Server.

(** ** AuthManager (scripts/auth-manager.js), the browser side *)

Module AuthManager.

(** [this.sessionTimeout] and [this.warningTime] of the constructor. *)
Definition sessionTimeout : Z := 30 * 60 * 1000.
Definition warningTime : Z := 5 * 60 * 1000.

(** The session object kept under [auth_session]. The stored form is
    [btoa(JSON.stringify(sessionData))], read back with
    [JSON.parse(atob(...))]; the model keeps the object itself. *)
Record session_data := {
  token : string;
  username : string;
  role : string;
  loginTime : Z;
  expiresAt : Z;
  csrfToken : string
}.

Definition set_expiresAt (sd : session_data) (e : Z) : session_data := {|
  token := token sd; username := username sd; role := role sd;
  loginTime := loginTime sd; expiresAt := e; csrfToken := csrfToken sd
|}.

(** The browser state the manager reads and writes: two keys of
    [localStorage], two of [sessionStorage], the two timers (as the
    time at which each fires) and the warning banners in the page. *)
Record browser := {
  auth_session : option session_data;
  auth_fingerprint : option string;
  auth_active : option string;
  csrf_token : option string;
  sessionTimer : option Z;
  warningTimer : option Z;
  warnings : nat
}.

Section Methods.
(** The value [generateFingerprint()] computes in this browser. *)
Variable fingerprint : string.

(** [storeSession(sessionData)] *)
Definition storeSession (b : browser) (sd : session_data) : browser := {|
  auth_session := Some sd;
  auth_fingerprint := Some fingerprint;
  auth_active := Some "true";
  csrf_token := csrf_token b;
  sessionTimer := sessionTimer b;
  warningTimer := warningTimer b;
  warnings := warnings b
|}.

(** [getSession()] *)
Definition getSession (b : browser) : option session_data :=
  match auth_session b with
  | None => None
  | Some sd =>
      if bool_decide (auth_fingerprint b = Some fingerprint)
      then Some sd else None
  end.

(** [isSessionValid(sessionData)] *)
Definition isSessionValid (b : browser) (sd : session_data) (now : Z)
    : bool :=
  if negb (Str.truthy (token sd)) || (expiresAt sd =? 0)%Z then false
  else if (expiresAt sd <? now)%Z then false
  else match auth_active b with
       | None => false
       | Some isActive => Str.truthy isActive
       end.

(** [startSessionTimer()], after [clearTimers()] *)
Definition startSessionTimer (b : browser) (now : Z) : browser := {|
  auth_session := auth_session b;
  auth_fingerprint := auth_fingerprint b;
  auth_active := auth_active b;
  csrf_token := csrf_token b;
  sessionTimer := Some (now + sessionTimeout);
  warningTimer := Some (now + (sessionTimeout - warningTime));
  warnings := warnings b
|}.

(** [hideSessionWarning()]: removes the first banner, if any. *)
Definition hideSessionWarning (b : browser) : browser := {|
  auth_session := auth_session b;
  auth_fingerprint := auth_fingerprint b;
  auth_active := auth_active b;
  csrf_token := csrf_token b;
  sessionTimer := sessionTimer b;
  warningTimer := warningTimer b;
  warnings := Nat.pred (warnings b)
|}.

(** [extendSession()], run on mousedown, mousemove, keypress, scroll
    and touchstart. *)
Definition extendSession (b : browser) (now : Z) : browser :=
  match getSession b with
  | Some sessionData =>
      if isSessionValid b sessionData now then
        let sessionData' := set_expiresAt sessionData (now + sessionTimeout) in
        hideSessionWarning
          (startSessionTimer (storeSession b sessionData') now)
      else b
  | None => b
  end.

(** The part of [handleSuccessfulLogin(response)] that builds and
    stores the session and starts the timers; [csrf] is the value of
    [CryptoUtils.generateCSRFToken()]. *)
Definition handleSuccessfulLogin (b : browser)
    (resp_token resp_username resp_role : string) (csrf : string)
    (now : Z) : browser :=
  let sessionData := {|
    token := resp_token; username := resp_username; role := resp_role;
    loginTime := now; expiresAt := now + sessionTimeout; csrfToken := csrf
  |} in
  startSessionTimer (storeSession b sessionData) now.

End Methods.
End AuthManager.

(* ===================================================================== *)
(** * Part II. Properties *)
(* ===================================================================== *)

(** ** Strings: splitting and single-character alteration *)

Section StrFacts.
Import Str.

Lemma app_cons (c : ascii) (s t : string) :
  String c s ++ t = String c (s ++ t).
Proof. reflexivity. Qed.

Lemma app_empty (t : string) : "" ++ t = t.
Proof. reflexivity. Qed.

Lemma split_not_nil sep s : split sep s <> [].
Proof.
  destruct s as [|c s]; simpl; [discriminate|].
  destruct (Ascii.eqb c sep); [discriminate|].
  destruct (split sep s); discriminate.
Qed.

Lemma split_free sep s : occurs sep s = false -> split sep s = [s].
Proof.
  induction s as [|c s IH]; simpl; [reflexivity|].
  intros [Hc Hs]%orb_false_elim. rewrite Hc, (IH Hs). reflexivity.
Qed.

Lemma split_app sep a b :
  occurs sep a = false -> split sep (a ++ String sep b) = a :: split sep b.
Proof.
  induction a as [|c a IH]; rewrite ?app_cons, ?app_empty; simpl.
  - intros _. rewrite Ascii.eqb_refl. reflexivity.
  - intros [Hc Ha]%orb_false_elim. rewrite Hc, (IH Ha). reflexivity.
Qed.

Lemma split_three sep a b c :
  occurs sep a = false -> occurs sep b = false -> occurs sep c = false ->
  split sep (a ++ String sep (b ++ String sep c)) = [a; b; c].
Proof.
  intros Ha Hb Hc.
  rewrite (split_app _ _ _ Ha), (split_app _ _ _ Hb), (split_free _ _ Hc).
  reflexivity.
Qed.

Lemma split_segments_free sep s :
  List.Forall (fun seg => occurs sep seg = false) (split sep s).
Proof.
  induction s as [|c s IH]; simpl; [repeat constructor|].
  destruct (Ascii.eqb c sep) eqn:Hc; [constructor; [reflexivity|exact IH]|].
  destruct (split sep s) as [|seg rest]; [repeat constructor; simpl; now rewrite Hc|].
  inversion IH as [|? ? Hseg Hrest]; subst.
  constructor; [simpl; now rewrite Hc, Hseg|exact Hrest].
Qed.

(** A string is determined by its segments. *)
Lemma split_inj sep s t : split sep s = split sep t -> s = t.
Proof.
  revert t. induction s as [|c s IH]; intros [|d t]; simpl.
  - reflexivity.
  - destruct (Ascii.eqb d sep).
    + intros [= E]. symmetry in E. now apply split_not_nil in E.
    + destruct (split sep t); discriminate.
  - destruct (Ascii.eqb c sep).
    + intros [= E]. now apply split_not_nil in E.
    + destruct (split sep s); discriminate.
  - destruct (Ascii.eqb_spec c sep) as [->|Hc],
             (Ascii.eqb_spec d sep) as [->|Hd].
    + intros [= E]. now rewrite (IH _ E).
    + destruct (split sep t); discriminate.
    + destruct (split sep s); discriminate.
    + specialize (IH t).
      destruct (split sep s) as [|seg rest] eqn:Es;
        [now apply split_not_nil in Es|].
      destruct (split sep t) as [|seg' rest'] eqn:Et;
        [now apply split_not_nil in Et|].
      intros [= -> -> ->]. now rewrite IH.
Qed.

Lemma length_split sep s : length (split sep s) = S (count sep s).
Proof.
  induction s as [|c s IH]; simpl; [reflexivity|].
  destruct (Ascii.eqb c sep); simpl; [now rewrite IH|].
  destruct (split sep s) eqn:E; simpl in *; [discriminate|]. exact IH.
Qed.

Lemma count_app c a b : count c (a ++ b) = (count c a + count c b)%nat.
Proof.
  induction a as [|d a IH]; rewrite ?app_cons, ?app_empty; simpl; lia.
Qed.

(** Altering the character at an index in range rewrites one character
    between a prefix and a suffix that stay. *)
Lemma set_char_decompose i c s a :
  String.get i s = Some a ->
  exists pre post,
    s = pre ++ String a post /\ set_char i c s = pre ++ String c post.
Proof.
  revert i. induction s as [|d s IH]; intros [|i]; simpl; try discriminate.
  - intros [= ->]. exists "", s. split; reflexivity.
  - intros Hget. destruct (IH _ Hget) as (pre & post & Hs & Hset).
    exists (String d pre), post. rewrite Hset, app_cons.
    split; [now rewrite Hs at 1|reflexivity].
Qed.

(** If neither the old nor the new character is the separator, the
    segments stay in place and exactly one of them changes, at one
    character. *)
Lemma split_alter sep pre a b post :
  Ascii.eqb a sep = false -> Ascii.eqb b sep = false ->
  exists segs1 x y segs2,
    split sep (pre ++ String a post) = (segs1 ++ (x ++ String a y)%string :: segs2)%list /\
    split sep (pre ++ String b post) = (segs1 ++ (x ++ String b y)%string :: segs2)%list.
Proof.
  intros Ha Hb. induction pre as [|c pre IH]; rewrite ?app_cons, ?app_empty.
  - simpl. rewrite Ha, Hb.
    destruct (split sep post) as [|seg rest] eqn:E.
    + now apply split_not_nil in E.
    + exists [], "", seg, rest. split; reflexivity.
  - destruct IH as (segs1 & x & y & segs2 & E1 & E2).
    simpl. rewrite E1, E2.
    destruct (Ascii.eqb c sep).
    + exists ("" :: segs1), x, y, segs2. split; reflexivity.
    + destruct segs1 as [|s1 segs1]; simpl.
      * exists [], (String c x), y, segs2. split; reflexivity.
      * exists (String c s1 :: segs1), x, y, segs2. split; reflexivity.
Qed.

Lemma alter_neq x a b y : a <> b -> x ++ String a y <> x ++ String b y.
Proof.
  intros Hab E. apply String.app_inj in E. congruence.
Qed.

End StrFacts.

Lemma string_app_assoc (a b c : string) : (a ++ b) ++ c = a ++ (b ++ c).
Proof.
  induction a as [|d a IH]; rewrite ?app_cons, ?app_empty; [reflexivity|].
  now rewrite IH.
Qed.

Lemma truthy_app_cons (a : string) (c : ascii) (b : string) :
  Str.truthy (a ++ String c b) = true.
Proof. destruct a; reflexivity. Qed.

(** ** The token format *)

Section JwtFacts.
Context `{Jwt.Primitives}.
Import Jwt.

(** The part of a signed token that its signature covers: the encoded
    header and payload with the separator between them. *)
Definition secured_input (payload : session_payload) (opts : sign_options)
    (now : Z) : string :=
  encode_header hs256_header ++ "." ++ encode_payload (stamp payload opts now).

Lemma sign_secured payload k opts now :
  sign payload k opts now =
    secured_input payload opts now ++ "." ++
    hmac "HS256" k (secured_input payload opts now).
Proof. reflexivity. Qed.

Lemma sign_shape payload k opts now :
  sign payload k opts now =
    encode_header hs256_header ++
    String "." (encode_payload (stamp payload opts now) ++
    String "." (hmac "HS256" k
      (encode_header hs256_header ++ "." ++ encode_payload (stamp payload opts now)))).
Proof.
  unfold sign. cbv zeta. rewrite !string_app_assoc. reflexivity.
Qed.

Lemma split_sign payload k opts now :
  Str.split "." (sign payload k opts now) =
    [encode_header hs256_header;
     encode_payload (stamp payload opts now);
     hmac "HS256" k
       (encode_header hs256_header ++ "." ++ encode_payload (stamp payload opts now))].
Proof.
  rewrite sign_shape.
  apply split_three;
    auto using encode_header_nodot, encode_payload_nodot, hmac_nodot.
Qed.

(** Verifying a token that [sign] produced under the same secret comes
    down to the checks on its claims. *)
Lemma verify_sign payload k opts vopts now now' :
  verify (sign payload k opts now) k vopts now' =
    check_claims (stamp payload opts now) vopts (now' / 1000).
Proof.
  unfold verify. rewrite split_sign.
  rewrite sign_shape at 1. rewrite truthy_app_cons. simpl negb. cbv iota.
  rewrite decode_encode_header, decode_encode_payload.
  rewrite hmac_not_blank. simpl.
  now rewrite String.eqb_refl.
Qed.

(** What a successful verification says about the token. *)
Lemma verify_returns_inv token k vopts now c :
  verify token k vopts now = Returns c ->
  exists h p s header payload,
    Str.split "." token = [h; p; s] /\
    decode_header h = Some header /\
    decode_payload p = Some payload /\
    s = hmac (alg header) k (h ++ "." ++ p) /\
    check_claims payload vopts (now / 1000) = Returns c.
Proof.
  unfold verify. destruct (negb (Str.truthy token)); [discriminate|].
  destruct (Str.split "." token) as [|h [|p [|s [|? ?]]]]; try discriminate.
  destruct (decode_header h) as [header|] eqn:Hh; [|discriminate].
  destruct (decode_payload p) as [payload|] eqn:Hp; [|discriminate].
  destruct (Str.blank s); [discriminate|].
  destruct (negb (supported_alg (alg header))); [discriminate|].
  destruct (String.eqb_spec s (hmac (alg header) k (h ++ "." ++ p)));
    simpl; [|discriminate].
  intros Hc. exists h, p, s, header, payload. auto.
Qed.

Lemma check_claims_returns_inv c vopts clock c' :
  check_claims c vopts clock = Returns c' ->
  c' = c /\
  (forall e, exp c = Some e -> clock < e) /\
  aud c = Some (audience vopts) /\ iss c = Some (issuer vopts).
Proof.
  unfold check_claims.
  destruct (exp c) as [e|] eqn:He.
  - destruct (Z.leb_spec e clock); [discriminate|].
    repeat case_bool_decide; simpl; try discriminate.
    intros [= <-]. repeat split; auto. intros ? [= <-]. lia.
  - repeat case_bool_decide; simpl; try discriminate.
    intros [= <-]. repeat split; auto. discriminate.
Qed.

Lemma check_claims_expired c vopts clock e :
  exp c = Some e -> e <= clock ->
  check_claims c vopts clock = Throws TokenExpired.
Proof.
  unfold check_claims. intros -> Hle.
  destruct (Z.leb_spec e clock); [reflexivity|lia].
Qed.

Lemma check_claims_fresh c vopts clock e :
  exp c = Some e -> clock < e ->
  aud c = Some (audience vopts) -> iss c = Some (issuer vopts) ->
  check_claims c vopts clock = Returns c.
Proof.
  unfold check_claims. intros -> Hlt -> ->.
  destruct (Z.leb_spec e clock); [lia|].
  rewrite !bool_decide_eq_true_2 by reflexivity. reflexivity.
Qed.

End JwtFacts.

Section Tampering.
Context `{Jwt.Primitives}.
Import Jwt.

Lemma count_alter_dot pre a b post :
  a <> b -> (a = "."%char \/ b = "."%char) ->
  Str.count "." (pre ++ String a post) <> Str.count "." (pre ++ String b post).
Proof.
  intros Hab Hdot. rewrite !count_app. simpl.
  destruct (Ascii.eqb_spec a "."), (Ascii.eqb_spec b "."); subst;
    try congruence; try lia.
  destruct Hdot; congruence.
Qed.

Lemma string_length_app (a b : string) :
  String.length (a ++ b) = (String.length a + String.length b)%nat.
Proof.
  induction a as [|c a IH]; rewrite ?app_cons, ?app_empty; simpl; auto.
Qed.

Lemma app_inj_length (a b c d : string) :
  a ++ b = c ++ d -> String.length a = String.length c -> a = c /\ b = d.
Proof.
  revert c. induction a as [|x a IH]; intros [|y c];
    rewrite ?app_cons, ?app_empty; simpl; try discriminate.
  - auto.
  - intros [= -> E] [= Hl]. destruct (IH _ E Hl) as [-> ->]. auto.
Qed.

Lemma set_char_changes i c s a :
  String.get i s = Some a -> a <> c -> Str.set_char i c s <> s.
Proof.
  intros Hget Hac.
  destruct (set_char_decompose i c s a Hget) as (pre & post & E & ->).
  rewrite E. intros E'. apply alter_neq in E'; [exact E'|congruence].
Qed.

(** Beyond a prefix, altering a character leaves the prefix as it is. *)
Lemma set_char_app_r i c (m r : string) :
  (String.length m <= i)%nat ->
  Str.set_char i c (m ++ r) = m ++ Str.set_char (i - String.length m) c r.
Proof.
  revert i. induction m as [|d m IH]; intros i Hi;
    rewrite ?app_cons, ?app_empty; simpl in *.
  - now rewrite Nat.sub_0_r.
  - destruct i as [|i]; [lia|]. simpl. f_equal. apply IH. lia.
Qed.

(** A token that differs from a signed one in exactly one character and
    is accepted all the same was altered in its header or payload, at a
    character that neither was nor became a separator; it still ends in
    the signature of the signed one, and the library computes that very
    signature for its altered front part, under an algorithm that it
    supports. *)
Lemma verify_altered payload k opts vopts now now' pre a b post c :
  sign payload k opts now = pre ++ String a post ->
  a <> b ->
  verify (pre ++ String b post) k vopts now' = Returns c ->
  a <> "."%char /\ b <> "."%char /\
  exists alg' m',
    supported_alg alg' = true /\
    pre ++ String b post
      = m' ++ "." ++ hmac "HS256" k (secured_input payload opts now) /\
    String.length m' = String.length (secured_input payload opts now) /\
    hmac alg' k m' = hmac "HS256" k (secured_input payload opts now).
Proof.
  intros Htok Hab Hv.
  pose proof Hv as Hv'.
  apply verify_returns_inv in Hv
    as (h' & p' & s' & header' & payload' & Hsplit' & Hh' & _ & Hs' & _).
  assert (Halg : supported_alg (alg header') = true).
  { unfold verify in Hv'. rewrite Hsplit', Hh' in Hv'.
    destruct (negb (Str.truthy _)); [discriminate|].
    destruct (decode_payload p'); [|discriminate].
    destruct (Str.blank s'); [discriminate|].
    destruct (supported_alg (alg header')); [reflexivity|discriminate]. }
  pose proof (split_sign payload k opts now) as Hsplit.
  rewrite Htok in Hsplit.
  destruct (Ascii.eqb_spec a ".") as [Ha|Ha];
    [|destruct (Ascii.eqb_spec b ".") as [Hb|Hb]].
  - (* a separator was overwritten *)
    exfalso. apply (count_alter_dot pre a b post Hab); [now left|].
    apply (f_equal length) in Hsplit, Hsplit'.
    rewrite length_split in Hsplit, Hsplit'. simpl in *. lia.
  - (* a separator was written *)
    exfalso. apply (count_alter_dot pre a b post Hab); [now right|].
    apply (f_equal length) in Hsplit, Hsplit'.
    rewrite length_split in Hsplit, Hsplit'. simpl in *. lia.
  - (* the segments stay in place, one of them changes *)
    split; [exact Ha|]. split; [exact Hb|].
    assert (Hjoin : pre ++ String b post = (h' ++ "." ++ p') ++ "." ++ s').
    { apply (split_inj "."). rewrite Hsplit', string_app_assoc.
      pose proof (split_segments_free "." (pre ++ String b post)) as Hfree.
      rewrite Hsplit' in Hfree.
      inversion Hfree as [|? ? Hfh Hfree']; subst.
      inversion Hfree' as [|? ? Hfp Hfree'']; subst.
      inversion Hfree'' as [|? ? Hfs _]; subst.
      symmetry. now apply split_three. }
    assert (Hsig : s' = hmac "HS256" k (secured_input payload opts now)).
    { apply Ascii.eqb_neq in Ha, Hb.
      destruct (split_alter "." pre a b post Ha Hb)
        as (segs1 & x & y & segs2 & E & E').
      rewrite E in Hsplit. rewrite E' in Hsplit'.
      unfold secured_input.
      destruct segs1 as [|g1 [|g2 [|g3 segs1]]]; simpl in *.
      - congruence.
      - congruence.
      - exfalso. simplify_eq.
        rewrite decode_encode_header in Hh'. injection Hh' as <-.
        match goal with
        | Hb' : _ ++ String b _ = hmac _ _ _, Ha' : _ ++ String a _ = hmac _ _ _
          |- _ => simpl in Hb'; rewrite <- Hb' in Ha';
                  now apply alter_neq in Ha'
        end.
      - destruct segs1; discriminate. }
    exists (alg header'), (h' ++ "." ++ p').
    split; [exact Halg|].
    split; [now rewrite <- Hsig|]. split; [|congruence].
    apply (f_equal String.length) in Hjoin.
    pose proof (f_equal String.length Htok) as Hlen.
    rewrite sign_secured, <- Hsig in Hlen.
    rewrite !string_length_app in Hjoin, Hlen. rewrite !string_length_app.
    simpl in Hjoin, Hlen. rewrite ?app_empty in Hjoin. simpl. lia.
Qed.

(** Altering a separator, writing a separator, or altering a character
    behind the part that the signature covers is always detected. *)
Lemma verify_altered_behind payload k opts vopts now now' i a c :
  String.get i (sign payload k opts now) = Some a ->
  a <> c ->
  a = "."%char \/ c = "."%char \/
    (String.length (secured_input payload opts now) <= i)%nat ->
  succeeded (verify (Str.set_char i c (sign payload k opts now)) k vopts now')
    = false.
Proof.
  intros Hget Hac Hwhere.
  destruct (verify _ k vopts now') as [claims|e] eqn:Hv; [exfalso|reflexivity].
  pose proof (set_char_changes _ _ _ _ Hget Hac) as Hchanged.
  destruct (set_char_decompose i c _ a Hget) as (pre & post & E & E').
  rewrite E' in Hv.
  destruct (verify_altered _ _ _ _ _ _ _ _ _ _ _ E Hac Hv)
    as (Ha & Hc & alg' & m' & _ & Hjoin & Hlen & _).
  destruct Hwhere as [?|[?|Hi]]; [congruence|congruence|].
  rewrite <- E', sign_secured in Hjoin.
  rewrite set_char_app_r in Hjoin by exact Hi.
  symmetry in Hjoin.
  apply app_inj_length in Hjoin; [|exact Hlen].
  destruct Hjoin as [-> Hrest].
  apply Hchanged. rewrite sign_secured at 1.
  rewrite set_char_app_r by exact Hi. now rewrite <- Hrest.
Qed.

(** Any other alteration is detected unless the library computes the
    signature of the signed token for the altered front part. *)
Lemma verify_altered_within payload k opts vopts now now' i a c :
  String.get i (sign payload k opts now) = Some a ->
  a <> c ->
  (forall alg' m',
     supported_alg alg' = true ->
     Str.set_char i c (sign payload k opts now)
       = m' ++ "." ++ hmac "HS256" k (secured_input payload opts now) ->
     hmac alg' k m' <> hmac "HS256" k (secured_input payload opts now)) ->
  succeeded (verify (Str.set_char i c (sign payload k opts now)) k vopts now')
    = false.
Proof.
  intros Hget Hac Hdistinct.
  destruct (verify _ k vopts now') as [claims|e] eqn:Hv; [exfalso|reflexivity].
  destruct (set_char_decompose i c _ a Hget) as (pre & post & E & E').
  rewrite E' in Hv, Hdistinct.
  destruct (verify_altered _ _ _ _ _ _ _ _ _ _ _ E Hac Hv)
    as (_ & _ & alg' & m' & Halg & Hjoin & _ & Hsame).
  exact (Hdistinct alg' m' Halg Hjoin Hsame).
Qed.

End Tampering.

(** ** A transparent instance of the primitives

    The facts above hold for every instance of [Jwt.Primitives]. The
    instance below makes the model executable: each octet is written as two
    characters of a sixteen-letter alphabet, fields are joined with a
    hyphen, and the signature is the encoding of algorithm, key and
    message. It offers no secrecy, only the structure the library relies
    on; without collisions by construction. *)

Module Plain.

Definition low (b0 b1 b2 b3 : bool) : ascii :=
  Ascii b0 b1 b2 b3 false true true false.
Arguments low : simpl never.

Definition enc_char (c : ascii) : string :=
  let '(Ascii b0 b1 b2 b3 b4 b5 b6 b7) := c in
  String (low b0 b1 b2 b3) (String (low b4 b5 b6 b7) "").

Definition dec_char (c1 c2 : ascii) : ascii :=
  let '(Ascii b0 b1 b2 b3 _ _ _ _) := c1 in
  let '(Ascii b4 b5 b6 b7 _ _ _ _) := c2 in
  Ascii b0 b1 b2 b3 b4 b5 b6 b7.

Fixpoint enc (s : string) : string :=
  match s with
  | EmptyString => EmptyString
  | String c s' => enc_char c ++ enc s'
  end.

Fixpoint dec (s : string) : option string :=
  match s with
  | EmptyString => Some EmptyString
  | String c1 (String c2 s') => String (dec_char c1 c2) <$> dec s'
  | String _ EmptyString => None
  end.

Definition enc_Z (z : Z) : string := enc (HexString.of_Z z).
Definition dec_Z (s : string) : option Z := HexString.to_Z <$> dec s.

Definition enc_opt {A} (f : A -> string) (o : option A) : string :=
  match o with
  | None => EmptyString
  | Some v => String "+" (f v)
  end.

Definition dec_opt {A} (f : string -> option A) (s : string)
    : option (option A) :=
  match s with
  | EmptyString => Some None
  | String c r => if Ascii.eqb c "+" then Some <$> f r else None
  end.

(** [segments.join(sep)] *)
Fixpoint join (sep : ascii) (l : list string) : string :=
  match l with
  | [] => EmptyString
  | [s] => s
  | s :: rest => s ++ String sep (join sep rest)
  end.

Definition encode_header (h : Jwt.jose_header) : string :=
  join "-" [enc (Jwt.alg h); enc (Jwt.typ h)].

Definition decode_header (s : string) : option Jwt.jose_header :=
  match Str.split "-" s with
  | [a; t] =>
      a' ← dec a; t' ← dec t;
      Some {| Jwt.alg := a'; Jwt.typ := t' |}
  | _ => None
  end.

Definition encode_payload (c : Jwt.claims) : string :=
  join "-" [enc_Z (Jwt.id c); enc (Jwt.username c); enc (Jwt.role c);
            enc_Z (Jwt.iat c); enc (Jwt.ip c); enc (Jwt.userAgent c);
            enc_opt enc_Z (Jwt.exp c); enc_opt enc (Jwt.iss c);
            enc_opt enc (Jwt.aud c)].

Definition decode_payload (s : string) : option Jwt.claims :=
  match Str.split "-" s with
  | [f1; f2; f3; f4; f5; f6; f7; f8; f9] =>
      v1 ← dec_Z f1; v2 ← dec f2; v3 ← dec f3; v4 ← dec_Z f4;
      v5 ← dec f5; v6 ← dec f6; v7 ← dec_opt dec_Z f7;
      v8 ← dec_opt dec f8; v9 ← dec_opt dec f9;
      Some {| Jwt.id := v1; Jwt.username := v2; Jwt.role := v3;
              Jwt.iat := v4; Jwt.ip := v5; Jwt.userAgent := v6;
              Jwt.exp := v7; Jwt.iss := v8; Jwt.aud := v9 |}
  | _ => None
  end.

Definition hmac (a k m : string) : string :=
  join "-" [enc a; enc k; enc m].

(** *** The encoding *)

Lemma dec_enc s : dec (enc s) = Some s.
Proof.
  induction s as [|c s IH]; [reflexivity|].
  destruct c. simpl. rewrite ?app_cons, ?app_empty. simpl.
  now rewrite IH.
Qed.

Lemma enc_inj s t : enc s = enc t -> s = t.
Proof.
  intros E. apply (f_equal dec) in E. rewrite !dec_enc in E. congruence.
Qed.

Lemma dec_enc_Z z : dec_Z (enc_Z z) = Some z.
Proof.
  unfold dec_Z, enc_Z. rewrite dec_enc. simpl.
  now rewrite HexString.to_Z_of_Z.
Qed.

Lemma dec_enc_opt {A} (f : A -> string) (g : string -> option A) o :
  (forall v, g (f v) = Some v) -> dec_opt g (enc_opt f o) = Some o.
Proof.
  intros Hgf. destruct o as [v|]; [|reflexivity].
  simpl. now rewrite Hgf.
Qed.

Lemma occurs_app c a b :
  Str.occurs c (a ++ b) = Str.occurs c a || Str.occurs c b.
Proof.
  induction a as [|d a IH]; rewrite ?app_cons, ?app_empty; simpl;
    [reflexivity|].
  now rewrite IH, orb_assoc.
Qed.

(** Encoded text uses the letters from [`] to [o] only. *)
Definition outside (c : ascii) : Prop :=
  forall b0 b1 b2 b3, Ascii.eqb (low b0 b1 b2 b3) c = false.

Lemma outside_dot : outside ".".
Proof. intros [] [] [] []; reflexivity. Qed.

Lemma outside_hyphen : outside "-".
Proof. intros [] [] [] []; reflexivity. Qed.

Lemma enc_cons b0 b1 b2 b3 b4 b5 b6 b7 s :
  enc (String (Ascii b0 b1 b2 b3 b4 b5 b6 b7) s) =
    String (low b0 b1 b2 b3) (String (low b4 b5 b6 b7) (enc s)).
Proof. reflexivity. Qed.

Lemma occurs_cons c d s :
  Str.occurs c (String d s) = Ascii.eqb d c || Str.occurs c s.
Proof. reflexivity. Qed.

Lemma enc_free c s : outside c -> Str.occurs c (enc s) = false.
Proof.
  intros Hc. induction s as [|d s IH]; [reflexivity|].
  destruct d. now rewrite enc_cons, !occurs_cons, !Hc, IH.
Qed.

Lemma enc_opt_free {A} c (f : A -> string) o :
  Ascii.eqb "+" c = false -> (forall v, Str.occurs c (f v) = false) ->
  Str.occurs c (enc_opt f o) = false.
Proof.
  intros Hp Hf. destruct o as [v|]; [|reflexivity].
  unfold enc_opt. now rewrite occurs_cons, Hp, Hf.
Qed.

Lemma join_free c sep l :
  Ascii.eqb sep c = false -> Forall (fun s => Str.occurs c s = false) l ->
  Str.occurs c (join sep l) = false.
Proof.
  intros Hsep. induction 1 as [|s l Hs Hl IH]; [reflexivity|].
  destruct l as [|s' l]; [exact Hs|].
  change (join sep (s :: s' :: l)) with (s ++ String sep (join sep (s' :: l))).
  now rewrite occurs_app, occurs_cons, Hs, Hsep, IH.
Qed.

Lemma split_join sep l :
  l <> [] -> Forall (fun s => Str.occurs sep s = false) l ->
  Str.split sep (join sep l) = l.
Proof.
  intros Hne Hl. induction Hl as [|s l Hs Hl IH]; [congruence|].
  destruct l as [|s' l]; [now apply split_free|].
  change (join sep (s :: s' :: l)) with (s ++ String sep (join sep (s' :: l))).
  rewrite split_app by exact Hs. now rewrite IH.
Qed.

Lemma blank_hyphen a b : Str.blank (a ++ String "-" b) = false.
Proof.
  induction a as [|c a IH]; rewrite ?app_cons, ?app_empty; simpl;
    [reflexivity|].
  rewrite IH. apply andb_false_r.
Qed.

Create HintDb plain.
Local Hint Resolve enc_free outside_dot outside_hyphen : plain.

Lemma decode_encode_header h : decode_header (encode_header h) = Some h.
Proof.
  unfold decode_header, encode_header.
  rewrite split_join; [|discriminate|repeat constructor; auto with plain].
  rewrite !dec_enc. simpl. now destruct h.
Qed.

Lemma decode_encode_payload c : decode_payload (encode_payload c) = Some c.
Proof.
  unfold decode_payload, encode_payload.
  rewrite split_join; [|discriminate|].
  - rewrite !dec_enc, !dec_enc_Z. simpl.
    rewrite (dec_enc_opt enc_Z dec_Z) by apply dec_enc_Z.
    rewrite !(dec_enc_opt enc dec) by apply dec_enc.
    simpl. now destruct c.
  - unfold enc_Z.
    repeat constructor; auto with plain;
      apply enc_opt_free; auto with plain.
Qed.

Lemma encode_header_nodot h : Str.occurs "." (encode_header h) = false.
Proof.
  apply join_free; [reflexivity|]. repeat constructor; auto with plain.
Qed.

Lemma encode_payload_nodot c : Str.occurs "." (encode_payload c) = false.
Proof.
  apply join_free; [reflexivity|]. unfold enc_Z.
  repeat constructor; auto with plain; apply enc_opt_free; auto with plain.
Qed.

Lemma hmac_nodot a k m : Str.occurs "." (hmac a k m) = false.
Proof.
  apply join_free; [reflexivity|]. repeat constructor; auto with plain.
Qed.

Lemma hmac_not_blank a k m : Str.blank (hmac a k m) = false.
Proof. apply blank_hyphen. Qed.

#[export] Instance primitives : Jwt.Primitives := {|
  Jwt.hmac := hmac;
  Jwt.encode_header := encode_header;
  Jwt.decode_header := decode_header;
  Jwt.encode_payload := encode_payload;
  Jwt.decode_payload := decode_payload;
  Jwt.decode_encode_header := decode_encode_header;
  Jwt.decode_encode_payload := decode_encode_payload;
  Jwt.encode_header_nodot := encode_header_nodot;
  Jwt.encode_payload_nodot := encode_payload_nodot;
  Jwt.hmac_nodot := hmac_nodot;
  Jwt.hmac_not_blank := hmac_not_blank
|}.

Lemma hmac_injective a1 a2 k m1 m2 : hmac a1 k m1 = hmac a2 k m2 -> m1 = m2.
Proof.
  intros E.
  apply (f_equal (Str.split "-")) in E. unfold hmac in E.
  rewrite !split_join in E;
    try discriminate; try (repeat constructor; auto with plain).
  injection E as _ E. now apply enc_inj.
Qed.

End Plain.

#[local] Existing Instance Plain.primitives.

(** ** SessionManager: issuing, verifying, revoking *)

Section SessionFacts.
Context `{Jwt.Primitives}.
Import SessionManager.

(** The claims inside a token issued at [now]. *)
Definition issued_claims (user : Db.user_row) (req : request) (now : Z)
    : Jwt.claims :=
  Jwt.stamp (token_payload user req now) sign_opts now.

Lemma issued_iat user req now : Jwt.iat (issued_claims user req now) = now / 1000.
Proof.
  unfold issued_claims, Jwt.stamp. simpl.
  destruct (Z.eqb_spec (now / 1000) 0) as [E|]; [now rewrite E|reflexivity].
Qed.

Lemma issued_exp user req now :
  Jwt.exp (issued_claims user req now) = Some (now / 1000 + 30 * 60).
Proof.
  unfold issued_claims, Jwt.stamp. simpl.
  destruct (Z.eqb_spec (now / 1000) 0) as [E|]; [now rewrite E|reflexivity].
Qed.

(** The library accepts an issued token exactly while the clock, in
    seconds, is below its expiry. *)
Lemma library_accepts sm user req now v :
  v / 1000 < now / 1000 + 30 * 60 ->
  Jwt.verify (generateToken sm user req now) (sm_jwtSecret sm) verify_opts v
    = Returns (issued_claims user req now).
Proof.
  intros Hv. unfold generateToken. rewrite verify_sign.
  apply check_claims_fresh with (e := now / 1000 + 30 * 60);
    [apply issued_exp|exact Hv|reflexivity|reflexivity].
Qed.

Lemma library_rejects_expired sm user req now v :
  now / 1000 + 30 * 60 <= v / 1000 ->
  Jwt.verify (generateToken sm user req now) (sm_jwtSecret sm) verify_opts v
    = Throws Jwt.TokenExpired.
Proof.
  intros Hv. unfold generateToken. rewrite verify_sign.
  apply check_claims_expired with (e := now / 1000 + 30 * 60);
    [apply issued_exp|exact Hv].
Qed.

Lemma verifyToken_expired sm env user req now req' v :
  now / 1000 + 30 * 60 <= v / 1000 ->
  verifyToken sm env (generateToken sm user req now) req' v
    = ([], Throws (LibraryError Jwt.TokenExpired)).
Proof.
  intros Hv. unfold verifyToken. now rewrite library_rejects_expired.
Qed.

Lemma verifyToken_fresh sm env user req now req' v :
  v / 1000 < now / 1000 + 30 * 60 ->
  generateToken sm user req now ∉ tokenBlacklist sm ->
  snd (verifyToken sm env (generateToken sm user req now) req' v)
    = Returns (issued_claims user req now).
Proof.
  intros Hv Hbl. unfold verifyToken. rewrite library_accepts by exact Hv.
  rewrite bool_decide_eq_false_2 by exact Hbl. reflexivity.
Qed.

Lemma verifyToken_revoked sm env token req v :
  token ∈ tokenBlacklist sm ->
  succeeded (snd (verifyToken sm env token req v)) = false.
Proof.
  intros Hbl. unfold verifyToken.
  destruct (Jwt.verify _ _ _ _); [|reflexivity].
  now rewrite bool_decide_eq_true_2.
Qed.

(** The secret and the timeout never change; only the blacklist does. *)
Lemma generateToken_blacklist sm b user req now :
  generateToken (with_blacklist sm b) user req now = generateToken sm user req now.
Proof. reflexivity. Qed.

Lemma revokeToken_elem sm token t' :
  t' ∈ tokenBlacklist (revokeToken sm token) <->
  t' = token \/ t' ∈ tokenBlacklist sm.
Proof. unfold revokeToken. simpl. set_solver. Qed.

Lemma revokeToken_present sm token :
  token ∈ tokenBlacklist sm -> revokeToken sm token = sm.
Proof.
  intros Hin. unfold revokeToken, with_blacklist. destruct sm as [k to bl].
  simpl in *. f_equal.
  now apply subseteq_union_1_L, singleton_subseteq_l.
Qed.

End SessionFacts.

(** ** Concrete data for the examples *)

Module Scenario.
Import Plain.

Definition env : process_env := {|
  STRICT_IP_CHECK := Some "true";
  NODE_ENV := Some "production";
  HCAPTCHA_SECRET := Some "hcaptcha-secret"
|}.

Definition cfg : config := server_config "0f1e2d3c4b5a69788796a5b4c3d2e1f0".

Definition sm : SessionManager.t := SessionManager.create cfg.

Definition admin : Db.user_row := {|
  Db.id := 1;
  Db.username := "admin";
  Db.password_hash := "$2b$12$abcdefghijklmnopqrstuv";
  Db.role := "admin";
  Db.login_attempts := 0;
  Db.locked_until := None;
  Db.last_login := None
|}.

Definition db : Db.users := [admin].

(** A request from [ip] carrying [auth] as its Authorization header. *)
Definition request_from (ip : string) (auth : option string) : request := {|
  req_ip := ip;
  authorization := auth;
  user_agent := Some "Mozilla/5.0 (X11; Linux x86_64)";
  body_username := "admin";
  body_password := "not-the-password";
  body_captcha := Some "10000000-aaaa-bbbb-cccc-000000000001"
|}.

Definition browser_request : request := request_from "203.0.113.7" None.

(** 2023-11-14T22:13:20.123Z *)
Definition t0 : Z := 1700000000123.

Definition token : string :=
  Eval vm_compute in SessionManager.generateToken sm admin browser_request t0.

Definition bearer (tok : string) : request :=
  request_from "203.0.113.7" (Some ("Bearer " ++ tok)).

(** A stand-in for [bcrypt.compare]: one password matches the hash
    stored for [admin]. *)
Definition compare (password hash : string) : bool :=
  String.eqb password "correct horse battery staple"
  && String.eqb hash (Db.password_hash admin).

(** A login request for [admin] with [password], handled at [at_ms];
    the comparison takes 80 ms, the captcha service approves and the
    database statements succeed. *)
Definition attempt (password : string) (at_ms : Z)
    : request * Server.circumstances :=
  ({| req_ip := "203.0.113.7";
      authorization := None;
      user_agent := Some "Mozilla/5.0 (X11; Linux x86_64)";
      body_username := "admin";
      body_password := password;
      body_captcha := Some "10000000-aaaa-bbbb-cccc-000000000001" |},
   {| Server.at_check := at_ms;
      Server.after_compare := at_ms + 80;
      Server.captcha_remote := Server.Verdict true;
      Server.select_throws := false;
      Server.update_throws := false |}).

(** The stores of the two limiters before any request is counted. *)
Definition no_hits : Server.limits :=
  {| Server.api_hits := ∅; Server.auth_hits := ∅ |}.

(** The token of the [i]-th login, one login per second from [t0]. *)
Definition issued (i : nat) : string :=
  SessionManager.generateToken sm admin browser_request
    (t0 + Z.of_nat i * 1000).

(** The session manager after the first [n] of these tokens have each
    been used for one logout, all within the second that follows the
    last login. *)
Definition after_logouts (n : nat) : SessionManager.t :=
  Server.logout_run env sm
    (map (fun tok => (bearer tok, t0 + Z.of_nat n * 1000))
         (map issued (seq 0 n))).

End Scenario.

(** ** Token expiry, round trip, tampering *)

Section TokenClaims.
Context `{Jwt.Primitives}.
Import SessionManager.

Lemma verifyToken_returns_issued sm env user req now req' v c :
  snd (verifyToken sm env (generateToken sm user req now) req' v) = Returns c ->
  c = issued_claims user req now.
Proof.
  unfold verifyToken.
  destruct (Z.lt_ge_cases (v / 1000) (now / 1000 + 30 * 60)) as [Hv|Hv].
  - rewrite library_accepts by exact Hv.
    case_bool_decide; simpl; congruence.
  - rewrite library_rejects_expired by exact Hv. discriminate.
Qed.

(** C3, as amended. A token issued at [now] carries [iat = now / 1000]
    and [exp = iat + 1800], and every successful verification returns
    exactly these, so no verification extends the lifetime. Verified one
    second before the expiry the token is accepted provided it is not in
    the revocation set; verified one second after it is rejected whatever
    the revocation set holds. *)
Theorem C3_expiry_boundary sm env user req now req' :
  let token := generateToken sm user req now in
  let iat := now / 1000 in
  (forall v c, snd (verifyToken sm env token req' v) = Returns c ->
     Jwt.iat c = iat /\ Jwt.exp c = Some (iat + 30 * 60)) /\
  (token ∉ tokenBlacklist sm ->
     succeeded (snd (verifyToken sm env token req'
                       ((iat + 30 * 60 - 1) * 1000))) = true) /\
  (forall revoked : gset string,
     succeeded (snd (verifyToken (with_blacklist sm revoked) env token req'
                       ((iat + 30 * 60 + 1) * 1000))) = false).
Proof.
  intros token iat. split; [|split].
  - intros v c Hc. apply verifyToken_returns_issued in Hc. subst c.
    split; [apply issued_iat|apply issued_exp].
  - intros Hbl. subst token. rewrite verifyToken_fresh; [reflexivity| |exact Hbl].
    rewrite Z.div_mul by lia. fold iat. lia.
  - intros revoked. subst token.
    rewrite <- (generateToken_blacklist sm revoked).
    rewrite verifyToken_expired; [reflexivity|].
    rewrite Z.div_mul by lia. simpl. fold iat. lia.
Qed.

(** X21. An issued token consists of the part that the signature covers,
    a dot and the signature. Read back before it expires and while it is
    not in the revocation set, it yields claims with the id, username
    and role of the user it was issued for. Change one of its characters
    and it is rejected whenever a dot was overwritten or written or the
    character lies behind the covered part; an alteration inside the
    covered part is rejected unless the library computes, under one of
    the algorithms it supports, the original signature for the altered
    part. *)
Theorem X21_issued_token_read_back_and_altered sm env user req now :
  let token := generateToken sm user req now in
  let k := sm_jwtSecret sm in
  let covered := secured_input (token_payload user req now) sign_opts now in
  let signature := Jwt.hmac "HS256" k covered in
  token = covered ++ "." ++ signature /\
  (forall req' v,
     token ∉ tokenBlacklist sm ->
     v / 1000 < now / 1000 + 30 * 60 ->
     exists c, snd (verifyToken sm env token req' v) = Returns c /\
       Jwt.id c = Db.id user /\
       Jwt.username c = Db.username user /\
       Jwt.role c = Db.role user) /\
  (forall i old new req' v,
     String.get i token = Some old -> old <> new ->
     let altered := Str.set_char i new token in
     (old = "."%char \/ new = "."%char \/ (String.length covered <= i)%nat ->
        succeeded (snd (verifyToken sm env altered req' v)) = false) /\
     ((forall alg' front,
         Jwt.supported_alg alg' = true ->
         altered = front ++ "." ++ signature ->
         Jwt.hmac alg' k front <> signature) ->
        succeeded (snd (verifyToken sm env altered req' v)) = false)).
Proof.
  intros token k covered signature.
  split; [reflexivity|]. split.
  - intros req' v Hbl Hv.
    exists (issued_claims user req now). split; [|now repeat split].
    now apply verifyToken_fresh.
  - intros i old new req' v Hget Hne altered.
    assert (Hlib : succeeded (Jwt.verify altered k verify_opts v) = false ->
              succeeded (snd (verifyToken sm env altered req' v)) = false).
    { unfold verifyToken. fold k.
      destruct (Jwt.verify altered k verify_opts v);
        [discriminate|reflexivity]. }
    split; intros Hwhere; apply Hlib.
    + exact (verify_altered_behind (token_payload user req now) k sign_opts
               verify_opts now v i old new Hget Hne Hwhere).
    + exact (verify_altered_within (token_payload user req now) k sign_opts
               verify_opts now v i old new Hget Hne Hwhere).
Qed.

End TokenClaims.

(** The claim C3 as the specification states it, with success one second
    before the expiry "independent of the registry state", fails: a revoked
    token is rejected before it expires. *)
Lemma C3_counterexample :
  ~ (forall (sm : SessionManager.t) (env : process_env) (user : Db.user_row)
       (req : request) (now : Z) (req' : request),
       succeeded (snd (SessionManager.verifyToken sm env
                         (SessionManager.generateToken sm user req now) req'
                         ((now / 1000 + 30 * 60 - 1) * 1000))) = true).
Proof.
  intros Hclaim.
  specialize (Hclaim (SessionManager.revokeToken Scenario.sm Scenario.token)
                Scenario.env Scenario.admin Scenario.browser_request
                Scenario.t0 Scenario.browser_request).
  vm_compute in Hclaim. discriminate.
Qed.

(** C3 at the token of [Scenario], which nobody revoked. *)
Lemma C3_expiry_boundary_witness :
  (Scenario.token ∉ SessionManager.tokenBlacklist Scenario.sm) /\
  succeeded (snd (SessionManager.verifyToken Scenario.sm Scenario.env
                    Scenario.token Scenario.browser_request
                    ((Scenario.t0 / 1000 + 30 * 60 - 1) * 1000))) = true.
Proof.
  assert (Hfresh : Scenario.token ∉ SessionManager.tokenBlacklist Scenario.sm)
    by (apply not_elem_of_empty).
  split; [exact Hfresh|].
  exact (proj1 (proj2 (C3_expiry_boundary Scenario.sm Scenario.env
                         Scenario.admin Scenario.browser_request Scenario.t0
                         Scenario.browser_request)) Hfresh).
Defined.

(** ** The authenticate middleware and the revocation set *)

(** The status and the [code] field of the answer, when the middleware
    answers the request itself. *)
Definition answered (r : SessionManager.middleware_result)
    : option (Z * option string) :=
  match r with
  | SessionManager.Responded res => Some (status res, body_code (body res))
  | SessionManager.Next _ _ => None
  end.

(** The same request arriving from another address. *)
Definition with_ip (req : request) (ip : string) : request := {|
  req_ip := ip;
  authorization := authorization req;
  user_agent := user_agent req;
  body_username := body_username req;
  body_password := body_password req;
  body_captcha := body_captcha req
|}.

(** The claim's words, for comparison with the code: the Authorization
    header presents the bearer token [tok] when it reads [Bearer <tok>],
    with a token that is not empty and has no space in it. *)
Definition presents_bearer_token (req : request) (tok : string) : Prop :=
  tok <> "" /\ Str.occurs " " tok = false /\
  authorization req = Some ("Bearer " ++ tok).

(** [tok] is the second of the fields of [header] that single spaces
    separate: [header] reads [<first> <tok>], possibly with a space and
    more after it. *)
Definition second_field (header tok : string) : Prop :=
  exists first rest,
    Str.occurs " " first = false /\ Str.occurs " " tok = false /\
    (rest = "" \/ exists more, rest = String " " more) /\
    header = first ++ " " ++ tok ++ rest.

Lemma string_app_empty_r (s : string) : s ++ "" = s.
Proof. induction s as [|c s IH]; [reflexivity|]. now rewrite app_cons, IH. Qed.

(** A string is its first field, alone or followed by the separator and
    the rest. *)
Lemma split_head sep s :
  exists first,
    Str.occurs sep first = false /\
    ((s = first /\ Str.split sep s = [first]) \/
     exists tail, s = first ++ String sep tail /\
                  Str.split sep s = first :: Str.split sep tail).
Proof.
  induction s as [|c s (first & Hfree & IH)].
  - exists "". split; [reflexivity|]. now left.
  - simpl. destruct (Ascii.eqb_spec c sep) as [->|Hc].
    + exists "". split; [reflexivity|]. right. exists s. now split.
    + exists (String c first). split.
      { simpl. rewrite Hfree. now apply Ascii.eqb_neq in Hc as ->. }
      destruct IH as [[-> ->]|(tail & -> & ->)].
      * now left.
      * right. exists tail. now split.
Qed.

Lemma split_second sep s tok :
  Str.split sep s !! 1%nat = Some tok <->
  exists first rest,
    Str.occurs sep first = false /\ Str.occurs sep tok = false /\
    (rest = "" \/ exists more, rest = String sep more) /\
    s = first ++ String sep (tok ++ rest).
Proof.
  split.
  - destruct (split_head sep s) as (first & Hfirst & [[-> ->]|(tail & -> & ->)]);
      [discriminate|].
    simpl. destruct (split_head sep tail)
      as (second & Hsecond & [[-> ->]|(more & -> & ->)]); simpl.
    + intros [= <-]. exists first, "". repeat split; auto.
      now rewrite string_app_empty_r.
    + intros [= <-]. exists first, (String sep more). repeat split; eauto.
  - intros (first & rest & Hfirst & Htok & [->|(more & ->)] & ->).
    + rewrite string_app_empty_r, (split_app _ _ _ Hfirst).
      now rewrite (split_free _ _ Htok).
    + rewrite (split_app _ _ _ Hfirst), (split_app _ _ _ Htok). reflexivity.
Qed.

Lemma extract_second_field req header tok :
  authorization req = Some header ->
  second_field header tok -> tok <> "" ->
  SessionManager.extract_token req = Some tok.
Proof.
  intros Hauth (first & rest & Hfirst & Htok & Hrest & ->) Hne.
  unfold SessionManager.extract_token. rewrite Hauth.
  replace (Str.truthy (first ++ " " ++ tok ++ rest)) with true.
  - apply split_second. exists first, rest. repeat split; assumption.
  - symmetry. destruct first; [reflexivity|now rewrite app_cons].
Qed.

Lemma extract_token_second_field req tok :
  SessionManager.extract_token req = Some tok -> Str.truthy tok = true ->
  exists header, authorization req = Some header /\ second_field header tok.
Proof.
  unfold SessionManager.extract_token.
  destruct (authorization req) as [header|]; [|discriminate].
  destruct (Str.truthy header) eqn:Hheader.
  - intros (first & rest & Hfirst & Htok & Hrest & ->)%split_second _.
    exists (first ++ String " " (tok ++ rest)). split; [reflexivity|].
    exists first, rest. repeat split; assumption.
  - intros [= <-] Htruthy. congruence.
Qed.

Section MiddlewareClaims.
Context `{Jwt.Primitives}.
Import SessionManager.

Lemma authenticate_no_token sm env req now :
  no_token (extract_token req) = true ->
  authenticate sm env req now =
    Responded {| status := 401;
                 body := ErrorBody "Access token required" (Some "NO_TOKEN")
                           None |}.
Proof.
  unfold authenticate, no_token.
  destruct (extract_token req) as [tok|]; [|reflexivity].
  now intros ->.
Qed.

Lemma authenticate_with_token sm env req now tok :
  extract_token req = Some tok -> Str.truthy tok = true ->
  authenticate sm env req now =
    match snd (verifyToken sm env tok req now) with
    | Returns user =>
        match Jwt.exp user with
        | Some _ => Next user tok
        | None => invalid_token env "Invalid time value"
        end
    | Throws error => invalid_token env (failure_message error)
    end.
Proof. unfold authenticate. now intros -> ->. Qed.

Lemma authenticate_answers sm env req now st code :
  answered (authenticate sm env req now) = Some (st, code) ->
  (st, code) = (401, Some "NO_TOKEN") \/
  (st, code) = (403, Some "INVALID_TOKEN").
Proof.
  unfold authenticate, invalid_token.
  destruct (extract_token req) as [tok|]; [|intros [= <- <-]; now left].
  destruct (Str.truthy tok); simpl; [|intros [= <- <-]; now left].
  destruct (snd (verifyToken sm env tok req now)) as [user|error].
  - destruct (Jwt.exp user); [discriminate|]. intros [= <- <-]. now right.
  - intros [= <- <-]. now right.
Qed.

(** C5. The middleware answers 401 with code NO_TOKEN exactly when the
    Authorization header has no second field that is not empty: the
    header is missing, or what follows its first space, up to the next
    one, is empty. The first field is not looked at, so a header that
    presents no bearer token but has such a second field (another
    scheme, say) is not answered NO_TOKEN: its second field is verified
    as the token. Whenever a header has such a field, every failure of
    [verifyToken] on it, whatever its cause (any error of the library:
    malformed token, bad signature, wrong audience or issuer, expiry; or
    revocation), is answered 403 with the code INVALID_TOKEN, and so are
    verified claims without [exp]; a header [Bearer <token>] whose token
    [verifyToken] accepts with an [exp] passes. These are the only two
    answers the middleware gives. *)
Theorem C5_error_taxonomy sm env req now :
  (answered (authenticate sm env req now) = Some (401, Some "NO_TOKEN") <->
     ~ exists header tok,
         authorization req = Some header /\
         second_field header tok /\ tok <> "") /\
  (forall header tok,
     authorization req = Some header ->
     second_field header tok -> tok <> "" ->
     (forall cause,
        snd (verifyToken sm env tok req now) = Throws cause ->
        answered (authenticate sm env req now)
          = Some (403, Some "INVALID_TOKEN")) /\
     (forall user,
        snd (verifyToken sm env tok req now) = Returns user ->
        authenticate sm env req now =
          match Jwt.exp user with
          | Some _ => Next user tok
          | None => invalid_token env "Invalid time value"
          end)) /\
  (forall tok,
     presents_bearer_token req tok ->
     answered (authenticate sm env req now) <> Some (401, Some "NO_TOKEN")) /\
  (forall st code,
     answered (authenticate sm env req now) = Some (st, code) ->
     (st, code) = (401, Some "NO_TOKEN") \/
     (st, code) = (403, Some "INVALID_TOKEN")).
Proof.
  assert (Hfield : forall header tok,
            authorization req = Some header ->
            second_field header tok -> tok <> "" ->
            extract_token req = Some tok /\ Str.truthy tok = true).
  { intros header tok Hauth Hsecond Hne.
    split; [now apply (extract_second_field _ header)|].
    destruct tok; [contradiction|reflexivity]. }
  split; [|split; [|split]].
  - split.
    + intros Hans (header & tok & Hauth & Hsecond & Hne).
      destruct (Hfield _ _ Hauth Hsecond Hne) as [Htok Htruthy].
      rewrite (authenticate_with_token _ _ _ _ tok Htok Htruthy) in Hans.
      unfold invalid_token in Hans.
      destruct (snd (verifyToken sm env tok req now)) as [user|error];
        [destruct (Jwt.exp user)|]; discriminate.
    + intros Hnone.
      destruct (no_token (extract_token req)) eqn:Hno.
      * now rewrite (authenticate_no_token _ _ _ _ Hno).
      * exfalso. apply Hnone. unfold no_token in Hno.
        destruct (extract_token req) as [tok|] eqn:Htok; [|discriminate].
        apply negb_false_iff in Hno.
        destruct (extract_token_second_field _ _ Htok Hno)
          as (header & Hauth & Hsecond).
        exists header, tok. repeat split; try assumption.
        intros ->. discriminate.
  - intros header tok Hauth Hsecond Hne.
    destruct (Hfield _ _ Hauth Hsecond Hne) as [Htok Htruthy].
    rewrite (authenticate_with_token _ _ _ _ tok Htok Htruthy).
    split.
    + intros cause ->. reflexivity.
    + intros user ->. reflexivity.
  - intros tok (Hne & Hfree & Hauth) Hans.
    assert (Hsecond : second_field ("Bearer " ++ tok) tok).
    { exists "Bearer", "". repeat split; auto.
      now rewrite string_app_empty_r. }
    destruct (Hfield _ _ Hauth Hsecond Hne) as [Htok Htruthy].
    rewrite (authenticate_with_token _ _ _ _ tok Htok Htruthy) in Hans.
    unfold invalid_token in Hans.
    destruct (snd (verifyToken sm env tok req now)) as [user|error];
      [destruct (Jwt.exp user)|]; discriminate.
  - apply authenticate_answers.
Qed.

(** C7. The value [verifyToken] returns or the error it throws is the
    same for any two requests, so in particular for two requests that
    differ only in the client IP, and the middleware admits or answers
    both alike. The request is read only to write the warning line, and
    that line appears only with a successful verification. *)
Theorem C7_ip_never_rejects sm env token req1 req2 now :
  snd (verifyToken sm env token req1 now) =
    snd (verifyToken sm env token req2 now) /\
  (forall ip',
     authenticate sm env (with_ip req1 ip') now = authenticate sm env req1 now) /\
  (fst (verifyToken sm env token req1 now) <> [] ->
     succeeded (snd (verifyToken sm env token req1 now)) = true).
Proof.
  assert (Hsame : forall tok r r',
            snd (verifyToken sm env tok r now) = snd (verifyToken sm env tok r' now)).
  { intros tok r r'. unfold verifyToken.
    destruct (Jwt.verify tok _ _ _) as [decoded|e]; [|reflexivity].
    now case_bool_decide. }
  split; [apply Hsame|]. split.
  - intros ip'. unfold authenticate, extract_token. simpl authorization.
    destruct (authorization req1) as [authHeader|]; [|reflexivity].
    destruct (if Str.truthy authHeader
              then Str.split " " authHeader !! 1%nat
              else Some authHeader) as [tok|]; [|reflexivity].
    destruct (Str.truthy tok); simpl; [|reflexivity].
    now rewrite (Hsame tok (with_ip req1 ip') req1).
  - unfold verifyToken.
    destruct (Jwt.verify token _ _ _) as [decoded|e]; simpl; [|now intros].
    now case_bool_decide.
Qed.

(** C8. Revoking a token that is already in the revocation set leaves
    the session manager as it was. [verifyToken] therefore answers as
    before for every token, and for the revoked token it fails: with the
    revocation error when the library accepts the token. *)
Theorem C8_revoke_idempotent sm env token req now :
  token ∈ tokenBlacklist sm ->
  revokeToken sm token = sm /\
  (forall t' req' v,
     verifyToken (revokeToken sm token) env t' req' v =
       verifyToken sm env t' req' v) /\
  succeeded (snd (verifyToken (revokeToken sm token) env token req now))
    = false /\
  (succeeded (Jwt.verify token (sm_jwtSecret sm) verify_opts now) = true ->
     verifyToken (revokeToken sm token) env token req now
       = ([], Throws Revoked)).
Proof.
  intros Hin. pose proof (revokeToken_present sm token Hin) as Hsame.
  rewrite Hsame. repeat split.
  - now apply verifyToken_revoked.
  - unfold verifyToken.
    destruct (Jwt.verify token _ _ _); [|discriminate].
    intros _. now rewrite bool_decide_eq_true_2.
Qed.

End MiddlewareClaims.

(** The scheme word of the header is not looked at: the second field is
    the token whatever precedes it. *)
Example authenticate_ignores_scheme :
  SessionManager.extract_token
    (Scenario.request_from "203.0.113.7" (Some "Basic dXNlcjpwYXNz"))
    = Some "dXNlcjpwYXNz" /\
  answered (SessionManager.authenticate Scenario.sm Scenario.env
              (Scenario.request_from "203.0.113.7" (Some "Basic dXNlcjpwYXNz"))
              Scenario.t0)
    = Some (403, Some "INVALID_TOKEN").
Proof. split; vm_compute; reflexivity. Qed.

(** C5 as worded, "401 NO_TOKEN whenever no bearer token is present in
    the Authorization header", fails whatever the library does: the
    header [Basic dXNlcjpwYXNz] presents no bearer token, and the request
    is answered 403 INVALID_TOKEN, since [dXNlcjpwYXNz] is verified as a
    token and has no three segments. *)
Lemma C5_counterexample :
  ~ exists P : Jwt.Primitives,
      forall sm env req now,
        (forall tok, ~ presents_bearer_token req tok) ->
        answered (@SessionManager.authenticate P sm env req now)
          = Some (401, Some "NO_TOKEN").
Proof.
  intros (P & Hclaim).
  specialize (Hclaim Scenario.sm Scenario.env
                (Scenario.request_from "203.0.113.7" (Some "Basic dXNlcjpwYXNz"))
                Scenario.t0).
  assert (Hnone : forall tok,
            ~ presents_bearer_token
                (Scenario.request_from "203.0.113.7" (Some "Basic dXNlcjpwYXNz"))
                tok).
  { intros tok (_ & _ & Hauth). vm_compute in Hauth. discriminate. }
  specialize (Hclaim Hnone). vm_compute in Hclaim. discriminate.
Qed.

(** C5 at four requests: no header, a header with the scheme only, a
    header of another scheme, and an expired token. *)
Lemma C5_error_taxonomy_witness :
  answered (SessionManager.authenticate Scenario.sm Scenario.env
              Scenario.browser_request Scenario.t0)
    = Some (401, Some "NO_TOKEN") /\
  answered (SessionManager.authenticate Scenario.sm Scenario.env
              (Scenario.request_from "203.0.113.7" (Some "Bearer"))
              Scenario.t0)
    = Some (401, Some "NO_TOKEN") /\
  answered (SessionManager.authenticate Scenario.sm Scenario.env
              (Scenario.request_from "203.0.113.7" (Some "Basic dXNlcjpwYXNz"))
              Scenario.t0)
    = Some (403, Some "INVALID_TOKEN") /\
  answered (SessionManager.authenticate Scenario.sm Scenario.env
              (Scenario.bearer Scenario.token)
              (Scenario.t0 + 31 * 60 * 1000))
    = Some (403, Some "INVALID_TOKEN").
Proof.
  split; [|split; [|split]].
  - apply (proj1 (C5_error_taxonomy Scenario.sm Scenario.env
                    Scenario.browser_request Scenario.t0)).
    intros (header & tok & Hauth & _). discriminate Hauth.
  - apply (proj1 (C5_error_taxonomy Scenario.sm Scenario.env
                    (Scenario.request_from "203.0.113.7" (Some "Bearer"))
                    Scenario.t0)).
    intros (header & tok & [= <-] & (first & rest & _ & _ & _ & Hshape) & _).
    apply (f_equal (Str.count " ")) in Hshape.
    rewrite !count_app in Hshape. simpl in Hshape. lia.
  - destruct (proj1 (proj2 (C5_error_taxonomy Scenario.sm Scenario.env
                    (Scenario.request_from "203.0.113.7"
                       (Some "Basic dXNlcjpwYXNz"))
                    Scenario.t0))
                "Basic dXNlcjpwYXNz" "dXNlcjpwYXNz" eq_refl) as [Hfails _].
    + exists "Basic", "". repeat split; auto.
    + discriminate.
    + apply (Hfails (SessionManager.LibraryError Jwt.JwtMalformed)).
      vm_compute. reflexivity.
  - destruct (proj1 (proj2 (C5_error_taxonomy Scenario.sm Scenario.env
                    (Scenario.bearer Scenario.token)
                    (Scenario.t0 + 31 * 60 * 1000)))
                ("Bearer " ++ Scenario.token) Scenario.token eq_refl)
      as [Hfails _].
    + exists "Bearer", "". repeat split; auto.
    + discriminate.
    + apply (Hfails (SessionManager.LibraryError Jwt.TokenExpired)).
      vm_compute. reflexivity.
Defined.

(** C7 at a request from another address: the warning is written and
    the token is accepted. *)
Lemma C7_ip_never_rejects_witness :
  fst (SessionManager.verifyToken Scenario.sm Scenario.env Scenario.token
         (Scenario.request_from "198.51.100.23" None) (Scenario.t0 + 1000))
    <> [] /\
  succeeded (snd (SessionManager.verifyToken Scenario.sm Scenario.env
                    Scenario.token
                    (Scenario.request_from "198.51.100.23" None)
                    (Scenario.t0 + 1000))) = true.
Proof.
  assert (Hlog : fst (SessionManager.verifyToken Scenario.sm Scenario.env
                        Scenario.token
                        (Scenario.request_from "198.51.100.23" None)
                        (Scenario.t0 + 1000)) <> [])
    by (vm_compute; discriminate).
  split; [exact Hlog|].
  exact (proj2 (proj2 (C7_ip_never_rejects Scenario.sm Scenario.env
                         Scenario.token
                         (Scenario.request_from "198.51.100.23" None)
                         Scenario.browser_request (Scenario.t0 + 1000)))
           Hlog).
Defined.

(** C8 at the token of [Scenario], revoked twice. *)
Lemma C8_revoke_idempotent_witness :
  let revoked := SessionManager.revokeToken Scenario.sm Scenario.token in
  SessionManager.revokeToken revoked Scenario.token = revoked /\
  SessionManager.verifyToken
    (SessionManager.revokeToken revoked Scenario.token) Scenario.env
    Scenario.token Scenario.browser_request (Scenario.t0 + 1000)
    = ([], Throws SessionManager.Revoked).
Proof.
  intros revoked.
  destruct (C8_revoke_idempotent revoked Scenario.env Scenario.token
              Scenario.browser_request (Scenario.t0 + 1000))
    as (Hsame & _ & _ & Hrev).
  - apply revokeToken_elem. now left.
  - split; [exact Hsame|]. apply Hrev. vm_compute. reflexivity.
Defined.

(** ** The revocation set under load *)

Section RevocationLoad.
Context `{Jwt.Primitives}.
Variable env : process_env.
Import SessionManager.

Lemma extract_bearer ip tok :
  Str.occurs " " tok = false ->
  extract_token (Scenario.request_from ip (Some ("Bearer " ++ tok))) = Some tok.
Proof.
  intros Hfree. unfold extract_token, Scenario.request_from.
  cbn [authorization].
  change ("Bearer " ++ tok) with ("Bearer" ++ String " " tok).
  rewrite truthy_app_cons, split_app by reflexivity.
  now rewrite split_free.
Qed.

Lemma logout_accepted sm req now tok c :
  extract_token req = Some tok -> Str.truthy tok = true ->
  snd (verifyToken sm env tok req now) = Returns c ->
  Jwt.exp c <> None ->
  fst (Server.logout env sm req now) = revokeToken sm tok.
Proof.
  intros Htok Htruthy Hv Hexp. unfold Server.logout.
  rewrite (authenticate_with_token _ _ _ _ tok Htok Htruthy), Hv.
  destruct (Jwt.exp c); [|contradiction].
  simpl. now rewrite Htruthy.
Qed.

(** No answer of the logout endpoint removes a token from the set. *)
Lemma logout_grows sm req now :
  tokenBlacklist sm ⊆ tokenBlacklist (fst (Server.logout env sm req now)).
Proof.
  unfold Server.logout.
  destruct (authenticate sm env req now) as [r|user tok]; simpl; [done|].
  destruct (Str.truthy tok); simpl; [apply union_subseteq_r|done].
Qed.

Lemma logout_secret sm req now :
  sm_jwtSecret (fst (Server.logout env sm req now)) = sm_jwtSecret sm.
Proof.
  unfold Server.logout.
  destruct (authenticate sm env req now) as [r|user tok]; simpl; [done|].
  now destruct (Str.truthy tok).
Qed.

(** Logging out with tokens that are distinct, not yet revoked and
    accepted by the library puts all of them into the set, and nothing
    is ever taken out. *)
Lemma logout_run_revokes (mk : string -> request) now toks : forall sm,
  NoDup toks ->
  (forall tok, tok ∈ toks ->
     extract_token (mk tok) = Some tok /\ Str.truthy tok = true /\
     (exists c, Jwt.verify tok (sm_jwtSecret sm) verify_opts now = Returns c /\
                Jwt.exp c <> None) /\
     tok ∉ tokenBlacklist sm) ->
  let sm' := Server.logout_run env sm (map (fun tok => (mk tok, now)) toks) in
  tokenBlacklist sm' = list_to_set toks ∪ tokenBlacklist sm /\
  sm_jwtSecret sm' = sm_jwtSecret sm.
Proof.
  induction toks as [|tok toks IH]; intros sm Hnd Hok; simpl.
  - split; [|reflexivity]. now rewrite (left_id_L ∅ (∪)).
  - apply NoDup_cons in Hnd as [Hfresh Hnd].
    destruct (Hok tok) as (Hx & Ht & Hlib & Hbl);
      [apply elem_of_cons; now left|].
    assert (Hlogout : fst (Server.logout env sm (mk tok) now) = revokeToken sm tok).
    { destruct Hlib as (c & Hv & Hexp).
      apply (logout_accepted sm (mk tok) now tok c Hx Ht); [|exact Hexp].
      unfold verifyToken. rewrite Hv.
      now rewrite bool_decide_eq_false_2. }
    unfold Server.logout_run in *. simpl. rewrite Hlogout.
    destruct (IH (revokeToken sm tok) Hnd) as [Hset Hsec].
    + intros t' Hin. destruct (Hok t') as (Hx' & Ht' & Hlib' & Hbl');
        [apply elem_of_cons; now right|].
      repeat split; auto.
      rewrite revokeToken_elem. intros [->|]; [|done]. done.
    + split; [|exact Hsec]. rewrite Hset. simpl.
      rewrite (assoc_L (∪)). f_equal. apply (comm_L (∪)).
Qed.

Lemma cleanupBlacklist_over sm :
  (1000 < size (tokenBlacklist sm))%nat ->
  tokenBlacklist (cleanupBlacklist sm) = ∅ /\
  sm_jwtSecret (cleanupBlacklist sm) = sm_jwtSecret sm.
Proof.
  intros Hsize. unfold cleanupBlacklist.
  destruct (Z.ltb_spec 1000 (Z.of_nat (size (tokenBlacklist sm)))); [|lia].
  now split.
Qed.

Lemma cleanupBlacklist_within sm :
  (size (tokenBlacklist sm) <= 1000)%nat -> cleanupBlacklist sm = sm.
Proof.
  intros Hsize. unfold cleanupBlacklist.
  destruct (Z.ltb_spec 1000 (Z.of_nat (size (tokenBlacklist sm)))); [lia|].
  reflexivity.
Qed.

(** Tokens issued in different seconds are different strings. *)
Lemma generateToken_inj_second sm user req now now' :
  generateToken sm user req now = generateToken sm user req now' ->
  now / 1000 = now' / 1000.
Proof.
  intros E. apply (f_equal (Str.split ".")) in E.
  unfold generateToken in E. rewrite !split_sign in E.
  injection E as E _.
  apply (f_equal Jwt.decode_payload) in E.
  rewrite !Jwt.decode_encode_payload in E.
  apply (f_equal (fmap Jwt.iat)) in E.
  change (Some (Jwt.iat (issued_claims user req now)) =
          Some (Jwt.iat (issued_claims user req now'))) in E.
  rewrite !issued_iat in E. congruence.
Qed.

End RevocationLoad.

Section OverflowScenario.
Import SessionManager.

Lemma plain_token_free c sm user req now :
  Plain.outside c -> Ascii.eqb "." c = false -> Ascii.eqb "-" c = false ->
  Ascii.eqb "+" c = false ->
  Str.occurs c (generateToken sm user req now) = false.
Proof.
  intros Hout Hdot Hhyphen Hplus. unfold generateToken.
  rewrite sign_shape.
  rewrite Plain.occurs_app, Plain.occurs_cons, Plain.occurs_app,
    Plain.occurs_cons, Hdot.
  change (Jwt.hmac ?a ?k ?m) with (Plain.hmac a k m).
  change (Jwt.encode_header ?h) with (Plain.encode_header h).
  change (Jwt.encode_payload ?p) with (Plain.encode_payload p).
  unfold Plain.hmac, Plain.encode_header, Plain.encode_payload, Plain.enc_Z.
  rewrite !Plain.join_free; try reflexivity; try assumption;
    repeat constructor;
    try (apply Plain.enc_free; assumption);
    apply Plain.enc_opt_free; try assumption; intros;
    apply Plain.enc_free; assumption.
Qed.

Lemma outside_space : Plain.outside " ".
Proof. intros [] [] [] []; reflexivity. Qed.

Lemma issued_no_space i : Str.occurs " " (Scenario.issued i) = false.
Proof.
  unfold Scenario.issued.
  apply plain_token_free; [apply outside_space|reflexivity..].
Qed.

Lemma issued_truthy i : Str.truthy (Scenario.issued i) = true.
Proof.
  unfold Scenario.issued, generateToken. rewrite sign_shape.
  apply truthy_app_cons.
Qed.

Lemma issued_second i :
  (Scenario.t0 + Z.of_nat i * 1000) / 1000 = Scenario.t0 / 1000 + Z.of_nat i.
Proof. apply Z.div_add. lia. Qed.

Lemma issued_inj : Inj (=) (=) Scenario.issued.
Proof.
  intros i j E. apply generateToken_inj_second in E.
  rewrite !issued_second in E. lia.
Qed.

Lemma issued_accepted i v :
  v / 1000 < Scenario.t0 / 1000 + Z.of_nat i + 30 * 60 ->
  Jwt.verify (Scenario.issued i) (sm_jwtSecret Scenario.sm) verify_opts v
    = Returns (issued_claims Scenario.admin Scenario.browser_request
                 (Scenario.t0 + Z.of_nat i * 1000)).
Proof.
  intros Hv. apply library_accepts. rewrite issued_second. lia.
Qed.

(** After [n] logouts with distinct tokens the set holds those [n]
    tokens, however large [n] is. *)
Lemma after_logouts_blacklist n :
  (n < 1800)%nat ->
  tokenBlacklist (Scenario.after_logouts n)
    = list_to_set (map Scenario.issued (seq 0 n)) /\
  sm_jwtSecret (Scenario.after_logouts n) = sm_jwtSecret Scenario.sm /\
  size (tokenBlacklist (Scenario.after_logouts n)) = n.
Proof.
  intros Hn.
  assert (Hnd : NoDup (map Scenario.issued (seq 0 n))).
  { apply (NoDup_fmap_2_strong Scenario.issued); [|apply NoDup_seq].
    intros i j _ _ E. now apply issued_inj. }
  destruct (logout_run_revokes Scenario.env Scenario.bearer
              (Scenario.t0 + Z.of_nat n * 1000)
              (map Scenario.issued (seq 0 n)) Scenario.sm Hnd)
    as [Hset Hsec].
  - intros tok (i & -> & Hi)%list_elem_of_fmap.
    apply elem_of_seq in Hi.
    split; [apply extract_bearer, issued_no_space|].
    split; [apply issued_truthy|].
    split; [|apply not_elem_of_empty].
    eexists. split; [|now rewrite issued_exp].
    apply (issued_accepted i). rewrite issued_second. lia.
  - fold (Scenario.after_logouts n) in Hset, Hsec.
    change (tokenBlacklist Scenario.sm) with (∅ : gset string) in Hset.
    rewrite (right_id_L ∅ (∪)) in Hset.
    split; [exact Hset|]. split; [exact Hsec|].
    rewrite Hset, size_list_to_set by exact Hnd.
    now rewrite length_map, length_seq.
Qed.

(** With more than a thousand tokens revoked through the logout
    endpoint, the first of them is still refused while it has not
    expired; it would be accepted again only after a call of
    [cleanupBlacklist], which no endpoint makes. *)
Lemma overflow_general n v :
  (1000 < n < 1800)%nat ->
  v / 1000 < Scenario.t0 / 1000 + 30 * 60 ->
  let sm' := Scenario.after_logouts n in
  let tok := Scenario.issued 0 in
  size (tokenBlacklist sm') = n /\
  verifyToken sm' Scenario.env tok (Scenario.bearer tok) v
    = ([], Throws Revoked) /\
  status (Server.verify Scenario.env sm' (Scenario.bearer tok) v) = 403 /\
  status (Server.verify Scenario.env (cleanupBlacklist sm')
            (Scenario.bearer tok) v) = 200.
Proof.
  intros Hn Hv sm' tok.
  destruct (after_logouts_blacklist n) as (Hset & Hsec & Hsize); [lia|].
  fold sm' in Hset, Hsec, Hsize.
  assert (Hin : tok ∈ tokenBlacklist sm').
  { rewrite Hset. apply elem_of_list_to_set, list_elem_of_fmap.
    exists 0%nat. split; [reflexivity|]. apply elem_of_seq. lia. }
  assert (Hlib : Jwt.verify tok (sm_jwtSecret Scenario.sm) verify_opts v
                 = Returns (issued_claims Scenario.admin
                              Scenario.browser_request
                              (Scenario.t0 + Z.of_nat 0 * 1000))).
  { apply issued_accepted. lia. }
  assert (Hrev : verifyToken sm' Scenario.env tok (Scenario.bearer tok) v
                 = ([], Throws Revoked)).
  { unfold verifyToken. rewrite Hsec, Hlib.
    now rewrite bool_decide_eq_true_2. }
  assert (Hx : extract_token (Scenario.bearer tok) = Some tok)
    by apply extract_bearer, issued_no_space.
  pose proof (issued_truthy 0) as Ht. fold tok in Ht.
  split; [exact Hsize|]. split; [exact Hrev|]. split.
  - unfold Server.verify.
    rewrite (authenticate_with_token _ _ _ _ tok Hx Ht), Hrev.
    reflexivity.
  - destruct (cleanupBlacklist_over sm') as [Hempty Hsec']; [lia|].
    unfold Server.verify.
    rewrite (authenticate_with_token _ _ _ _ tok Hx Ht).
    unfold verifyToken. rewrite Hsec', Hsec, Hlib, Hempty.
    rewrite bool_decide_eq_false_2 by apply not_elem_of_empty.
    cbn [snd]. rewrite issued_exp. reflexivity.
Qed.

End OverflowScenario.

(** C1. The code at the input of the claim: 1001 logins, one per second,
    each token then used for one logout. The revocation set holds 1001
    entries and is not emptied; the token that was revoked first is still
    refused (403) well inside its thirty minutes. Had [cleanupBlacklist]
    run, the same request would have been accepted. *)
Theorem C1_overflow_keeps_revocations :
  let sm' := Scenario.after_logouts 1001 in
  let tok := Scenario.issued 0 in
  let check := Scenario.t0 + 1100 * 1000 in
  size (SessionManager.tokenBlacklist sm') = 1001%nat /\
  SessionManager.verifyToken sm' Scenario.env tok (Scenario.bearer tok) check
    = ([], Throws SessionManager.Revoked) /\
  status (Server.verify Scenario.env sm' (Scenario.bearer tok) check) = 403 /\
  status (Server.verify Scenario.env (SessionManager.cleanupBlacklist sm')
            (Scenario.bearer tok) check) = 200.
Proof.
  apply (overflow_general 1001 (Scenario.t0 + 1100 * 1000)); [lia|].
  vm_compute. reflexivity.
Qed.

(** ** The users table under the two updates *)

Section DbFacts.
Import Db.

Lemma select_map (f : user_row -> user_row) name t user :
  (forall r, username (f r) = username r) ->
  select_by_username name t = Some user ->
  select_by_username name (List.map f t) = Some (f user).
Proof.
  intros Hf. unfold select_by_username.
  induction t as [|r t IH]; simpl; [discriminate|].
  rewrite Hf. destruct (String.eqb (username r) name); [congruence|exact IH].
Qed.

Lemma select_update_failed attempts until name t user :
  select_by_username name t = Some user ->
  select_by_username name (update_failed attempts until (id user) t)
    = Some (set_failed attempts until user).
Proof.
  intros Hsel. unfold update_failed.
  rewrite (select_map _ name t user); [|now intros r; destruct (_ =? _)%Z|exact Hsel].
  now rewrite Z.eqb_refl.
Qed.

Lemma select_update_success now name t user :
  select_by_username name t = Some user ->
  select_by_username name (update_success now (id user) t)
    = Some (set_success now user).
Proof.
  intros Hsel. unfold update_success.
  rewrite (select_map _ name t user); [|now intros r; destruct (_ =? _)%Z|exact Hsel].
  now rewrite Z.eqb_refl.
Qed.

End DbFacts.

(** ** The limiters in front of the authentication routes *)

Section LimiterFacts.
Import Server.

Lemma hits_insert (s : RateLimit.store) key n :
  RateLimit.hits (<[key := n]> s) key = n.
Proof. unfold RateLimit.hits. now rewrite lookup_insert_eq. Qed.

Lemma limited_status l ip r : snd (limited l ip) = Some r -> status r = 429.
Proof.
  unfold limited, RateLimit.rateLimit. simpl.
  destruct (100 <? S (RateLimit.hits (api_hits l) ip))%nat; simpl.
  - now intros [= <-].
  - destruct (5 <? S (RateLimit.hits (auth_hits l) ip))%nat; simpl;
      [now intros [= <-]|discriminate].
Qed.

(** A request that the limiters let through has been counted by
    [authLimiter], and was at most the fifth of its address. *)
Lemma limited_through l ip :
  snd (limited l ip) = None ->
  RateLimit.hits (auth_hits (fst (limited l ip))) ip
    = S (RateLimit.hits (auth_hits l) ip) /\
  (RateLimit.hits (auth_hits l) ip < 5)%nat.
Proof.
  unfold limited, RateLimit.rateLimit. simpl.
  destruct (100 <? S (RateLimit.hits (api_hits l) ip))%nat; simpl;
    [discriminate|].
  destruct (Nat.ltb_spec 5 (S (RateLimit.hits (auth_hits l) ip))); simpl;
    [discriminate|].
  intros _. rewrite hits_insert. split; [reflexivity|lia].
Qed.

(** With five requests of an address counted, the next one is stopped. *)
Lemma limited_full l ip :
  (5 <= RateLimit.hits (auth_hits l) ip)%nat ->
  exists r, snd (limited l ip) = Some r /\ status r = 429.
Proof.
  intros Hfull. unfold limited, RateLimit.rateLimit. simpl.
  destruct (100 <? S (RateLimit.hits (api_hits l) ip))%nat; simpl;
    [eexists; split; reflexivity|].
  destruct (Nat.ltb_spec 5 (S (RateLimit.hits (auth_hits l) ip))); simpl;
    [eexists; split; reflexivity|lia].
Qed.

Lemma limits_after_app l es1 es2 :
  limits_after l (es1 ++ es2) = limits_after (limits_after l es1) es2.
Proof. unfold limits_after. apply foldl_app. Qed.

Lemma verdicts_app es1 : forall l es2,
  verdicts l (es1 ++ es2)
    = (verdicts l es1 ++ verdicts (limits_after l es1) es2)%list.
Proof.
  induction es1 as [|a es1 IH]; intros l es2; [reflexivity|].
  simpl. rewrite IH. now rewrite <- app_assoc.
Qed.

Lemma let_through_app l es1 es2 :
  let_through l (es1 ++ es2)
    = let_through l es1 && let_through (limits_after l es1) es2.
Proof. unfold let_through. now rewrite verdicts_app, forallb_app. Qed.

Lemma let_through_cons l req c reqs :
  let_through l (attempts ((req, c) :: reqs)) = true <->
  snd (limited l (req_ip req)) = None /\
  let_through (fst (limited l (req_ip req))) (attempts reqs) = true.
Proof.
  unfold let_through. simpl.
  destruct (snd (limited l (req_ip req))); simpl; split;
    try discriminate; try tauto.
  intros [? _]. discriminate.
Qed.

(** Attempts of one address that are all let through are all counted. *)
Lemma let_through_counted ip reqs : forall l,
  Forall (fun a => req_ip (fst a) = ip) reqs ->
  let_through l (attempts reqs) = true ->
  RateLimit.hits (auth_hits (limits_after l (attempts reqs))) ip
    = (RateLimit.hits (auth_hits l) ip + length reqs)%nat.
Proof.
  induction reqs as [|[req c] reqs IH]; intros l Hip Hthrough.
  - simpl. lia.
  - apply Forall_cons in Hip as [Hreq Hip]. simpl in Hreq.
    apply let_through_cons in Hthrough as [Hfirst Hrest].
    change (limits_after l (attempts ((req, c) :: reqs)))
      with (limits_after (fst (limited l (req_ip req))) (attempts reqs)).
    rewrite (IH _ Hip Hrest). rewrite Hreq in *.
    destruct (limited_through l ip Hfirst) as [-> _]. simpl. lia.
Qed.

End LimiterFacts.

(** ** The login endpoint and the lockout counters *)

Section LoginClaims.
Context `{Jwt.Primitives}.
Variable compare : string -> string -> bool.
Variable secret : string.
Variable env : process_env.
Variable sm : SessionManager.t.

Let cfg := server_config secret.
Let login := Server.login compare cfg env sm.
Let handled := Server.handled compare cfg env sm.
Let login_run := Server.login_run compare cfg env sm.

(** The request gets as far as reading the user's row: the input is
    valid, the captcha is accepted and the SELECT does not throw. *)
Definition admitted (req : request) (c : Server.circumstances) : Prop :=
  Server.validation_errors req = [] /\
  Server.success
    (Server.verifyCaptcha env (body_captcha req) (Server.captcha_remote c))
    = true /\
  Server.select_throws c = false.

(** A login attempt for the account [name] with a wrong password, whose
    UPDATE goes through. *)
Definition failing_attempt (name hash : string)
    (a : request * Server.circumstances) : Prop :=
  body_username (fst a) = name /\
  admitted (fst a) (snd a) /\
  Server.update_throws (snd a) = false /\
  compare (body_password (fst a)) hash = false.

Definition locked_response : response := {|
  status := 423;
  body := ErrorBody
            "Account temporarily locked due to too many failed attempts"
            None None
|}.

Definition invalid_credentials : response := {|
  status := 401; body := ErrorBody "Invalid credentials" None None
|}.

Lemma login_admitted db req c :
  admitted req c ->
  login db req c =
    match Db.select_by_username (body_username req) db with
    | None =>
        {| Server.res := invalid_credentials; Server.users_after := db;
           Server.comparisons := 0 |}
    | Some user =>
        if Server.isLocked user (Server.at_check c) then
          {| Server.res := locked_response; Server.users_after := db;
             Server.comparisons := 0 |}
        else if negb (compare (body_password req) (Db.password_hash user))
        then
          {| Server.res := invalid_credentials;
             Server.users_after :=
               if Server.update_throws c then db
               else Db.update_failed (Db.login_attempts user + 1)
                      (if (5 <=? Db.login_attempts user + 1)%Z
                       then Some (Server.after_compare c + 15 * 60 * 1000)
                       else None)
                      (Db.id user) db;
             Server.comparisons := 1 |}
        else
          {| Server.res :=
               {| status := 200;
                  body := LoginBody "Login successful"
                            (SessionManager.generateToken sm user req
                               (Server.after_compare c))
                            (Db.id user) (Db.username user) (Db.role user) |};
             Server.users_after :=
               if Server.update_throws c then db
               else Db.update_success (Server.after_compare c) (Db.id user) db;
             Server.comparisons := 1 |}
    end.
Proof.
  intros (Hval & Hcap & Hsel). unfold login, Server.login, Server.login_with.
  rewrite Hval, Hcap, Hsel. simpl negb. cbv iota.
  destruct (Db.select_by_username _ _) as [user|]; [|reflexivity].
  destruct (Server.isLocked _ _); [reflexivity|].
  destruct (compare _ _); reflexivity.
Qed.

(** A request that is not admitted is answered 400 or 500, makes no
    comparison and leaves the table alone. *)
Lemma login_not_admitted db req c :
  ~ admitted req c ->
  (status (Server.res (login db req c)) = 400 \/
   status (Server.res (login db req c)) = 500) /\
  Server.comparisons (login db req c) = 0%nat /\
  Server.users_after (login db req c) = db.
Proof.
  intros Hnot. unfold login, Server.login, Server.login_with.
  destruct (Server.validation_errors req) eqn:Hval; [|simpl; auto].
  destruct (Server.success _) eqn:Hcap; simpl; [|auto].
  destruct (Server.select_throws c) eqn:Hsel; simpl; [auto|].
  exfalso. apply Hnot. now repeat split.
Qed.

Lemma login_locked db req c user :
  admitted req c ->
  Db.select_by_username (body_username req) db = Some user ->
  Server.isLocked user (Server.at_check c) = true ->
  login db req c =
    {| Server.res := locked_response; Server.users_after := db;
       Server.comparisons := 0 |}.
Proof.
  intros Hadm Hsel Hlock. rewrite (login_admitted _ _ _ Hadm), Hsel.
  now rewrite Hlock.
Qed.

Lemma login_wrong_password db a name user :
  failing_attempt name (Db.password_hash user) a ->
  Db.select_by_username name db = Some user ->
  Server.isLocked user (Server.at_check (snd a)) = false ->
  let attempts := Db.login_attempts user + 1 in
  let until :=
    if (5 <=? attempts)%Z
    then Some (Server.after_compare (snd a) + 15 * 60 * 1000) else None in
  login db (fst a) (snd a) =
    {| Server.res := invalid_credentials;
       Server.users_after := Db.update_failed attempts until (Db.id user) db;
       Server.comparisons := 1 |} /\
  Db.select_by_username name
    (Db.update_failed attempts until (Db.id user) db)
    = Some (Db.set_failed attempts until user).
Proof.
  intros (Hname & Hadm & Hupd & Hcmp) Hsel Hlock attempts until.
  split; [|now apply select_update_failed].
  rewrite (login_admitted _ _ _ Hadm), Hname, Hsel, Hlock, Hcmp, Hupd.
  reflexivity.
Qed.

Lemma handled_app db l1 l2 :
  handled db (l1 ++ l2) =
    let '(rs1, db1, n1) := handled db l1 in
    let '(rs2, db2, n2) := handled db1 l2 in
    ((rs1 ++ rs2)%list, db2, (n1 + n2)%nat).
Proof.
  revert db. induction l1 as [|[req c] l1 IH]; intros db; simpl.
  - destruct (handled db l2) as [[rs2 db2] n2]. reflexivity.
  - unfold handled in *. simpl. rewrite IH.
    destruct (Server.handled _ _ _ _ _ l1) as [[rs1 db1] n1].
    destruct (Server.handled _ _ _ _ _ l2) as [[rs2 db2] n2].
    simpl. f_equal. lia.
Qed.

(** While the counter stays below five, failed attempts are answered
    401, each after one comparison, and leave the account unlocked. *)
Lemma failed_run_below name attempts : forall db user,
  Db.select_by_username name db = Some user ->
  Db.locked_until user = None ->
  Db.login_attempts user + Z.of_nat (length attempts) < 5 ->
  Forall (failing_attempt name (Db.password_hash user)) attempts ->
  exists responses db' user',
    handled db attempts = (responses, db', length attempts) /\
    Forall (fun r => r = invalid_credentials) responses /\
    Db.select_by_username name db' = Some user' /\
    Db.login_attempts user' =
      Db.login_attempts user + Z.of_nat (length attempts) /\
    Db.locked_until user' = None /\
    Db.password_hash user' = Db.password_hash user.
Proof.
  induction attempts as [|a attempts IH]; intros db user Hsel Hun Hlt Hall.
  - exists [], db, user. simpl. repeat split; auto. lia.
  - apply Forall_cons in Hall as [Ha Hall].
    assert (Hnl : Server.isLocked user (Server.at_check (snd a)) = false)
      by (unfold Server.isLocked; now rewrite Hun).
    destruct (login_wrong_password db a name user Ha Hsel Hnl)
      as [Hstep Hsel'].
    simpl length in Hlt.
    destruct (Z.leb_spec 5 (Db.login_attempts user + 1)); [lia|].
    destruct (IH _ _ Hsel') as (rs & db' & user' & Hrun & Hrs & Hs & Hc & Hl & Hh);
      [reflexivity|simpl; lia|exact Hall|].
    exists (invalid_credentials :: rs), db', user'.
    unfold handled in *. destruct a as [req c]. simpl in *.
    fold login. rewrite Hstep. simpl. rewrite Hrun.
    repeat split; auto. lia.
Qed.

(** What five failed attempts and a sixth come to when each of them
    reaches the handler. *)
Lemma handled_lockout db name user a1 a2 a3 a4 a5 :
  Db.select_by_username name db = Some user ->
  Db.login_attempts user = 0 ->
  Server.isLocked user (Server.at_check (snd a1)) = false ->
  Forall (failing_attempt name (Db.password_hash user)) [a1; a2; a3; a4; a5] ->
  exists responses db5 user5,
    handled db [a1; a2; a3; a4; a5] = (responses, db5, 5%nat) /\
    Forall (fun r => status r = 401) responses /\
    Db.select_by_username name db5 = Some user5 /\
    Db.login_attempts user5 = 5 /\
    Db.locked_until user5
      = Some (Server.after_compare (snd a5) + 15 * 60 * 1000) /\
    (forall k, (0 < k < 5)%nat ->
       exists rs dbk userk,
         handled db (take k [a1; a2; a3; a4; a5]) = (rs, dbk, k) /\
         Db.select_by_username name dbk = Some userk /\
         Db.login_attempts userk = Z.of_nat k /\
         Db.locked_until userk = None) /\
    (forall req6 c6,
       body_username req6 = name -> admitted req6 c6 ->
       Server.at_check c6 < Server.after_compare (snd a5) + 15 * 60 * 1000 ->
       let r := login db5 req6 c6 in
       status (Server.res r) = 423 /\
       Server.comparisons r = 0%nat /\
       Server.users_after r = db5 /\
       handled db [a1; a2; a3; a4; a5; (req6, c6)]
         = ((responses ++ [Server.res r])%list, db5, 5%nat)).
Proof.
  intros Hsel Hzero Hunl Hall.
  apply Forall_cons in Hall as [Ha1 Hrest].
  (* the first attempt clears whatever expired lock there was *)
  destruct (login_wrong_password db a1 name user Ha1 Hsel Hunl)
    as [Hstep1 Hsel1].
  rewrite Hzero in Hstep1, Hsel1. change (0 + 1) with 1 in Hstep1, Hsel1.
  change (5 <=? 1)%Z with false in Hstep1, Hsel1.
  cbv iota in Hstep1, Hsel1.
  set (db1 := Db.update_failed 1 None (Db.id user) db) in *.
  set (user1 := Db.set_failed 1 None user) in *.
  assert (Hrun1 : forall l,
            handled db (a1 :: l) =
              let '(rs, db', n) := handled db1 l in
              (invalid_credentials :: rs, db', S n)).
  { intros l. unfold handled. destruct a1 as [req1 c1]. simpl.
    fold login. simpl in Hstep1. rewrite Hstep1. simpl.
    now destruct (Server.handled _ _ _ _ _ l) as [[rs db'] n]. }
  assert (Hfirst : Forall (failing_attempt name (Db.password_hash user1))
                     [a2; a3; a4]).
  { apply Forall_cons in Hrest as [? Hrest].
    apply Forall_cons in Hrest as [? Hrest].
    apply Forall_cons in Hrest as [? _].
    repeat (constructor; [assumption|]). constructor. }
  assert (Ha5 : failing_attempt name (Db.password_hash user) a5).
  { do 3 (apply Forall_cons in Hrest as [_ Hrest]).
    now apply Forall_cons in Hrest as [? _]. }
  destruct (failed_run_below name [a2; a3; a4] db1 user1 Hsel1 eq_refl)
    as (rs4 & db4 & user4 & Hrun4 & Hrs4 & Hsel4 & Hc4 & Hl4 & Hh4);
    [simpl; lia|exact Hfirst|].
  change (Db.login_attempts user1 + Z.of_nat (length [a2; a3; a4])) with 4
    in Hc4.
  change (length [a2; a3; a4]) with 3%nat in Hrun4.
  change (Db.password_hash user1) with (Db.password_hash user) in Hh4.
  rewrite <- Hh4 in Ha5.
  assert (Hnl : Server.isLocked user4 (Server.at_check (snd a5)) = false)
    by (unfold Server.isLocked; now rewrite Hl4).
  destruct (login_wrong_password db4 a5 name user4 Ha5 Hsel4 Hnl)
    as [Hstep Hsel5].
  rewrite Hc4 in Hstep, Hsel5. change (4 + 1) with 5 in Hstep, Hsel5.
  change (5 <=? 5)%Z with true in Hstep, Hsel5. cbv iota in Hstep, Hsel5.
  set (until := Some (Server.after_compare (snd a5) + 15 * 60 * 1000)) in *.
  set (db5 := Db.update_failed 5 until (Db.id user4) db4) in *.
  assert (Hrun5 : handled db [a1; a2; a3; a4; a5]
                  = ((invalid_credentials :: rs4 ++ [invalid_credentials])%list,
                     db5, 5%nat)).
  { rewrite Hrun1.
    change [a2; a3; a4; a5] with ([a2; a3; a4] ++ [a5])%list.
    rewrite handled_app, Hrun4. destruct a5 as [req5 c5].
    unfold handled. simpl. fold login. simpl in Hstep. now rewrite Hstep. }
  exists (invalid_credentials :: rs4 ++ [invalid_credentials])%list, db5,
    (Db.set_failed 5 until user4).
  split; [exact Hrun5|]. split.
  { constructor; [reflexivity|]. apply Forall_app.
    split; [|now repeat constructor].
    eapply Forall_impl; [exact Hrs4|]. now intros r ->. }
  split; [exact Hsel5|]. split; [reflexivity|]. split; [reflexivity|]. split.
  - intros [|k] Hk; [lia|].
    change (take (S k) [a1; a2; a3; a4; a5])
      with (a1 :: take k [a2; a3; a4; a5]).
    destruct (failed_run_below name (take k [a2; a3; a4; a5]) db1 user1
                Hsel1 eq_refl)
      as (rs & dbk & userk & Hrun & _ & Hs & Hc & Hl & _).
    + rewrite length_take. simpl. lia.
    + apply Forall_take.
      eapply Forall_impl; [exact Hrest|]. now intros a Ha.
    + rewrite length_take in Hrun, Hc. simpl length in Hrun, Hc.
      replace (k `min` 4)%nat with k in Hrun, Hc by lia.
      exists (invalid_credentials :: rs), dbk, userk.
      rewrite Hrun1, Hrun. repeat split; auto.
      rewrite Hc. simpl. lia.
  - intros req6 c6 Hname Hadm Hbefore r.
    assert (Hlocked : Server.isLocked (Db.set_failed 5 until user4)
                        (Server.at_check c6) = true).
    { unfold Server.isLocked, until. simpl. now apply Z.ltb_lt. }
    assert (Hr : r = {| Server.res := locked_response;
                        Server.users_after := db5;
                        Server.comparisons := 0 |}).
    { subst r. eapply login_locked; eauto. now rewrite Hname. }
    rewrite Hr. simpl. repeat split.
    change [a1; a2; a3; a4; a5; (req6, c6)]
      with ([a1; a2; a3; a4; a5] ++ [(req6, c6)])%list.
    rewrite handled_app, Hrun5. unfold handled. simpl.
    fold login. fold r. rewrite Hr. simpl.
    now rewrite <- app_assoc.
Qed.

(** A run of attempts that the limiters all let through is the handler
    applied to each of them. *)
Lemma login_run_handled reqs : forall l db,
  Server.let_through l (Server.attempts reqs) = true ->
  login_run l db (Server.attempts reqs) = handled db reqs.
Proof.
  induction reqs as [|[req c] reqs IH]; intros l db Hthrough; [reflexivity|].
  apply let_through_cons in Hthrough as [Hfirst Hrest].
  unfold login_run, handled in *. simpl. rewrite Hfirst. simpl.
  now rewrite (IH _ _ Hrest).
Qed.

Lemma login_run_app es1 : forall l db es2,
  login_run l db (es1 ++ es2) =
    let '(rs1, db1, n1) := login_run l db es1 in
    let '(rs2, db2, n2) :=
      login_run (Server.limits_after l es1) db1 es2 in
    ((rs1 ++ rs2)%list, db2, (n1 + n2)%nat).
Proof.
  induction es1 as [|a es1 IH]; intros l db es2.
  - simpl. now destruct (login_run l db es2) as [[rs2 db2] n2].
  - unfold login_run in *. simpl.
    change (Server.limits_after l (a :: es1))
      with (Server.limits_after (fst (Server.tick l a)) es1).
    destruct (match a with
              | Server.Attempt req c => _
              | Server.AttemptOdd req c => _
              | _ => None
              end) as [r|]; rewrite IH;
      destruct (Server.login_run _ _ _ _ _ _ es1) as [[rs1 db1] n1];
      destruct (Server.login_run _ _ _ _ _ _ es2) as [[rs2 db2] n2];
      simpl; [f_equal; lia|reflexivity].
Qed.

(** One attempt on an account that is locked: the limiters stop it with
    429, or the handler answers 423; either way nothing is compared and
    the table stays as it is. *)
Lemma login_run_locked l db req c user :
  admitted req c ->
  Db.select_by_username (body_username req) db = Some user ->
  Server.isLocked user (Server.at_check c) = true ->
  login_run l db [Server.Attempt req c] =
    ([match snd (Server.limited l (req_ip req)) with
      | Some stopped => stopped
      | None => locked_response
      end], db, 0%nat).
Proof.
  intros Hadm Hsel Hlock. unfold login_run. simpl.
  destruct (snd (Server.limited l (req_ip req))); simpl; [reflexivity|].
  fold login. now rewrite (login_locked db req c user Hadm Hsel Hlock).
Qed.

Lemma admitted_dec req c : admitted req c \/ ~ admitted req c.
Proof.
  unfold admitted.
  destruct (Server.validation_errors req);
    [|right; intros (? & _); discriminate].
  destruct (Server.success _); [|right; intros (_ & ? & _); discriminate].
  destruct (Server.select_throws c); [right; intros (_ & _ & ?); discriminate|].
  now left.
Qed.

Lemma isLocked_true user now :
  Server.isLocked user now = true <->
  exists t, Db.locked_until user = Some t /\ now < t.
Proof.
  unfold Server.isLocked. destruct (Db.locked_until user) as [t|].
  - rewrite Z.ltb_lt. split; [eauto|]. now intros (t' & [= <-] & ?).
  - split; [discriminate|]. now intros (t' & ? & _).
Qed.

Lemma isLocked_false user now :
  Server.isLocked user now = false <->
  forall t, Db.locked_until user = Some t -> t <= now.
Proof.
  unfold Server.isLocked. destruct (Db.locked_until user) as [t|].
  - rewrite Z.ltb_ge. split; [now intros ? ? [= <-]|auto].
  - split; [discriminate|reflexivity].
Qed.

(** C2. Starting from an account with a counter of zero that is not
    locked when the first attempt arrives (no lock expiry, or one in the
    past), five consecutive attempts with a wrong password that the rate
    limiters let through are each answered 401 after one password
    comparison; the account has no lock after each of the first four,
    and the fifth sets the counter to 5 and the lock expiry to the time
    of that attempt plus fifteen minutes. A sixth attempt that arrives
    before the expiry makes no comparison and leaves the table as it
    is, so the comparisons stay at five: it is answered 423 when the
    limiters let it through, and 429 when one of them stops it. After
    five attempts from one address the limiter of the authentication
    routes stops a sixth request from that address. *)
Theorem C2_lockout_threshold l db name user a1 a2 a3 a4 a5 :
  Db.select_by_username name db = Some user ->
  Db.login_attempts user = 0 ->
  Server.isLocked user (Server.at_check (snd a1)) = false ->
  Forall (failing_attempt name (Db.password_hash user)) [a1; a2; a3; a4; a5] ->
  let five := Server.attempts [a1; a2; a3; a4; a5] in
  Server.let_through l five = true ->
  exists responses db5 user5,
    login_run l db five = (responses, db5, 5%nat) /\
    Forall (fun r => status r = 401) responses /\
    Db.select_by_username name db5 = Some user5 /\
    Db.login_attempts user5 = 5 /\
    Db.locked_until user5
      = Some (Server.after_compare (snd a5) + 15 * 60 * 1000) /\
    (forall k, (0 < k < 5)%nat ->
       exists rs dbk userk,
         login_run l db (take k five) = (rs, dbk, k) /\
         Db.select_by_username name dbk = Some userk /\
         Db.login_attempts userk = Z.of_nat k /\
         Db.locked_until userk = None) /\
    (forall l6 req6 c6,
       body_username req6 = name -> admitted req6 c6 ->
       Server.at_check c6 < Server.after_compare (snd a5) + 15 * 60 * 1000 ->
       let stopped := snd (Server.limited l6 (req_ip req6)) in
       let answer :=
         match stopped with Some r => r | None => locked_response end in
       login_run l6 db5 [Server.Attempt req6 c6] = ([answer], db5, 0%nat) /\
       (stopped = None -> status answer = 423) /\
       (stopped <> None -> status answer = 429) /\
       (l6 = Server.limits_after l five ->
        login_run l db (five ++ [Server.Attempt req6 c6])
          = ((responses ++ [answer])%list, db5, 5%nat))) /\
    (forall req6,
       Forall (fun a => req_ip (fst a) = req_ip req6) [a1; a2; a3; a4; a5] ->
       exists r,
         snd (Server.limited (Server.limits_after l five) (req_ip req6))
           = Some r /\ status r = 429).
Proof.
  intros Hsel Hzero Hunl Hall five Hthrough.
  destruct (handled_lockout db name user a1 a2 a3 a4 a5 Hsel Hzero Hunl Hall)
    as (responses & db5 & user5 & Hrun & Hrs & Hsel5 & Hfive & Huntil
        & Hbelow & Hsixth).
  assert (Hrun5 : login_run l db five = (responses, db5, 5%nat)).
  { subst five. now rewrite login_run_handled. }
  exists responses, db5, user5.
  do 5 (split; [assumption|]). split; [|split].
  - intros k Hk. destruct (Hbelow k Hk) as (rs & dbk & userk & Hk' & Hrest).
    exists rs, dbk, userk. split; [|exact Hrest].
    assert (Htake : take k five = Server.attempts (take k [a1; a2; a3; a4; a5])).
    { subst five. unfold Server.attempts. now rewrite <- fmap_take. }
    rewrite Htake, login_run_handled; [exact Hk'|].
    rewrite <- Htake.
    rewrite <- (take_drop k five), let_through_app in Hthrough.
    now apply andb_true_iff in Hthrough as [? _].
  - intros l6 req6 c6 Hname Hadm Hbefore stopped answer.
    assert (Hlocked : Server.isLocked user5 (Server.at_check c6) = true).
    { apply isLocked_true. eauto. }
    assert (Hone : forall l', login_run l' db5 [Server.Attempt req6 c6] =
                     ([match snd (Server.limited l' (req_ip req6)) with
                       | Some r => r | None => locked_response end],
                      db5, 0%nat)).
    { intros l'. apply (login_run_locked l' db5 req6 c6 user5 Hadm);
        [now rewrite Hname|exact Hlocked]. }
    split; [apply Hone|]. split; [|split].
    + subst answer. now intros ->.
    + subst answer. destruct stopped as [r|] eqn:Hstopped; [|congruence].
      intros _. now apply (limited_status l6 (req_ip req6)).
    + intros ->. rewrite login_run_app, Hrun5, Hone. fold stopped answer.
      reflexivity.
  - intros req6 Hip. apply limited_full.
    subst five. rewrite (let_through_counted (req_ip req6)) by assumption.
    simpl. lia.
Qed.

(** C6. A login attempt is answered 423 exactly when it reaches the
    user's row and the row's [locked_until] is set and later than the
    time of the attempt. When the lock expiry is not later (or no lock
    is set), the password is compared, once, and the comparison decides
    between 200 and 401. The lock is read from the users table at each
    attempt. *)
Theorem C6_lock_evaluation db req c :
  let r := login db req c in
  (status (Server.res r) = 423 <->
     admitted req c /\
     exists user t,
       Db.select_by_username (body_username req) db = Some user /\
       Db.locked_until user = Some t /\ Server.at_check c < t) /\
  (forall user,
     admitted req c ->
     Db.select_by_username (body_username req) db = Some user ->
     (forall t, Db.locked_until user = Some t -> t <= Server.at_check c) ->
     Server.comparisons r = 1%nat /\
     status (Server.res r) =
       if compare (body_password req) (Db.password_hash user)
       then 200 else 401).
Proof.
  intros r. subst r. split; [split|].
  - intros Hst. destruct (admitted_dec req c) as [Hadm|Hnot].
    + split; [exact Hadm|]. rewrite (login_admitted _ _ _ Hadm) in Hst.
      destruct (Db.select_by_username _ _) as [user|]; [|discriminate].
      destruct (Server.isLocked user (Server.at_check c)) eqn:Hlock.
      * apply isLocked_true in Hlock as (t & Ht & Hlt). eauto.
      * destruct (compare _ _); discriminate.
    + destruct (login_not_admitted db req c Hnot) as ([Hs|Hs] & _);
        rewrite Hs in Hst; discriminate.
  - intros (Hadm & user & t & Hsel & Ht & Hlt).
    erewrite login_locked; eauto. apply isLocked_true. eauto.
  - intros user Hadm Hsel Hexp. apply isLocked_false in Hexp.
    rewrite (login_admitted _ _ _ Hadm), Hsel, Hexp.
    destruct (compare _ _); simpl; auto.
Qed.

(** C10. Only a successful password comparison lowers the counter (to
    zero); no other answer does, in particular not the expiry of a lock.
    A login with the right password for an account that is not locked,
    whatever its counter and whether or not a lock has expired, is
    answered 200 and writes the counter 0 and no lock. A request that is
    answered otherwise leaves the counter where it was or raises it, and
    one that meets an expired lock and is not answered 401 leaves the
    row, with the counter and the past expiry, as it was.
    So for an account whose lock has expired with the counter at 5, an
    attempt with a wrong password is compared, answered 401, raises the
    counter to 6 and locks the account again for fifteen minutes from
    the time of that attempt: an attempt before the new expiry is
    answered 423. *)
Theorem C10_expired_lock_keeps_counter db name :
  (forall req c user user',
     body_username req = name ->
     Db.select_by_username name db = Some user ->
     Db.select_by_username name (Server.users_after (login db req c))
       = Some user' ->
     Db.login_attempts user' < Db.login_attempts user ->
     status (Server.res (login db req c)) = 200 /\
     compare (body_password req) (Db.password_hash user) = true /\
     Db.login_attempts user' = 0) /\
  (forall req c user,
     body_username req = name -> admitted req c ->
     Db.select_by_username name db = Some user ->
     Server.isLocked user (Server.at_check c) = false ->
     compare (body_password req) (Db.password_hash user) = true ->
     let r := login db req c in
     status (Server.res r) = 200 /\ Server.comparisons r = 1%nat /\
     (Server.update_throws c = false ->
      Db.select_by_username name (Server.users_after r)
        = Some (Db.set_success (Server.after_compare c) user) /\
      Db.login_attempts (Db.set_success (Server.after_compare c) user) = 0 /\
      Db.locked_until (Db.set_success (Server.after_compare c) user) = None)) /\
  (forall req c user user',
     body_username req = name ->
     Db.select_by_username name db = Some user ->
     Db.select_by_username name (Server.users_after (login db req c))
       = Some user' ->
     status (Server.res (login db req c)) <> 200 ->
     Db.login_attempts user <= Db.login_attempts user' /\
     (forall t, Db.locked_until user = Some t ->
        t <= Server.at_check c ->
        status (Server.res (login db req c)) <> 401 ->
        user' = user)) /\
  (forall a user t,
     failing_attempt name (Db.password_hash user) a ->
     Db.select_by_username name db = Some user ->
     Db.login_attempts user = 5 ->
     Db.locked_until user = Some t ->
     t <= Server.at_check (snd a) ->
     let r := login db (fst a) (snd a) in
     let relock := Server.after_compare (snd a) + 15 * 60 * 1000 in
     Server.res r = invalid_credentials /\
     Server.comparisons r = 1%nat /\
     exists user',
       Db.select_by_username name (Server.users_after r) = Some user' /\
       Db.login_attempts user' = 6 /\
       Db.locked_until user' = Some relock /\
       forall req' c',
         body_username req' = name -> admitted req' c' ->
         Server.at_check c' < relock ->
         status (Server.res (login (Server.users_after r) req' c')) = 423).
Proof.
  split.
  - intros req c user user' Hname Hsel Hsel' Hlt.
    destruct (admitted_dec req c) as [Hadm|Hnot].
    + rewrite (login_admitted _ _ _ Hadm), Hname, Hsel in Hsel' |- *.
      destruct (Server.isLocked user (Server.at_check c)).
      { simpl in Hsel'. rewrite Hsel in Hsel'. injection Hsel' as <-. lia. }
      destruct (compare _ _); simpl in *.
      * split; [reflexivity|]. split; [reflexivity|].
        destruct (Server.update_throws c).
        { rewrite Hsel in Hsel'. injection Hsel' as <-. lia. }
        rewrite (select_update_success _ _ _ _ Hsel) in Hsel'.
        now injection Hsel' as <-.
      * exfalso. destruct (Server.update_throws c).
        { rewrite Hsel in Hsel'. injection Hsel' as <-. lia. }
        rewrite (select_update_failed _ _ _ _ _ Hsel) in Hsel'.
        injection Hsel' as <-. simpl in Hlt. lia.
    + destruct (login_not_admitted db req c Hnot) as (_ & _ & Hdb).
      rewrite Hdb, Hsel in Hsel'. injection Hsel' as <-. lia.
  - split; [|split].
    { intros req c user Hname Hadm Hsel Hunl Hcmp r. subst r.
      rewrite (login_admitted _ _ _ Hadm), Hname, Hsel, Hunl, Hcmp. simpl.
      split; [reflexivity|]. split; [reflexivity|].
      intros ->. split; [now apply select_update_success|now split]. }
    { intros req c user user' Hname Hsel Hsel' Hnot200.
      destruct (admitted_dec req c) as [Hadm|Hnot].
      - rewrite (login_admitted _ _ _ Hadm), Hname, Hsel in Hsel', Hnot200 |- *.
        destruct (Server.isLocked user (Server.at_check c)) eqn:Hlock.
        { simpl in Hsel'. rewrite Hsel in Hsel'. injection Hsel' as <-.
          split; [lia|reflexivity]. }
        destruct (compare _ _); simpl in *; [contradiction|].
        destruct (Server.update_throws c).
        { rewrite Hsel in Hsel'. injection Hsel' as <-.
          split; [lia|contradiction]. }
        rewrite (select_update_failed _ _ _ _ _ Hsel) in Hsel'.
        injection Hsel' as <-. simpl. split; [lia|contradiction].
      - destruct (login_not_admitted db req c Hnot) as (_ & _ & Hdb).
        rewrite Hdb, Hsel in Hsel'. injection Hsel' as <-.
        split; [lia|reflexivity]. }
    intros a user t Ha Hsel Hfive Ht Hexp r relock.
    assert (Hnl : Server.isLocked user (Server.at_check (snd a)) = false).
    { apply isLocked_false. intros t' Ht'. rewrite Ht in Ht'.
      now injection Ht' as <-. }
    destruct (login_wrong_password db a name user Ha Hsel Hnl)
      as [Hstep Hsel'].
    rewrite Hfive in Hstep, Hsel'. change (5 + 1) with 6 in Hstep, Hsel'.
    change (5 <=? 6)%Z with true in Hstep, Hsel'.
    cbv iota in Hstep, Hsel'. fold relock in Hstep, Hsel'.
    subst r. rewrite Hstep. simpl.
    split; [reflexivity|]. split; [reflexivity|].
    exists (Db.set_failed 6 (Some relock) user).
    split; [exact Hsel'|]. split; [reflexivity|]. split; [reflexivity|].
    intros req' c' Hname' Hadm' Hbefore.
    rewrite (login_locked _ req' c' (Db.set_failed 6 (Some relock) user));
      [reflexivity|exact Hadm'|now rewrite Hname'|].
    apply isLocked_true. exists relock. now split.
Qed.

End LoginClaims.

Lemma scenario_failing_attempt password at_ms :
  password <> "correct horse battery staple" ->
  Str.truthy password = true ->
  failing_attempt Scenario.compare Scenario.env "admin"
    (Db.password_hash Scenario.admin) (Scenario.attempt password at_ms).
Proof.
  intros Hwrong Hne. unfold failing_attempt, admitted. simpl.
  repeat split.
  - unfold Server.validation_errors. simpl. now rewrite Hne.
  - unfold Scenario.compare.
    apply andb_false_iff. left. now apply String.eqb_neq.
Qed.

Lemma scenario_admitted password at_ms :
  Str.truthy password = true ->
  admitted Scenario.env (fst (Scenario.attempt password at_ms))
    (snd (Scenario.attempt password at_ms)).
Proof.
  intros Hne. unfold admitted. simpl. repeat split.
  unfold Server.validation_errors. simpl. now rewrite Hne.
Qed.

(** C2 as worded, "a 6th login attempt made while locked is rejected
    with HTTP 423", fails for six attempts from one address: the sixth
    is the sixth request of that address under /api/auth/ and is
    answered 429 by the limiter. *)
Lemma C2_counterexample :
  ~ (forall l a1 a2 a3 a4 a5 a6,
       Forall (failing_attempt Scenario.compare Scenario.env "admin"
                 (Db.password_hash Scenario.admin)) [a1; a2; a3; a4; a5] ->
       Server.let_through l (Server.attempts [a1; a2; a3; a4; a5]) = true ->
       body_username (fst a6) = "admin" ->
       admitted Scenario.env (fst a6) (snd a6) ->
       Server.at_check (snd a6)
         < Server.after_compare (snd a5) + 15 * 60 * 1000 ->
       status
         (nth 5 (fst (fst (Server.login_run Scenario.compare Scenario.cfg
                             Scenario.env Scenario.sm l Scenario.db
                             (Server.attempts [a1; a2; a3; a4; a5; a6]))))
            invalid_credentials) = 423).
Proof.
  intros Hclaim.
  specialize (Hclaim Scenario.no_hits
                (Scenario.attempt "123456" Scenario.t0)
                (Scenario.attempt "password" (Scenario.t0 + 5000))
                (Scenario.attempt "admin" (Scenario.t0 + 10000))
                (Scenario.attempt "letmein" (Scenario.t0 + 15000))
                (Scenario.attempt "qwerty" (Scenario.t0 + 20000))
                (Scenario.attempt "correct horse battery staple"
                   (Scenario.t0 + 25000))).
  assert (Hsixth : status
            (nth 5 (fst (fst (Server.login_run Scenario.compare Scenario.cfg
                                Scenario.env Scenario.sm Scenario.no_hits
                                Scenario.db
                                (Server.attempts
                                   [Scenario.attempt "123456" Scenario.t0;
                                    Scenario.attempt "password" (Scenario.t0 + 5000);
                                    Scenario.attempt "admin" (Scenario.t0 + 10000);
                                    Scenario.attempt "letmein" (Scenario.t0 + 15000);
                                    Scenario.attempt "qwerty" (Scenario.t0 + 20000);
                                    Scenario.attempt
                                      "correct horse battery staple"
                                      (Scenario.t0 + 25000)]))))
               invalid_credentials) = 429)
    by (vm_compute; reflexivity).
  rewrite Hclaim in Hsixth; [discriminate| | | | |].
  - repeat (constructor;
            [apply scenario_failing_attempt; [discriminate|reflexivity]|]).
    constructor.
  - vm_compute. reflexivity.
  - reflexivity.
  - apply scenario_admitted. reflexivity.
  - vm_compute. reflexivity.
Qed.

(** C2 at five wrong passwords for [admin] from one address, five seconds
    apart, and the right password five seconds later: from the same
    address it is answered 429, from another one 423. *)
Lemma C2_lockout_threshold_witness :
  let five := Server.attempts
                [Scenario.attempt "123456" Scenario.t0;
                 Scenario.attempt "password" (Scenario.t0 + 5000);
                 Scenario.attempt "admin" (Scenario.t0 + 10000);
                 Scenario.attempt "letmein" (Scenario.t0 + 15000);
                 Scenario.attempt "qwerty" (Scenario.t0 + 20000)] in
  let a6 := Scenario.attempt "correct horse battery staple"
              (Scenario.t0 + 25000) in
  let l5 := Server.limits_after Scenario.no_hits five in
  exists responses db5 user5 r429,
    Server.login_run Scenario.compare Scenario.cfg Scenario.env Scenario.sm
      Scenario.no_hits Scenario.db five = (responses, db5, 5%nat) /\
    Db.select_by_username "admin" db5 = Some user5 /\
    Db.login_attempts user5 = 5 /\
    Db.locked_until user5 = Some (Scenario.t0 + 20000 + 80 + 15 * 60 * 1000) /\
    Server.login_run Scenario.compare Scenario.cfg Scenario.env Scenario.sm
      l5 db5 [Server.Attempt (fst a6) (snd a6)] = ([r429], db5, 0%nat) /\
    status r429 = 429 /\
    Server.login_run Scenario.compare Scenario.cfg Scenario.env Scenario.sm
      l5 db5 [Server.Attempt (with_ip (fst a6) "198.51.100.23") (snd a6)]
      = ([locked_response], db5, 0%nat).
Proof.
  intros five a6 l5.
  destruct (C2_lockout_threshold Scenario.compare
              "0f1e2d3c4b5a69788796a5b4c3d2e1f0" Scenario.env Scenario.sm
              Scenario.no_hits Scenario.db "admin" Scenario.admin
              (Scenario.attempt "123456" Scenario.t0)
              (Scenario.attempt "password" (Scenario.t0 + 5000))
              (Scenario.attempt "admin" (Scenario.t0 + 10000))
              (Scenario.attempt "letmein" (Scenario.t0 + 15000))
              (Scenario.attempt "qwerty" (Scenario.t0 + 20000)))
    as (rs & db5 & user5 & Hrun & _ & Hsel & Hcount & Hlock & _ & Hsixth
        & Hsame).
  - reflexivity.
  - reflexivity.
  - reflexivity.
  - repeat (constructor;
            [apply scenario_failing_attempt; [discriminate|reflexivity]|]).
    constructor.
  - vm_compute. reflexivity.
  - destruct (Hsame (fst a6)) as (r429 & Hstopped & H429).
    { repeat constructor. }
    destruct (Hsixth l5 (fst a6) (snd a6)) as (Hone & _);
      [reflexivity|apply scenario_admitted; reflexivity
      |vm_compute; reflexivity|].
    destruct (Hsixth l5 (with_ip (fst a6) "198.51.100.23") (snd a6))
      as (Hother & _);
      [reflexivity|apply scenario_admitted; reflexivity
      |vm_compute; reflexivity|].
    fold five l5 in Hstopped. rewrite Hstopped in Hone.
    assert (Hfree : snd (Server.limited l5 "198.51.100.23") = None)
      by (vm_compute; reflexivity).
    change (req_ip (with_ip (fst a6) "198.51.100.23"))
      with "198.51.100.23" in Hother.
    rewrite Hfree in Hother.
    exists rs, db5, user5, r429. repeat split; assumption.
Defined.

(** C6 at the instant the lock expires: the right password is compared
    and accepted. *)
Lemma C6_lock_evaluation_witness :
  let locked := Db.set_failed 5 (Some (Scenario.t0 + 900000)) Scenario.admin in
  let a := Scenario.attempt "correct horse battery staple"
             (Scenario.t0 + 900000) in
  let r := Server.login Scenario.compare Scenario.cfg Scenario.env Scenario.sm
             [locked] (fst a) (snd a) in
  Server.comparisons r = 1%nat /\ status (Server.res r) = 200.
Proof.
  intros locked a r.
  apply (proj2 (C6_lock_evaluation Scenario.compare
                  "0f1e2d3c4b5a69788796a5b4c3d2e1f0" Scenario.env Scenario.sm
                  [locked] (fst a) (snd a)) locked).
  - apply scenario_admitted. reflexivity.
  - reflexivity.
  - intros t [= <-]. reflexivity.
Defined.

(** C10 at a wrong password forty-five minutes after the lock expired. *)
Lemma C10_expired_lock_keeps_counter_witness :
  let stale := Db.set_failed 5 (Some (Scenario.t0 + 900000)) Scenario.admin in
  let a := Scenario.attempt "hunter2" (Scenario.t0 + 3600000) in
  let r := Server.login Scenario.compare Scenario.cfg Scenario.env Scenario.sm
             [stale] (fst a) (snd a) in
  Server.res r = invalid_credentials /\
  Server.comparisons r = 1%nat /\
  exists user',
    Db.select_by_username "admin" (Server.users_after r) = Some user' /\
    Db.login_attempts user' = 6 /\
    Db.locked_until user' = Some (Scenario.t0 + 3600000 + 80 + 15 * 60 * 1000).
Proof.
  intros stale a r.
  destruct (proj2 (proj2 (proj2
              (C10_expired_lock_keeps_counter Scenario.compare
                 "0f1e2d3c4b5a69788796a5b4c3d2e1f0" Scenario.env
                 Scenario.sm [stale] "admin")))
              a stale (Scenario.t0 + 900000))
    as (Hres & Hcmp & user' & Hsel & Hcount & Hlock & _).
  - apply scenario_failing_attempt; [discriminate|reflexivity].
  - reflexivity.
  - reflexivity.
  - reflexivity.
  - vm_compute. discriminate.
  - split; [exact Hres|]. split; [exact Hcmp|].
    exists user'. repeat split; assumption.
Defined.

(** ** The mirrored session in the browser *)

Section ClientClaims.
Context `{Jwt.Primitives}.
Variable fingerprint : string.
Import AuthManager.

Lemma getSession_some b sd :
  getSession fingerprint b = Some sd ->
  auth_session b = Some sd /\ auth_fingerprint b = Some fingerprint.
Proof.
  unfold getSession. destruct (auth_session b) as [sd'|]; [|discriminate].
  case_bool_decide; [|discriminate]. now intros [= ->].
Qed.

Lemma isSessionValid_true b sd now :
  isSessionValid b sd now = true ->
  Str.truthy (token sd) = true /\ expiresAt sd <> 0 /\ now <= expiresAt sd /\
  exists isActive, auth_active b = Some isActive /\ Str.truthy isActive = true.
Proof.
  unfold isSessionValid.
  destruct (Str.truthy (token sd)); simpl; [|discriminate].
  destruct (Z.eqb_spec (expiresAt sd) 0); [discriminate|].
  destruct (Z.ltb_spec (expiresAt sd) now); [discriminate|].
  destruct (auth_active b) as [a|]; [|discriminate].
  intros Ha. repeat split; eauto.
Qed.

Lemma extendSession_valid b sd now :
  getSession fingerprint b = Some sd ->
  isSessionValid b sd now = true ->
  extendSession fingerprint b now =
    hideSessionWarning
      (startSessionTimer
         (storeSession fingerprint b (set_expiresAt sd (now + sessionTimeout)))
         now).
Proof. intros Hget Hvalid. unfold extendSession. now rewrite Hget, Hvalid. Qed.

(** C9. On a valid mirrored session, a user-activity event rewrites the
    stored session with [expiresAt = now + 30 min] and every other field
    as it was (the token string among them), keeps the fingerprint,
    writes the [auth_active] mark again, restarts the two timers and
    removes a warning banner if one is shown. The token is the string the server
    issued, so what [verifyToken] returns for it still carries
    [exp = iat + 1800]; once that second is reached the server rejects
    the token although the mirror, extended in the meantime, still
    counts the session as valid. *)
Theorem C9_client_extension_only (b : browser) (sd : session_data) (now : Z) :
  getSession fingerprint b = Some sd ->
  isSessionValid b sd now = true ->
  0 <= now ->
  let b' := extendSession fingerprint b now in
  let sd' := set_expiresAt sd (now + sessionTimeout) in
  auth_session b' = Some sd' /\
  expiresAt sd' = now + 30 * 60 * 1000 /\
  (token sd' = token sd /\ username sd' = username sd /\
   role sd' = role sd /\ loginTime sd' = loginTime sd /\
   csrfToken sd' = csrfToken sd) /\
  auth_fingerprint b' = auth_fingerprint b /\
  auth_active b' = Some "true" /\
  csrf_token b' = csrf_token b /\
  warnings b' = Nat.pred (warnings b) /\
  sessionTimer b' = Some (now + 30 * 60 * 1000) /\
  warningTimer b' = Some (now + 25 * 60 * 1000) /\
  (forall sm env user req issued_at req',
     token sd = SessionManager.generateToken sm user req issued_at ->
     (forall w c,
        snd (SessionManager.verifyToken sm env (token sd') req' w)
          = Returns c ->
        Jwt.exp c = Some (issued_at / 1000 + 30 * 60)) /\
     (forall v,
        issued_at / 1000 + 30 * 60 <= v / 1000 ->
        v <= now + 30 * 60 * 1000 ->
        getSession fingerprint b' = Some sd' /\
        isSessionValid b' sd' v = true /\
        succeeded
          (snd (SessionManager.verifyToken sm env (token sd') req' v))
          = false)).
Proof.
  intros Hget Hvalid Hnow b' sd'.
  pose proof (extendSession_valid b sd now Hget Hvalid) as Hext.
  fold b' in Hext. fold sd' in Hext.
  destruct (getSession_some _ _ Hget) as [_ Hfp].
  destruct (isSessionValid_true _ _ _ Hvalid) as (Htok & _ & _ & _).
  rewrite Hext. simpl. rewrite Hfp.
  do 9 (split; [repeat split|]).
  intros sm env user req issued_at req' Hissued. split.
  - intros w c. rewrite Hissued. intros Hc.
    apply verifyToken_returns_issued in Hc. subst c. apply issued_exp.
  - intros v Hexpired Hmirror. split; [|split].
    + unfold getSession. simpl. now rewrite bool_decide_eq_true_2.
    + unfold isSessionValid. simpl. rewrite Htok. simpl.
      destruct (Z.eqb_spec (now + sessionTimeout) 0) as [E|_];
        [unfold sessionTimeout in E; lia|].
      destruct (Z.ltb_spec (now + sessionTimeout) v) as [E|_];
        [unfold sessionTimeout in E; lia|reflexivity].
    + rewrite Hissued.
      now rewrite verifyToken_expired by exact Hexpired.
Qed.

End ClientClaims.

(** C9 in a browser that logged in at [t0], saw activity twenty minutes
    later and sends the token thirty-one minutes after [t0]. *)
Lemma C9_client_extension_only_witness :
  let fp := "TW96aWxsYS81LjAgKFgxMTsgTGludXgg" in
  let fresh := {| AuthManager.auth_session := None;
                  AuthManager.auth_fingerprint := None;
                  AuthManager.auth_active := None;
                  AuthManager.csrf_token := None;
                  AuthManager.sessionTimer := None;
                  AuthManager.warningTimer := None;
                  AuthManager.warnings := 0 |} in
  let b := AuthManager.handleSuccessfulLogin fp fresh Scenario.token
             "admin" "admin" "b7e23ec29af22b0b4e41da31e868d572"
             (Scenario.t0 + 200) in
  let now := Scenario.t0 + 20 * 60 * 1000 in
  let b' := AuthManager.extendSession fp b now in
  let v := Scenario.t0 + 31 * 60 * 1000 in
  exists sd',
    AuthManager.getSession fp b' = Some sd' /\
    AuthManager.token sd' = Scenario.token /\
    AuthManager.expiresAt sd' = now + 30 * 60 * 1000 /\
    AuthManager.isSessionValid b' sd' v = true /\
    succeeded (snd (SessionManager.verifyToken Scenario.sm Scenario.env
                      (AuthManager.token sd') Scenario.browser_request v))
      = false.
Proof.
  intros fp fresh b now b' v.
  set (sd := {| AuthManager.token := Scenario.token;
                AuthManager.username := "admin";
                AuthManager.role := "admin";
                AuthManager.loginTime := Scenario.t0 + 200;
                AuthManager.expiresAt :=
                  Scenario.t0 + 200 + AuthManager.sessionTimeout;
                AuthManager.csrfToken := "b7e23ec29af22b0b4e41da31e868d572" |}).
  destruct (C9_client_extension_only fp b sd now)
    as (_ & Hexp & (Htok & _) & _ & _ & _ & _ & _ & _ & Hserver).
  - reflexivity.
  - vm_compute. reflexivity.
  - vm_compute. discriminate.
  - destruct (Hserver Scenario.sm Scenario.env Scenario.admin
                Scenario.browser_request Scenario.t0 Scenario.browser_request)
      as [_ Hasym].
    + vm_compute. reflexivity.
    + destruct (Hasym v) as (Hget & Hvalid & Hrej).
      * vm_compute. discriminate.
      * vm_compute. discriminate.
      * exists (AuthManager.set_expiresAt sd (now + AuthManager.sessionTimeout)).
        repeat split; assumption.
Defined.

(* ===================================================================== *)
(** * Part III. The rest of the session code *)
(* ===================================================================== *)

(** ** requireRole (middleware/session.js) *)

Module Authorize.

(** What [requireRole(requiredRole)] does with a request: call [next()],
    or answer with a status, an [error] text and, for a wrong role, the
    [required] and [current] roles. *)
Inductive result :=
| Proceed
| Refused (status : Z) (error : string) (required current : option string).

(** The middleware returned by [requireRole(requiredRole)]; [user] is
    [req.user], [None] when nothing is attached. *)
Definition requireRole (requiredRole : string) (user : option Jwt.claims)
    : result :=
  match user with
  | None => Refused 401 "Authentication required" None None
  | Some u =>
      if negb (String.eqb (Jwt.role u) requiredRole)
      then Refused 403 "Insufficient permissions"
             (Some requiredRole) (Some (Jwt.role u))
      else Proceed
  end.

(** Where a request ends in the chain [authenticate(), requireRole(r),
    handler]. *)
Inductive chain :=
| StoppedByAuthenticate (res : response)
| StoppedByRole (status : Z) (error : string) (required current : option string)
| Handler (user : Jwt.claims) (token : string).

Section Chain.
Context `{Jwt.Primitives}.

Definition guarded (sm : SessionManager.t) (env : process_env)
    (requiredRole : string) (req : request) (now : Z) : chain :=
  match SessionManager.authenticate sm env req now with
  | SessionManager.Responded res => StoppedByAuthenticate res
  | SessionManager.Next user token =>
      match requireRole requiredRole (Some user) with
      | Proceed => Handler user token
      | Refused st e r c => StoppedByRole st e r c
      end
  end.

End Chain.
End Authorize.

Section AuthorizeFacts.
Context `{Jwt.Primitives}.
Import SessionManager.

Lemma authenticate_bearer_fresh sm env ip user req issued_at now :
  Str.occurs " " (generateToken sm user req issued_at) = false ->
  generateToken sm user req issued_at ∉ tokenBlacklist sm ->
  now / 1000 < issued_at / 1000 + 30 * 60 ->
  authenticate sm env
    (Scenario.request_from ip
       (Some ("Bearer " ++ generateToken sm user req issued_at))) now
    = Next (issued_claims user req issued_at)
        (generateToken sm user req issued_at).
Proof.
  intros Hfree Hbl Hnow.
  assert (Htruthy : Str.truthy (generateToken sm user req issued_at) = true).
  { unfold generateToken. rewrite sign_shape. apply truthy_app_cons. }
  rewrite (authenticate_with_token _ _ _ _ _
             (extract_bearer ip _ Hfree) Htruthy).
  now rewrite verifyToken_fresh.
Qed.

(** X1. Behind [authenticate], [requireRole] lets a request through to
    the handler exactly when the verified token's role equals the required
    role. It stops a request only with 403, naming the required and the
    token's role; its 401 is given only when no user is attached, which
    does not happen behind [authenticate]. For a valid token issued to a
    user, the decision is the comparison of the user's role at issuance
    with the required role. *)
Theorem X1_requireRole_behind_authenticate sm env requiredRole req now :
  (forall user token,
     Authorize.guarded sm env requiredRole req now
       = Authorize.Handler user token <->
     authenticate sm env req now = Next user token /\
     Jwt.role user = requiredRole) /\
  (forall st e r c,
     Authorize.guarded sm env requiredRole req now
       = Authorize.StoppedByRole st e r c ->
     st = 403 /\ r = Some requiredRole /\
     exists user token,
       authenticate sm env req now = Next user token /\
       c = Some (Jwt.role user) /\ Jwt.role user <> requiredRole) /\
  Authorize.requireRole requiredRole None
    = Authorize.Refused 401 "Authentication required" None None /\
  (forall ip user req0 issued_at,
     let token := generateToken sm user req0 issued_at in
     req = Scenario.request_from ip (Some ("Bearer " ++ token)) ->
     Str.occurs " " token = false ->
     token ∉ tokenBlacklist sm ->
     now / 1000 < issued_at / 1000 + 30 * 60 ->
     Authorize.guarded sm env requiredRole req now =
       if String.eqb (Db.role user) requiredRole
       then Authorize.Handler (issued_claims user req0 issued_at) token
       else Authorize.StoppedByRole 403 "Insufficient permissions"
              (Some requiredRole) (Some (Db.role user))).
Proof.
  unfold Authorize.guarded, Authorize.requireRole.
  split; [|split; [|split; [reflexivity|]]].
  - intros user token.
    destruct (authenticate sm env req now) as [res|u tok]; [split|].
    + discriminate.
    + now intros [? _].
    + destruct (String.eqb_spec (Jwt.role u) requiredRole) as [E|E]; simpl.
      * split; [now intros [= <- <-]|now intros [[= <- <-] _]].
      * split; [discriminate|]. intros [[= <- <-] E']. contradiction.
  - intros st e r c.
    destruct (authenticate sm env req now) as [res|u tok]; [discriminate|].
    destruct (String.eqb_spec (Jwt.role u) requiredRole) as [E|E]; simpl;
      [discriminate|].
    intros [= <- <- <- <-]. repeat split. exists u, tok. auto.
  - intros ip user req0 issued_at. cbv zeta. intros -> Hfree Hbl Hnow.
    rewrite (authenticate_bearer_fresh sm env ip user req0 issued_at now
               Hfree Hbl Hnow).
    change (Jwt.role (issued_claims user req0 issued_at)) with (Db.role user).
    now destruct (String.eqb (Db.role user) requiredRole).
Qed.

End AuthorizeFacts.

(** ** More on tokens and the revocation set *)

Module Cases.

(** A second account, without the admin role. *)
Definition editor : Db.user_row := {|
  Db.id := 2;
  Db.username := "guest-editor";
  Db.password_hash := "$2b$12$zyxwvutsrqponmlkjihgfe";
  Db.role := "editor";
  Db.login_attempts := 0;
  Db.locked_until := None;
  Db.last_login := None
|}.

Definition editor_token : string :=
  Eval vm_compute in
    SessionManager.generateToken Scenario.sm editor Scenario.browser_request
      Scenario.t0.

(** A user agent of 124 characters. *)
Definition long_agent : string :=
  "Mozilla/5.0 (Windows NT 10.0; Win64; x64) AppleWebKit/537.36 (KHTML, like Gecko) Chrome/119.0.0.0 Safari/537.36 Edg/119.0"
  ++ "...".

End Cases.

Section TokenFacts.
Context `{Jwt.Primitives}.
Import SessionManager.

Lemma length_substring_le n s : (String.length (String.substring 0 n s) <= n)%nat.
Proof.
  revert s. induction n as [|n IH]; intros [|c s]; simpl; try lia.
  specialize (IH s). lia.
Qed.

Lemma substring_short n s :
  (String.length s <= n)%nat -> String.substring 0 n s = s.
Proof.
  revert s. induction n as [|n IH]; intros [|c s]; simpl; try reflexivity;
    intros Hlen; [lia|]. rewrite IH by lia. reflexivity.
Qed.

(** X3. The user-agent claim put into a token is never empty and never
    longer than 100 characters: a missing or empty header gives
    ["unknown"], a header of up to 100 characters is taken as it is, a
    longer one is cut to its first 100 characters. *)
Theorem X3_userAgent_claim_bounds req :
  userAgent_claim req <> "" /\
  (String.length (userAgent_claim req) <= 100)%nat /\
  (user_agent req = None \/ user_agent req = Some "" ->
     userAgent_claim req = "unknown") /\
  (forall ua, user_agent req = Some ua -> ua <> "" ->
     userAgent_claim req = String.substring 0 100 ua /\
     ((String.length ua <= 100)%nat -> userAgent_claim req = ua) /\
     ((100 < String.length ua)%nat ->
        String.length (userAgent_claim req) = 100%nat)).
Proof.
  assert (Hcut : forall n s, (n <= String.length s)%nat ->
            String.length (String.substring 0 n s) = n).
  { induction n as [|n IH]; intros [|d s]; simpl; try lia.
    intros Hs. rewrite IH by lia. reflexivity. }
  unfold userAgent_claim. split; [|split; [|split]].
  - destruct (user_agent req) as [ua|]; [|discriminate].
    destruct (String.substring 0 100 ua) eqn:E; simpl; discriminate.
  - destruct (user_agent req) as [ua|]; [|simpl; lia].
    pose proof (length_substring_le 100 ua) as Hle.
    destruct (String.substring 0 100 ua) eqn:E; [simpl; lia|exact Hle].
  - intros [->| ->]; reflexivity.
  - intros ua -> Hne.
    assert (Hcutne : String.substring 0 100 ua <> "").
    { destruct ua as [|d ua]; [congruence|discriminate]. }
    assert (Hsame : (if Str.truthy (String.substring 0 100 ua)
                     then String.substring 0 100 ua else "unknown")
                    = String.substring 0 100 ua).
    { destruct (String.substring 0 100 ua); [congruence|reflexivity]. }
    rewrite Hsame. split; [reflexivity|]. split.
    + intros Hlen. now apply substring_short.
    + intros Hlen. apply Hcut. lia.
Qed.

(** The token depends on the clock only through the second. *)
Lemma generateToken_same_second sm user req now now' :
  now / 1000 = now' / 1000 ->
  generateToken sm user req now = generateToken sm user req now'.
Proof.
  intros E. unfold generateToken, Jwt.sign, Jwt.stamp, token_payload.
  simpl. now rewrite E.
Qed.

(** X2. Two tokens issued to the same user for the same client are the
    same string exactly when they are issued within the same second.
    Logging out with one therefore revokes the other as well: a token
    issued again in the second of a revoked one is refused from the
    start. *)
Theorem X2_same_second_same_token sm env user req now now' :
  (generateToken sm user req now = generateToken sm user req now' <->
     now / 1000 = now' / 1000) /\
  (now / 1000 = now' / 1000 ->
   forall req' v,
     succeeded
       (snd (verifyToken (revokeToken sm (generateToken sm user req now)) env
               (generateToken sm user req now') req' v)) = false).
Proof.
  split.
  - split; [apply generateToken_inj_second|apply generateToken_same_second].
  - intros E req' v. apply verifyToken_revoked.
    rewrite <- (generateToken_same_second sm user req now now' E).
    apply revokeToken_elem. now left.
Qed.

Lemma logout_run_keeps env sm reqs token :
  token ∈ tokenBlacklist sm ->
  token ∈ tokenBlacklist (Server.logout_run env sm reqs) /\
  sm_jwtSecret (Server.logout_run env sm reqs) = sm_jwtSecret sm.
Proof.
  revert sm. induction reqs as [|[req now] reqs IH]; intros sm Hin; [now split|].
  unfold Server.logout_run in *. simpl.
  destruct (IH (fst (Server.logout env sm req now))) as [Hin' Hsec].
  - now apply (logout_grows env sm req now).
  - split; [exact Hin'|]. rewrite Hsec. apply logout_secret.
Qed.

(** X5. Revocation is permanent while the process runs: whatever logout
    requests follow, a token that is in the revocation set stays in it,
    and [authenticate] answers a request that carries it with 403 and
    INVALID_TOKEN, so both the verify and the logout endpoint refuse
    it. *)
Theorem X5_revocation_is_permanent env sm reqs token req now :
  token ∈ tokenBlacklist sm ->
  extract_token req = Some token ->
  Str.truthy token = true ->
  let sm' := Server.logout_run env sm reqs in
  token ∈ tokenBlacklist sm' /\
  answered (authenticate sm' env req now) = Some (403, Some "INVALID_TOKEN") /\
  status (Server.verify env sm' req now) = 403 /\
  Server.logout env sm' req now
    = (sm', {| status := 403;
               body := ErrorBody "Invalid or expired token"
                         (Some "INVALID_TOKEN")
                         (if bool_decide (NODE_ENV env = Some "development")
                          then Some (failure_message
                                       (match Jwt.verify token (sm_jwtSecret sm)
                                                verify_opts now with
                                        | Returns _ => Revoked
                                        | Throws e => LibraryError e
                                        end))
                          else None) |}).
Proof.
  intros Hin Hx Ht sm'.
  destruct (logout_run_keeps env sm reqs token Hin) as [Hin' Hsec].
  fold sm' in Hin', Hsec.
  assert (Hv : snd (verifyToken sm' env token req now) =
               Throws (match Jwt.verify token (sm_jwtSecret sm) verify_opts now
                       with Returns _ => Revoked | Throws e => LibraryError e end)).
  { unfold verifyToken. rewrite Hsec.
    destruct (Jwt.verify token _ _ _); [|reflexivity].
    now rewrite bool_decide_eq_true_2. }
  pose proof (authenticate_with_token sm' env req now token Hx Ht) as Ha.
  rewrite Hv in Ha.
  split; [exact Hin'|]. split; [now rewrite Ha|].
  unfold Server.verify, Server.logout. rewrite Ha. now split.
Qed.

(** X4. [cleanupBlacklist] never adds a token and leaves a set of at
    most 1000 tokens after it: a set of up to 1000 tokens, 1000 included,
    is left as it is, a larger one is emptied. Running it twice is the
    same as running it once, and the secret is not touched. *)
Theorem X4_cleanupBlacklist_bound sm :
  (size (tokenBlacklist (cleanupBlacklist sm)) <= 1000)%nat /\
  tokenBlacklist (cleanupBlacklist sm) ⊆ tokenBlacklist sm /\
  ((size (tokenBlacklist sm) <= 1000)%nat -> cleanupBlacklist sm = sm) /\
  ((1000 < size (tokenBlacklist sm))%nat ->
     tokenBlacklist (cleanupBlacklist sm) = ∅) /\
  cleanupBlacklist (cleanupBlacklist sm) = cleanupBlacklist sm /\
  sm_jwtSecret (cleanupBlacklist sm) = sm_jwtSecret sm.
Proof.
  destruct (Nat.le_gt_cases (size (tokenBlacklist sm)) 1000) as [Hle|Hgt].
  - rewrite !(cleanupBlacklist_within sm Hle).
    repeat split; auto; lia.
  - destruct (cleanupBlacklist_over sm Hgt) as [Hempty Hsec].
    assert (Hsmall : (size (tokenBlacklist (cleanupBlacklist sm)) <= 1000)%nat)
      by (rewrite Hempty, size_empty; lia).
    repeat split; auto.
    + rewrite Hempty. apply empty_subseteq.
    + lia.
    + now apply cleanupBlacklist_within.
Qed.

End TokenFacts.

Section LifecycleFacts.
Context `{Jwt.Primitives}.
Variable compare : string -> string -> bool.
Variable secret : string.
Variable env : process_env.
Variable sm : SessionManager.t.
Import SessionManager.

Let login := Server.login compare (server_config secret) env sm.

Lemma extract_bearer_header req tok :
  authorization req = Some ("Bearer " ++ tok) ->
  Str.occurs " " tok = false ->
  extract_token req = Some tok.
Proof.
  intros Hauth Hfree. unfold extract_token. rewrite Hauth.
  change ("Bearer " ++ tok) with ("Bearer" ++ String " " tok).
  rewrite truthy_app_cons, split_app by reflexivity.
  now rewrite split_free.
Qed.

Lemma generateToken_truthy user req now :
  Str.truthy (generateToken sm user req now) = true.
Proof. unfold generateToken. rewrite sign_shape. apply truthy_app_cons. Qed.

(** X6. The life of a session, end to end. A login with the right
    password for an account that is not locked is answered 200 with a
    token for that user after one comparison, and resets the account's
    counter and lock and stamps [last_login]. Sent as a bearer token
    before it expires, the token is accepted by the verify endpoint and by
    the logout endpoint, which revokes it; after that both endpoints
    answer 403 for it at any time, and a second logout changes nothing. *)
Theorem X6_session_lifecycle db req c user carrier v :
  admitted env req c ->
  Db.select_by_username (body_username req) db = Some user ->
  Server.isLocked user (Server.at_check c) = false ->
  compare (body_password req) (Db.password_hash user) = true ->
  let token := generateToken sm user req (Server.after_compare c) in
  authorization carrier = Some ("Bearer " ++ token) ->
  Str.occurs " " token = false ->
  token ∉ tokenBlacklist sm ->
  v / 1000 < Server.after_compare c / 1000 + 30 * 60 ->
  let r := login db req c in
  Server.res r =
    {| status := 200;
       body := LoginBody "Login successful" token (Db.id user)
                 (Db.username user) (Db.role user) |} /\
  Server.comparisons r = 1%nat /\
  (Server.update_throws c = false ->
     Db.select_by_username (body_username req) (Server.users_after r)
       = Some (Db.set_success (Server.after_compare c) user)) /\
  status (Server.verify env sm carrier v) = 200 /\
  Server.logout env sm carrier v =
    (revokeToken sm token,
     {| status := 200;
        body := LogoutBody "Logout successful" v (Db.id user)
                  (Db.username user) |}) /\
  (forall v',
     status (Server.verify env (revokeToken sm token) carrier v') = 403 /\
     fst (Server.logout env (revokeToken sm token) carrier v')
       = revokeToken sm token /\
     status (snd (Server.logout env (revokeToken sm token) carrier v')) = 403).
Proof.
  intros Hadm Hsel Hunl Hcmp token Hauth Hfree Hfresh Hv r.
  pose proof (extract_bearer_header carrier token Hauth Hfree) as Hx.
  pose proof (generateToken_truthy user req (Server.after_compare c)) as Ht.
  fold token in Ht.
  assert (Hr : r = {| Server.res :=
                        {| status := 200;
                           body := LoginBody "Login successful" token
                                     (Db.id user) (Db.username user)
                                     (Db.role user) |};
                      Server.users_after :=
                        if Server.update_throws c then db
                        else Db.update_success (Server.after_compare c)
                               (Db.id user) db;
                      Server.comparisons := 1 |}).
  { subst r. unfold login.
    rewrite (login_admitted compare secret env sm db req c Hadm).
    now rewrite Hsel, Hunl, Hcmp. }
  assert (Hnext : authenticate sm env carrier v
                  = Next (issued_claims user req (Server.after_compare c)) token).
  { rewrite (authenticate_with_token sm env carrier v token Hx Ht).
    unfold token. now rewrite verifyToken_fresh. }
  assert (Hrefused : forall v',
            exists res, authenticate (revokeToken sm token) env carrier v'
                        = Responded res /\ status res = 403).
  { intros v'.
    rewrite (authenticate_with_token _ env carrier v' token Hx Ht).
    pose proof (verifyToken_revoked (revokeToken sm token) env token carrier v')
      as Hrev.
    destruct (snd (verifyToken (revokeToken sm token) env token carrier v')).
    - discriminate Hrev. apply revokeToken_elem. now left.
    - eexists. split; reflexivity. }
  rewrite Hr. simpl.
  split; [reflexivity|]. split; [reflexivity|]. split.
  { intros ->. now apply select_update_success. }
  split; [unfold Server.verify; now rewrite Hnext|]. split.
  { unfold Server.logout. rewrite Hnext, Ht. reflexivity. }
  intros v'. destruct (Hrefused v') as (res & Ha & Hst).
  unfold Server.verify, Server.logout. rewrite Ha. simpl. auto.
Qed.

End LifecycleFacts.

(** ** More on the login endpoint *)

(** An account carries a lock expiry exactly when its counter has reached
    five, and the counter is not negative. *)
Definition lock_consistent (r : Db.user_row) : Prop :=
  0 <= Db.login_attempts r /\
  (Db.locked_until r <> None <-> 5 <= Db.login_attempts r).

Lemma lookup_map {A B} (f : A -> B) (l : list A) (i : nat) :
  List.map f l !! i = f <$> (l !! i).
Proof.
  revert i. induction l as [|x l IH]; intros [|i]; simpl; auto.
Qed.

Section LoginFacts.
Context `{Jwt.Primitives}.
Variable compare : string -> string -> bool.
Variable secret : string.
Variable env : process_env.
Variable sm : SessionManager.t.

Let login := Server.login compare (server_config secret) env sm.
Let login_run := Server.login_run compare (server_config secret) env sm.

(** The table after a request is the table with one function applied to
    the rows that carry the id of the addressed account. *)
Lemma login_users_after db req c :
  Server.users_after (login db req c) = db \/
  exists user,
    admitted env req c /\
    Db.select_by_username (body_username req) db = Some user /\
    Server.isLocked user (Server.at_check c) = false /\
    Server.update_throws c = false /\
    ((compare (body_password req) (Db.password_hash user) = false /\
      Server.users_after (login db req c) =
        Db.update_failed (Db.login_attempts user + 1)
          (if (5 <=? Db.login_attempts user + 1)%Z
           then Some (Server.after_compare c + 15 * 60 * 1000) else None)
          (Db.id user) db) \/
     (compare (body_password req) (Db.password_hash user) = true /\
      Server.users_after (login db req c) =
        Db.update_success (Server.after_compare c) (Db.id user) db)).
Proof.
  destruct (admitted_dec env req c) as [Hadm|Hnot].
  - unfold login. rewrite (login_admitted compare secret env sm db req c Hadm).
    destruct (Db.select_by_username (body_username req) db) as [user|] eqn:Hsel;
      [|now left].
    destruct (Server.isLocked user (Server.at_check c)) eqn:Hlock; [now left|].
    destruct (Server.update_throws c) eqn:Hupd.
    { destruct (compare _ _); now left. }
    right. exists user.
    do 4 (split; [first [exact Hadm|exact Hlock|reflexivity]|]).
    destruct (compare (body_password req) (Db.password_hash user)) eqn:Hcmp;
      simpl; [right|left]; split; reflexivity.
  - left. now destruct (login_not_admitted compare secret env sm db req c Hnot)
      as (_ & _ & ?).
Qed.

(** X7. A login for a username that is not in the table is answered 401
    "Invalid credentials", the very answer given to a wrong password for
    an existing account; it makes no password comparison and leaves the
    table as it is. *)
Theorem X7_unknown_user db req c :
  admitted env req c ->
  Db.select_by_username (body_username req) db = None ->
  Server.res (login db req c) = invalid_credentials /\
  Server.comparisons (login db req c) = 0%nat /\
  Server.users_after (login db req c) = db /\
  (forall db' req' c' user,
     admitted env req' c' ->
     Db.select_by_username (body_username req') db' = Some user ->
     Server.isLocked user (Server.at_check c') = false ->
     compare (body_password req') (Db.password_hash user) = false ->
     Server.res (login db' req' c') = Server.res (login db req c) /\
     Server.comparisons (login db' req' c') = 1%nat).
Proof.
  intros Hadm Hnone. unfold login.
  rewrite (login_admitted compare secret env sm db req c Hadm), Hnone.
  do 3 (split; [reflexivity|]).
  intros db' req' c' user Hadm' Hsel' Hunl' Hcmp'.
  rewrite (login_admitted compare secret env sm db' req' c' Hadm'),
    Hsel', Hunl', Hcmp'.
  now split.
Qed.

(** X8. No login request adds or removes a row or changes the id, the
    username, the password hash or the role of any row; a row is changed
    at all only if it carries the id of the account the request
    addresses. *)
Theorem X8_login_frame (db : list Db.user_row) req c :
  length (Server.users_after (login db req c)) = length db /\
  (forall i r,
     db !! i = Some r ->
     exists r',
       Server.users_after (login db req c) !! i = Some r' /\
       Db.id r' = Db.id r /\ Db.username r' = Db.username r /\
       Db.password_hash r' = Db.password_hash r /\ Db.role r' = Db.role r /\
       (r' = r \/
        exists user,
          Db.select_by_username (body_username req) db = Some user /\
          Db.id r = Db.id user)).
Proof.
  assert (Hmap : forall (f : Db.user_row -> Db.user_row) uid,
            (forall r, Db.id (f r) = Db.id r /\ Db.username (f r) = Db.username r /\
                       Db.password_hash (f r) = Db.password_hash r /\
                       Db.role (f r) = Db.role r) ->
            forall i r, db !! i = Some r ->
            exists r',
              List.map (fun r => if (Db.id r =? uid)%Z then f r else r) db !! i
                = Some r' /\
              Db.id r' = Db.id r /\ Db.username r' = Db.username r /\
              Db.password_hash r' = Db.password_hash r /\ Db.role r' = Db.role r /\
              (r' = r \/ Db.id r = uid)).
  { intros f uid Hf i r Hi.
    exists (if (Db.id r =? uid)%Z then f r else r). split.
    - now rewrite lookup_map, Hi.
    - destruct (Z.eqb_spec (Db.id r) uid); [|now repeat split; auto].
      destruct (Hf r) as (? & ? & ? & ?). repeat split; auto. }
  destruct (login_users_after db req c)
    as [->|(user & _ & Hsel & _ & _ & [[_ ->]|[_ ->]])].
  - split; [reflexivity|]. intros i r Hi. exists r. repeat split; auto.
  - split; [apply length_map|]. intros i r Hi.
    destruct (Hmap (Db.set_failed (Db.login_attempts user + 1)
                      (if (5 <=? Db.login_attempts user + 1)%Z
                       then Some (Server.after_compare c + 15 * 60 * 1000)
                       else None)) (Db.id user)
                (fun r => ltac:(repeat split)) i r Hi)
      as (r' & Hr' & ? & ? & ? & ? & Hor).
    exists r'. repeat split; auto. destruct Hor; eauto.
  - split; [apply length_map|]. intros i r Hi.
    destruct (Hmap (Db.set_success (Server.after_compare c)) (Db.id user)
                (fun r => ltac:(repeat split)) i r Hi)
      as (r' & Hr' & ? & ? & ? & ? & Hor).
    exists r'. repeat split; auto. destruct Hor; eauto.
Qed.

(** A body whose password is not a string never changes the table, and
    on a locked account it is answered like any other. *)
Lemma login_odd_users_after db req c :
  Server.users_after
    (Server.login_odd compare (server_config secret) env sm db req c) = db.
Proof.
  unfold Server.login_odd, Server.login_with.
  destruct (Server.validation_errors req); [|reflexivity].
  destruct (Server.success _); simpl; [|reflexivity].
  destruct (Server.select_throws c); [reflexivity|].
  destruct (Db.select_by_username _ _) as [user|]; [|reflexivity].
  now destruct (Server.isLocked _ _).
Qed.

Lemma login_odd_locked db req c user :
  admitted env req c ->
  Db.select_by_username (body_username req) db = Some user ->
  Server.isLocked user (Server.at_check c) = true ->
  Server.login_odd compare (server_config secret) env sm db req c =
    {| Server.res := locked_response; Server.users_after := db;
       Server.comparisons := 0 |}.
Proof.
  intros (Hval & Hcap & Hthrows) Hsel Hlock.
  unfold Server.login_odd, Server.login_with.
  now rewrite Hval, Hcap, Hthrows, Hsel, Hlock.
Qed.

(** X10. Whatever the request and whatever was stored before, every row
    that a login writes carries a lock expiry exactly when its counter is
    at least five; so a table in which this holds of every row keeps it
    under every run of the login route, whatever the limiters stop. *)
Theorem X10_lock_consistency_kept l db reqs :
  Forall lock_consistent db ->
  Forall lock_consistent (snd (fst (login_run l db reqs))).
Proof.
  assert (Hstep : forall db req c,
            Forall lock_consistent db ->
            Forall lock_consistent (Server.users_after (login db req c))).
  { clear db. intros db req c Hdb.
    destruct (login_users_after db req c)
      as [->|(user & _ & Hsel & _ & _ & [[_ ->]|[_ ->]])]; [exact Hdb| |].
    - assert (Huser : lock_consistent user).
      { apply (proj1 (Forall_forall _ _) Hdb).
        unfold Db.select_by_username in Hsel.
        apply find_some in Hsel as [Hin _]. now apply list_elem_of_In. }
      unfold Db.update_failed. apply Forall_fmap.
      eapply Forall_impl; [exact Hdb|]. intros r Hr. simpl.
      destruct (Db.id r =? Db.id user)%Z; [|exact Hr].
      destruct Huser as [Hnn _]. unfold lock_consistent. simpl.
      split; [lia|].
      destruct (Z.leb_spec 5 (Db.login_attempts user + 1)); split; intros;
        try lia; try discriminate; congruence.
    - unfold Db.update_success. apply Forall_fmap.
      eapply Forall_impl; [exact Hdb|]. intros r Hr. simpl.
      destruct (Db.id r =? Db.id user)%Z; [|exact Hr].
      unfold lock_consistent. simpl. split; [lia|]. split; [congruence|lia]. }
  revert l db. induction reqs as [|a reqs IH]; intros l db Hdb; [exact Hdb|].
  unfold login_run in *. simpl.
  destruct a as [req c|req c|auth ip|auth ip]; simpl.
  - destruct (snd (Server.limited l (req_ip req))); simpl.
    + specialize (IH (fst (Server.limited l (req_ip req))) db Hdb).
      now destruct (Server.login_run _ _ _ _ _ _ reqs) as [[rs db'] n].
    + specialize (IH (fst (Server.limited l (req_ip req))) _
                    (Hstep db req c Hdb)). fold login.
      now destruct (Server.login_run _ _ _ _ _ _ reqs) as [[rs db'] n].
  - destruct (snd (Server.limited l (req_ip req))); simpl;
      rewrite ?login_odd_users_after;
      specialize (IH (fst (Server.limited l (req_ip req))) db Hdb);
      now destruct (Server.login_run _ _ _ _ _ _ reqs) as [[rs db'] n].
  - now apply IH.
  - now apply IH.
Qed.

(** X9. Attempts made while an account is locked change nothing: each is
    answered 423 by the handler, or 429 by a limiter that stops it
    before, and in neither case is a password compared or the table,
    with the counter and the lock expiry, touched. Hammering a locked
    account neither prolongs nor shortens the lock, whatever else
    arrives in between. *)
Theorem X9_locked_attempts_change_nothing l db name user until arrivals :
  Db.select_by_username name db = Some user ->
  Db.locked_until user = Some until ->
  Forall (fun a =>
            match a with
            | Server.Attempt req c | Server.AttemptOdd req c =>
                body_username req = name /\ admitted env req c /\
                Server.at_check c < until
            | _ => True
            end) arrivals ->
  login_run l db arrivals =
    (List.map (fun v => match v with
                        | Some stopped => stopped
                        | None => locked_response
                        end) (Server.verdicts l arrivals), db, 0%nat) /\
  Forall (fun r => status r = 423 \/ status r = 429)
    (fst (fst (login_run l db arrivals))).
Proof.
  intros Hsel Huntil Hall.
  assert (Hrun : login_run l db arrivals =
            (List.map (fun v => match v with
                                | Some stopped => stopped
                                | None => locked_response
                                end) (Server.verdicts l arrivals), db, 0%nat)).
  { revert l. induction Hall as [|a arrivals Ha _ IH]; intros l;
      [reflexivity|].
    unfold login_run in *. simpl.
    destruct a as [req c|req c|auth ip|auth ip]; simpl.
    - destruct Ha as (Hname & Hadm & Hbefore).
      destruct (snd (Server.limited l (req_ip req))); simpl.
      + now rewrite IH.
      + rewrite (login_locked compare secret env sm db req c user Hadm);
          [|now rewrite Hname|apply isLocked_true; eauto].
        simpl. now rewrite IH.
    - destruct Ha as (Hname & Hadm & Hbefore).
      destruct (snd (Server.limited l (req_ip req))); simpl.
      + now rewrite IH.
      + rewrite (login_odd_locked db req c user Hadm);
          [|now rewrite Hname|apply isLocked_true; eauto].
        simpl. now rewrite IH.
    - apply IH.
    - apply IH. }
  split; [exact Hrun|]. rewrite Hrun. simpl. clear Hrun Hall.
  revert l. induction arrivals as [|a arrivals IH]; intros l;
    [constructor|].
  simpl. destruct a as [req c|req c|auth ip|auth ip]; simpl; try apply IH.
  - constructor; [|apply IH].
    destruct (snd (Server.limited l (req_ip req))) as [r|] eqn:Hstop;
      [right; now apply (limited_status l (req_ip req))|now left].
  - constructor; [|apply IH].
    destruct (snd (Server.limited l (req_ip req))) as [r|] eqn:Hstop;
      [right; now apply (limited_status l (req_ip req))|now left].
Qed.

End LoginFacts.

(** X11. [verifyCaptcha] accepts exactly when the captcha response is
    present and not empty and either the process runs in development mode
    (NODE_ENV unset, empty or "development"), or an hCaptcha secret is
    configured and the service reports success. In development mode the
    service's answer plays no part, and an accepted captcha carries no
    error text. *)
Theorem X11_verifyCaptcha_accepts env token remote :
  let development :=
    NODE_ENV env = None \/ NODE_ENV env = Some "" \/
    NODE_ENV env = Some "development" in
  (Server.success (Server.verifyCaptcha env token remote) = true <->
     (exists tok, token = Some tok /\ tok <> "") /\
     (development \/
      (exists s, HCAPTCHA_SECRET env = Some s /\ s <> "") /\
      remote = Server.Verdict true)) /\
  (development ->
   forall remote',
     Server.verifyCaptcha env token remote' = Server.verifyCaptcha env token remote) /\
  (Server.success (Server.verifyCaptcha env token remote) = true <->
     Server.error (Server.verifyCaptcha env token remote) = None).
Proof.
  intros development. subst development. unfold Server.verifyCaptcha.
  destruct token as [[|ch tok]|]; simpl.
  1,3: split; [split; [discriminate|]|split; [reflexivity|split; discriminate]].
  1,2: intros [(t & E & Hne) _]; congruence.
  repeat case_bool_decide; simpl;
    try (split; [split; [intros _; split; [eexists; split; [reflexivity|discriminate]|tauto]|reflexivity]
                |split; [reflexivity|tauto]]).
  destruct (HCAPTCHA_SECRET env) as [[|sc s]|]; simpl;
    [| |].
  - split; [split; [discriminate|]|split; [tauto|split; discriminate]].
    intros [_ [[?|[?|?]]|[(s & [= <-] & Hne) _]]]; congruence.
  - destruct remote as [|[]|]; simpl;
      (split; [split|split; [tauto|split; (reflexivity || discriminate || auto)]]);
      try discriminate; try reflexivity;
      try (intros _; split; [eexists; split; [reflexivity|discriminate]|];
           right; split; [eexists; split; [reflexivity|discriminate]|reflexivity]);
      try (intros [_ [[?|[?|?]]|[_ ?]]]; congruence).
  - split; [split; [discriminate|]|split; [tauto|split; discriminate]].
    intros [_ [[?|[?|?]]|[(s & ? & _) _]]]; congruence.
Qed.

(** ** The audit log middleware (server.js) *)

Module Audit.

(** The values found in a request body. *)
Inductive json_value :=
| JNull
| JBool (b : bool)
| JNum (n : Z)
| JStr (s : string)
| JArr (items : list json_value)
| JObj (members : list (string * json_value)).

(** [s.includes(word)] *)
Fixpoint includes (word s : string) : bool :=
  String.prefix word s ||
  match s with
  | EmptyString => false
  | String _ s' => includes word s'
  end.

(** The test on a key of the body. *)
Definition sensitive (key : string) : bool :=
  includes "password" key || includes "token" key || includes "captcha" key.

(** What the middleware reads of the request. [body] is [None] when
    [req.body] is missing; the keys of an object are distinct and are
    listed in the order of [Object.keys]. *)
Record audit_request := {
  ar_user : option Jwt.claims;          (* req.user *)
  ar_method : string;
  ar_url : string;
  ar_body : option (list (string * json_value));
  ar_ip : option string;                (* req.ip *)
  ar_remoteAddress : option string;     (* req.connection.remoteAddress *)
  ar_user_agent : option string
}.

(** The request that reaches [auditLog('LOGIN_ATTEMPT')]: the route has no
    [authenticateToken] in front, so no user is attached. *)
Definition login_attempt (req : request) (url : string) : audit_request := {|
  ar_user := None;
  ar_method := "POST";
  ar_url := url;
  ar_body := Some ([("username", JStr (body_username req));
                    ("password", JStr (body_password req))] ++
                   match body_captcha req with
                   | Some r => [("h-captcha-response", JStr r)]
                   | None => []
                   end)%list;
  ar_ip := Some (req_ip req);
  ar_remoteAddress := None;
  ar_user_agent := user_agent req
|}.

(** The object that is stored, as JSON text, in the [details] column. *)
Record details := {
  d_method : string;
  d_url : string;
  d_body : list (string * json_value)
}.

Record audit_entry := {
  user_id : option Z;
  action : string;
  entry_details : details;
  ip_address : option string;
  user_agent : option string
}.

Definition redacted : json_value := JStr "***REDACTED***".

(** A key under which an assignment [acc[key] = ...] creates a property
    of [acc]. The one key under which it does not is [__proto__], which
    [JSON.parse] can well put into a body: there the assignment sets
    the prototype of [acc], or does nothing. *)
Definition own_key (key : string) : bool := negb (String.eqb key "__proto__").

(** The [reduce] over [Object.keys(req.body)], from [{}], as
    [JSON.stringify] then writes it. *)
Definition sanitize (body : list (string * json_value))
    : list (string * json_value) :=
  List.map (fun kv => (fst kv, if sensitive (fst kv) then redacted else snd kv))
    (List.filter (fun kv => own_key (fst kv)) body).

(** [a || b] on optional strings: an empty string is falsy. *)
Definition or_else (a b : option string) : option string :=
  match a with
  | Some s => if Str.truthy s then a else b
  | None => b
  end.

(** [logData] *)
Definition logData (act : string) (req : audit_request) : audit_entry := {|
  user_id := Jwt.id <$> ar_user req;
  action := act;
  entry_details := {|
    d_method := ar_method req;
    d_url := ar_url req;
    d_body := match ar_body req with
              | Some body => sanitize body
              | None => []
              end
  |};
  ip_address := or_else (ar_ip req) (ar_remoteAddress req);
  user_agent := ar_user_agent req
|}.

(** The state of the database handle when the middleware runs. *)
Record handle := {
  connected : bool;        (* db && db.open *)
  insert_throws : bool
}.

(** The middleware returned by [auditLog(action)]: the [audit_logs] table
    it leaves behind. It calls [next()] on every path. *)
Definition auditLog (act : string) (h : handle) (table : list audit_entry)
    (req : audit_request) : list audit_entry :=
  if connected h then
    if insert_throws h then table
    else (table ++ [logData act req])%list
  else table.

End Audit.

Section AuditFacts.
Import Audit.

Lemma prefix_app w s : String.prefix w s = true <-> exists post, s = w ++ post.
Proof.
  revert s. induction w as [|c w IH]; intros s.
  - destruct s; simpl; split; eauto.
  - destruct s as [|d s]; simpl.
    + split; [discriminate|]. intros (post & E). discriminate.
    + destruct (Ascii.ascii_dec c d) as [->|Hne].
      * rewrite IH. split; intros (post & E); exists post.
        -- now rewrite E.
        -- rewrite app_cons in E. now injection E.
      * split; [discriminate|]. intros (post & E).
        rewrite app_cons in E. injection E as E _. congruence.
Qed.

(** [includes] is the substring test. *)
Lemma includes_spec w s :
  includes w s = true <-> exists pre post, s = pre ++ w ++ post.
Proof.
  induction s as [|c s IH].
  - change (includes w "") with (String.prefix w "" || false).
    rewrite orb_false_r, prefix_app. split.
    + intros (post & E). exists "", post. exact E.
    + intros (pre & post & E). destruct pre; [eauto|discriminate].
  - change (includes w (String c s))
      with (String.prefix w (String c s) || includes w s).
    rewrite orb_true_iff, prefix_app, IH. split.
    + intros [(post & E)|(pre & post & E)].
      * exists "", post. exact E.
      * exists (String c pre), post. now rewrite E.
    + intros ([|d pre] & post & E).
      * left. eauto.
      * right. rewrite app_cons in E. injection E as _ E. eauto.
Qed.

Definition names_secret (key : string) : Prop :=
  exists word pre post,
    (word = "password" \/ word = "token" \/ word = "captcha") /\
    key = pre ++ word ++ post.

Lemma sensitive_spec key : sensitive key = true <-> names_secret key.
Proof.
  unfold sensitive, names_secret. rewrite !orb_true_iff, !includes_spec. split.
  - intros [[(pre & post & E)|(pre & post & E)]|(pre & post & E)];
      eexists _, pre, post; eauto.
  - intros (word & pre & post & [->|[->| ->]] & E); eauto.
Qed.

(** X12. The body stored with an audit entry has the keys of the request
    body, in the same order, except a key [__proto__], which is never
    stored. Under a key that contains "password", "token" or "captcha"
    (as written, in lower case) the value is replaced by the redaction
    marker; under every other key the value is stored as sent. Hence two
    requests that differ only in the values under such keys are logged
    alike. *)
Theorem X12_audit_redaction act req body :
  ar_body req = Some body ->
  let logged := d_body (entry_details (logData act req)) in
  let kept := List.filter (fun kv => own_key (fst kv)) body in
  List.map fst logged
    = List.filter (fun k => negb (String.eqb k "__proto__")) (List.map fst body) /\
  (forall i k v,
     kept !! i = Some (k, v) ->
     (names_secret k -> logged !! i = Some (k, redacted)) /\
     (~ names_secret k -> logged !! i = Some (k, v))) /\
  (forall k v, In (k, v) body -> k <> "__proto__" -> In (k, v) kept) /\
  (forall v, ~ In ("__proto__", v) logged) /\
  (forall req' body',
     ar_body req' = Some body' ->
     ar_user req' = ar_user req -> ar_method req' = ar_method req ->
     ar_url req' = ar_url req -> ar_ip req' = ar_ip req ->
     ar_remoteAddress req' = ar_remoteAddress req ->
     ar_user_agent req' = ar_user_agent req ->
     Forall2 (fun kv kv' => fst kv = fst kv' /\
                            (sensitive (fst kv) = false -> snd kv = snd kv'))
       body body' ->
     logData act req' = logData act req).
Proof.
  intros Hbody. unfold logData. rewrite Hbody. simpl.
  split; [|split; [|split; [|split]]].
  - unfold sanitize. rewrite List.map_map. simpl. clear Hbody.
    induction body as [|[k v] body IH]; [reflexivity|].
    simpl. unfold own_key at 1. simpl.
    destruct (negb (String.eqb k "__proto__")); simpl; now rewrite IH.
  - intros i k v Hi. unfold sanitize. rewrite lookup_map, Hi. simpl.
    split; intros Hk.
    + apply sensitive_spec in Hk. now rewrite Hk.
    + destruct (sensitive k) eqn:E; [|reflexivity].
      apply sensitive_spec in E. contradiction.
  - intros k v Hin Hk. apply List.filter_In. split; [exact Hin|].
    unfold own_key. simpl. now apply negb_true_iff, String.eqb_neq.
  - intros v Hin. unfold sanitize in Hin.
    apply List.in_map_iff in Hin as ([k w] & [= -> _] & Hin).
    apply List.filter_In in Hin as [_ Hown]. discriminate.
  - intros req' body' -> -> -> -> -> -> -> Hsame.
    assert (Hbodies : sanitize body' = sanitize body).
    { unfold sanitize. clear Hbody.
      induction Hsame as [|[k v] [k' v'] l l' [Hk Hv] _ IH]; [reflexivity|].
      simpl in *. subst k'. destruct (own_key k); [|exact IH].
      simpl. rewrite IH. f_equal.
      destruct (sensitive k); [reflexivity|]. now rewrite (Hv eq_refl). }
    now rewrite Hbodies.
Qed.

(** X13. The audit table is only ever appended to: the middleware leaves
    the earlier entries in place and adds at most one, exactly one when
    the database handle is open and the INSERT succeeds. For a login
    attempt the entry names no user, stores the username as sent and the
    redaction marker in place of the password and of the captcha
    response. *)
Theorem X13_audit_append_only act h table req :
  (exists added, auditLog act h table req = (table ++ added)%list /\
     (added = [] \/ added = [logData act req]) /\
     (added = [logData act req] <->
        connected h = true /\ insert_throws h = false)) /\
  (forall lreq url,
     let e := logData "LOGIN_ATTEMPT" (login_attempt lreq url) in
     user_id e = None /\
     d_body (entry_details e) =
       ([("username", JStr (body_username lreq)); ("password", redacted)] ++
        match body_captcha lreq with
        | Some _ => [("h-captcha-response", redacted)]
        | None => []
        end)%list).
Proof.
  split.
  - unfold auditLog. destruct (connected h), (insert_throws h).
    + exists []. rewrite app_nil_r. split; [reflexivity|]. split; [now left|].
      split; [discriminate|]. now intros [_ ?].
    + exists [logData act req]. split; [reflexivity|]. split; [now right|].
      now split.
    + exists []. rewrite app_nil_r. split; [reflexivity|]. split; [now left|].
      split; [discriminate|]. now intros [? _].
    + exists []. rewrite app_nil_r. split; [reflexivity|]. split; [now left|].
      split; [discriminate|]. now intros [? _].
  - intros lreq url e. split; [reflexivity|].
    unfold e, logData, login_attempt. simpl.
    destruct (body_captcha lreq); reflexivity.
Qed.

End AuditFacts.

(** ** Slugs of blog posts (server.js) *)

From Stdlib Require Import DecimalString DecimalNat.

Module Slug.

(** A title is a JavaScript string, a sequence of UTF-16 code units, and
    can hold any of them. *)
Definition title := list N.

(** The code units of a string of this development. *)
Definition units (s : string) : title :=
  List.map N_of_ascii (list_ascii_of_string s).

(** The class [[a-z0-9]], of code units and of characters. *)
Definition alnum_unit (n : N) : bool :=
  ((97 <=? n) && (n <=? 122) || (48 <=? n) && (n <=? 57))%N.

Definition alnum (c : ascii) : bool := alnum_unit (N_of_ascii c).

(** [.replace(/[^a-z0-9]+/g, '-')]: every maximal run of other code
    units becomes one hyphen. [in_run] says that the previous code unit
    was part of such a run. What is left are letters, digits and
    hyphens. *)
Fixpoint hyphenate (in_run : bool) (s : title) : string :=
  match s with
  | [] => EmptyString
  | n :: s' =>
      if alnum_unit n then String (ascii_of_N n) (hyphenate false s')
      else if in_run then hyphenate true s'
      else String "-" (hyphenate true s')
  end.

Definition strip_leading (s : string) : string :=
  match s with
  | String c s' => if Ascii.eqb c "-" then s' else s
  | EmptyString => EmptyString
  end.

Fixpoint strip_trailing (s : string) : string :=
  match s with
  | EmptyString => EmptyString
  | String c EmptyString => if Ascii.eqb c "-" then EmptyString else s
  | String c s' => String c (strip_trailing s')
  end.

(** [.replace(/(^-|-$)/g, '')]: a hyphen at the start and a hyphen at the
    end are removed. *)
Definition strip (s : string) : string := strip_trailing (strip_leading s).

Section Runtime.
(** [String.prototype.toLowerCase] is the runtime's: it follows the
    Unicode case mappings, under which a code unit outside ASCII can
    become an ASCII letter (U+212A becomes [k]) and one code unit can
    become two (U+0130 becomes [i] and U+0307). *)
Variable toLowerCase : title -> title.

(** [title.toLowerCase().replace(/[^a-z0-9]+/g, '-').replace(/(^-|-$)/g, '')],
    the base slug of the create and update handlers. *)
Definition baseSlug (t : title) : string :=
  strip (hyphenate false (toLowerCase t)).

End Runtime.

(** The columns of [blogs] that the slug query reads. *)
Record blog_row := { blog_id : Z; slug : string }.

(** [SELECT COUNT( * ) FROM blogs WHERE slug = ?], with [AND id != ?] when
    [excludeId] is given. *)
Definition count (s : string) (excludeId : option Z) (t : list blog_row) : nat :=
  length (List.filter
            (fun r => String.eqb (slug r) s &&
                      match excludeId with
                      | Some e => negb (blog_id r =? e)%Z
                      | None => true
                      end) t).

(** [`${counter}`] *)
Definition decimal (n : nat) : string :=
  NilEmpty.string_of_uint (Nat.to_uint n).

(** The loop of [generateUniqueSlug], run for at most [fuel] queries. *)
Fixpoint search (fuel : nat) (baseSlug : string) (excludeId : option Z)
    (t : list blog_row) (slugToTry : string) (counter : nat) : option string :=
  match fuel with
  | O => None
  | S fuel' =>
      if Nat.eqb (count slugToTry excludeId t) 0 then Some slugToTry
      else search fuel' baseSlug excludeId t
             (baseSlug ++ "-" ++ decimal counter) (S counter)
  end.

(** [generateUniqueSlug(baseSlug, excludeId)]. One query more than the
    table has rows is always enough. *)
Definition generateUniqueSlug (baseSlug : string) (excludeId : option Z)
    (t : list blog_row) : option string :=
  search (S (length t)) baseSlug excludeId t baseSlug 1.

(** The [n]-th slug the loop tries. *)
Definition candidate (baseSlug : string) (n : nat) : string :=
  match n with
  | O => baseSlug
  | S _ => baseSlug ++ "-" ++ decimal n
  end.

(** A slug as the handlers want it: letters, digits and single hyphens,
    no hyphen at either end; the empty slug included. [after_hyphen] says
    that the previous character was a hyphen, or that the string starts
    here. *)
Fixpoint shaped (after_hyphen : bool) (s : string) : bool :=
  match s with
  | EmptyString => true
  | String c s' =>
      if alnum c then shaped false s'
      else Ascii.eqb c "-" && negb after_hyphen &&
           match s' with EmptyString => false | _ => true end &&
           shaped true s'
  end.

End Slug.

Section SlugFacts.
Import Slug.
Variable toLowerCase : title -> title.

(** As [shaped], but a hyphen may end the string. *)
Fixpoint loose (after_hyphen : bool) (s : string) : bool :=
  match s with
  | EmptyString => true
  | String c s' =>
      if alnum c then loose false s'
      else Ascii.eqb c "-" && negb after_hyphen && loose true s'
  end.

Lemma shaped_cons b c s :
  shaped b (String c s) =
    if alnum c then shaped false s
    else Ascii.eqb c "-" && negb b &&
         match s with EmptyString => false | _ => true end && shaped true s.
Proof. reflexivity. Qed.

Lemma alnum_not_hyphen c : alnum c = true -> Ascii.eqb c "-" = false.
Proof.
  intros Hc. destruct (Ascii.eqb_spec c "-") as [->|]; [discriminate|reflexivity].
Qed.

(** A code unit of the class is the character it is written as. *)
Lemma alnum_unit_ascii n :
  alnum_unit n = true -> alnum (ascii_of_N n) = true.
Proof.
  intros Hn. unfold alnum. rewrite N_ascii_embedding; [exact Hn|].
  unfold alnum_unit in Hn.
  destruct (N.leb_spec 97 n), (N.leb_spec n 122), (N.leb_spec 48 n),
    (N.leb_spec n 57); simpl in Hn; try discriminate; lia.
Qed.

Lemma hyphenate_loose b s : loose b (hyphenate b s) = true.
Proof.
  revert b. induction s as [|n s IH]; intros b; [reflexivity|].
  simpl. destruct (alnum_unit n) eqn:Hn.
  - simpl. now rewrite (alnum_unit_ascii n Hn).
  - destruct b; [apply IH|]. simpl. apply IH.
Qed.

Lemma strip_leading_loose s :
  loose false s = true -> loose true (strip_leading s) = true.
Proof.
  destruct s as [|c s]; [reflexivity|]. simpl.
  destruct (alnum c) eqn:Hc.
  - rewrite (alnum_not_hyphen c Hc). simpl. now rewrite Hc.
  - destruct (Ascii.eqb c "-"); [|discriminate]. simpl. tauto.
Qed.

Lemma loose_true_nonempty_strip s :
  loose true s = true -> s <> "" -> strip_trailing s <> "".
Proof.
  destruct s as [|c s]; [congruence|]. intros Hl _. simpl in Hl.
  destruct (alnum c) eqn:Hc.
  - simpl. destruct s; [now rewrite (alnum_not_hyphen c Hc)|discriminate].
  - rewrite andb_false_r in Hl. discriminate.
Qed.

Lemma strip_trailing_shaped b s :
  loose b s = true -> shaped b (strip_trailing s) = true.
Proof.
  revert b. induction s as [|c s IH]; intros b Hl; [reflexivity|].
  simpl in Hl. destruct (alnum c) eqn:Hc.
  - destruct s as [|d s].
    + simpl. rewrite (alnum_not_hyphen c Hc). simpl. now rewrite Hc.
    + change (strip_trailing (String c (String d s)))
        with (String c (strip_trailing (String d s))).
      rewrite shaped_cons, Hc. now apply IH.
  - apply andb_prop in Hl as [Hl Hrest]. apply andb_prop in Hl as [Hdash Hb].
    destruct s as [|d s].
    + simpl. now rewrite Hdash.
    + change (strip_trailing (String c (String d s)))
        with (String c (strip_trailing (String d s))).
      rewrite shaped_cons, Hc, Hdash, Hb, (IH true Hrest).
      pose proof (loose_true_nonempty_strip _ Hrest ltac:(discriminate)) as Hne.
      destruct (strip_trailing (String d s)); [congruence|reflexivity].
Qed.

Lemma baseSlug_shaped t : shaped true (baseSlug toLowerCase t) = true.
Proof.
  unfold baseSlug, strip. apply strip_trailing_shaped, strip_leading_loose.
  apply hyphenate_loose.
Qed.

Lemma shaped_chars b s :
  shaped b s = true ->
  Forall (fun c => alnum c = true \/ c = "-"%char) (list_ascii_of_string s).
Proof.
  revert b. induction s as [|c s IH]; intros b Hs; simpl; [constructor|].
  simpl in Hs. destruct (alnum c) eqn:Hc.
  - constructor; [now left|]. eapply IH, Hs.
  - repeat (apply andb_prop in Hs as [Hs ?]).
    constructor; [right; now apply Ascii.eqb_eq|]. eapply IH; eassumption.
Qed.

Lemma shaped_tail b c s : shaped b (String c s) = true -> exists b', shaped b' s = true.
Proof.
  simpl. destruct (alnum c); [eauto|].
  intros Hs. repeat (apply andb_prop in Hs as [Hs ?]). eauto.
Qed.

Lemma shaped_no_trailing b s pre : shaped b s = true -> s <> pre ++ "-".
Proof.
  revert b s. induction pre as [|c pre IH]; intros b s Hs E; subst s.
  - simpl in Hs. rewrite !andb_false_r in Hs. discriminate.
  - rewrite app_cons in Hs. apply shaped_tail in Hs as [b' Hs].
    now apply (IH b' _ Hs).
Qed.

Lemma shaped_no_double b s pre post : shaped b s = true -> s <> pre ++ "--" ++ post.
Proof.
  revert b s. induction pre as [|c pre IH]; intros b s Hs E; subst s.
  - change ("" ++ "--" ++ post) with (String "-" (String "-" post)) in Hs.
    simpl in Hs. repeat (apply andb_prop in Hs as [Hs ?]). discriminate.
  - rewrite app_cons in Hs. apply shaped_tail in Hs as [b' Hs].
    now apply (IH b' _ Hs).
Qed.

(** A slug that is shaped comes out of the two replacements as it went
    in. *)
Lemma shaped_fixed s :
  shaped true s = true -> strip (hyphenate false (units s)) = s.
Proof.
  intros Hs.
  assert (Hhyph : forall s r b, shaped b s = true -> (r = true -> b = true) ->
            hyphenate r (units s) = s).
  { clear. induction s as [|c s IH]; intros r b Hs Hr; [reflexivity|].
    rewrite shaped_cons in Hs.
    change (units (String c s)) with (N_of_ascii c :: units s).
    simpl. fold (alnum c). destruct (alnum c).
    - now rewrite ascii_N_embedding, (IH false false Hs).
    - repeat (apply andb_prop in Hs as [Hs ?]).
      apply Ascii.eqb_eq in Hs. subst c.
      destruct b; [discriminate|]. destruct r; [now specialize (Hr eq_refl)|].
      now rewrite (IH true true). }
  assert (Htrail : forall s b, shaped b s = true -> strip_trailing s = s).
  { clear. induction s as [|c s IH]; intros b Hs; [reflexivity|].
    destruct s as [|d s].
    - rewrite shaped_cons in Hs. simpl. destruct (alnum c) eqn:Hc;
        [now rewrite (alnum_not_hyphen c Hc)|].
      rewrite !andb_false_r in Hs. discriminate.
    - change (strip_trailing (String c (String d s)))
        with (String c (strip_trailing (String d s))).
      apply shaped_tail in Hs as [b' Hs]. now rewrite (IH b' Hs). }
  unfold strip. rewrite (Hhyph s false true Hs) by discriminate.
  assert (Hlead : strip_leading s = s).
  { destruct s as [|c s]; [reflexivity|]. rewrite shaped_cons in Hs. simpl.
    destruct (alnum c) eqn:Hc; [now rewrite (alnum_not_hyphen c Hc)|].
    rewrite andb_false_r in Hs. discriminate. }
  rewrite Hlead. now apply (Htrail s true).
Qed.

(** The first replacement writes a letter or digit exactly where it
    meets one. *)
Lemma hyphenate_blank b t :
  Forall (fun c => alnum c = false) (list_ascii_of_string (hyphenate b t)) <->
  Forall (fun n => alnum_unit n = false) t.
Proof.
  revert b. induction t as [|n t IH]; intros b; simpl.
  - split; constructor.
  - destruct (alnum_unit n) eqn:Hn.
    + simpl. split; intros Hall; apply Forall_cons in Hall as [Hc _].
      * rewrite (alnum_unit_ascii n Hn) in Hc. discriminate.
      * congruence.
    + destruct b; simpl; rewrite ?Forall_cons, IH; tauto.
Qed.

Lemma strip_empty s :
  strip s = "" -> s = "" \/ s = "-" \/ s = "--".
Proof.
  assert (Htrail : forall r, strip_trailing r = "" -> r = "" \/ r = "-").
  { intros [|c [|d r]]; simpl; [now left| |discriminate].
    destruct (Ascii.eqb_spec c "-") as [->|]; [now right|discriminate]. }
  unfold strip. destruct s as [|c s]; [now left|]. simpl.
  destruct (Ascii.eqb_spec c "-") as [->|Hc]; intros [E|E]%Htrail.
  - subst s. now right; left.
  - subst s. now right; right.
  - discriminate.
  - injection E as -> ->. contradiction.
Qed.

(** X14. The base slug of a title consists of lower-case ASCII letters,
    digits and hyphens only; it neither starts nor ends with a hyphen and
    has no two hyphens in a row. It is empty exactly when the title, put
    in lower case, has no ASCII letter or digit in it. Where lower-casing
    leaves such slugs as they are, taking the base slug of a base slug
    changes nothing. *)
Theorem X14_baseSlug_shape t :
  let s := baseSlug toLowerCase t in
  Forall (fun c => alnum c = true \/ c = "-"%char) (list_ascii_of_string s) /\
  (forall post, s <> String "-" post) /\
  (forall pre, s <> pre ++ "-") /\
  (forall pre post, s <> pre ++ "--" ++ post) /\
  (s = "" <-> Forall (fun n => alnum_unit n = false) (toLowerCase t)) /\
  ((forall u, shaped true u = true -> toLowerCase (units u) = units u) ->
   baseSlug toLowerCase (units s) = s).
Proof.
  intros s. pose proof (baseSlug_shaped t) as Hs. fold s in Hs.
  split; [now apply (shaped_chars true)|]. split.
  { intros post E. rewrite E, shaped_cons in Hs. simpl in Hs.
    discriminate. }
  split; [intros pre; now apply (shaped_no_trailing true)|].
  split; [intros pre post; now apply (shaped_no_double true)|].
  split.
  - split.
    + intros Hempty. apply (hyphenate_blank false). subst s.
      destruct (strip_empty _ Hempty) as [->|[->| ->]]; repeat constructor.
    + intros Hnone. subst s. unfold baseSlug.
      apply (hyphenate_blank false) in Hnone.
      pose proof (hyphenate_loose false (toLowerCase t)) as Hloose.
      destruct (hyphenate false (toLowerCase t)) as [|c [|d h]];
        [reflexivity| |].
      * apply Forall_cons in Hnone as [Hc _]. simpl in Hloose.
        rewrite Hc in Hloose. apply andb_prop in Hloose as [Hloose _].
        apply andb_prop in Hloose as [Hdash _].
        unfold strip. simpl. now rewrite Hdash.
      * apply Forall_cons in Hnone as [Hc Hnone].
        apply Forall_cons in Hnone as [Hd _]. simpl in Hloose.
        rewrite Hc, Hd in Hloose.
        destruct (Ascii.eqb c "-"), (Ascii.eqb d "-"); discriminate.
  - intros Hlower. unfold baseSlug at 1. rewrite (Hlower s Hs).
    now apply shaped_fixed.
Qed.

Lemma decimal_inj n m : decimal n = decimal m -> n = m.
Proof.
  unfold decimal. intros E.
  apply (f_equal NilEmpty.uint_of_string) in E.
  rewrite !NilEmpty.usu in E. injection E as E.
  now apply DecimalNat.Unsigned.to_uint_inj.
Qed.

Lemma candidate_inj base n m : candidate base n = candidate base m -> n = m.
Proof.
  assert (Happ : forall a b, String.length (a ++ b) =
                             (String.length a + String.length b)%nat).
  { induction a as [|c a IH]; intros b; [reflexivity|].
    rewrite app_cons. simpl. now rewrite IH. }
  assert (Hlen : forall k, candidate base (S k) <> base).
  { intros k E. apply (f_equal String.length) in E. simpl in E.
    rewrite Happ in E. rewrite app_cons in E. simpl in E. lia. }
  destruct n as [|n], m as [|m]; intros E.
  - reflexivity.
  - symmetry in E. now apply Hlen in E.
  - now apply Hlen in E.
  - simpl in E. do 2 apply String.app_inj in E. now apply decimal_inj.
Qed.

Lemma count_pos_elem s excl t :
  count s excl t <> 0%nat -> In s (List.map slug t).
Proof.
  unfold count. induction t as [|r t IH]; simpl; [congruence|].
  destruct (String.eqb_spec (slug r) s) as [E|_]; simpl; [now left; subst|].
  intros Hc. right. now apply IH.
Qed.

(** Among the first rows-plus-one slugs the loop would try, one is not
    taken. *)
Lemma some_candidate_free base excl t :
  exists k, (k <= length t)%nat /\ count (candidate base k) excl t = 0%nat.
Proof.
  destruct (List.Exists_dec
              (fun k => count (candidate base k) excl t = 0%nat)
              (seq 0 (S (length t)))
              (fun k => Nat.eq_dec _ _)) as [Hex|Hnone].
  - apply List.Exists_exists in Hex as (k & Hk & Hfree).
    apply in_seq in Hk. exists k. split; [lia|exact Hfree].
  - exfalso.
    assert (Hincl : incl (List.map (candidate base) (seq 0 (S (length t))))
                         (List.map slug t)).
    { intros s (k & <- & Hk)%in_map_iff.
      apply (count_pos_elem _ excl). intros Hz. apply Hnone.
      apply List.Exists_exists. eauto. }
    apply NoDup_incl_length in Hincl.
    + rewrite !length_map, length_seq in Hincl. lia.
    + apply Finite.Injective_map_NoDup; [|apply List.seq_NoDup].
      intros i j. apply candidate_inj.
Qed.

Lemma search_finds base excl t fuel : forall i k,
  count (candidate base k) excl t = 0%nat ->
  (forall j, (i <= j < k)%nat -> count (candidate base j) excl t <> 0%nat) ->
  (i <= k < i + fuel)%nat ->
  search fuel base excl t (candidate base i) (S i) = Some (candidate base k).
Proof.
  induction fuel as [|fuel IH]; intros i k Hfree Htaken Hk; [lia|].
  simpl. destruct (Nat.eqb_spec (count (candidate base i) excl t) 0) as [Hz|Hnz].
  - destruct (Nat.eq_dec i k) as [->|Hne]; [reflexivity|].
    exfalso. apply (Htaken i); [lia|exact Hz].
  - destruct (Nat.eq_dec i k) as [->|Hne]; [contradiction|].
    change (base ++ "-" ++ decimal (S i)) with (candidate base (S i)).
    apply IH; [exact Hfree| |lia]. intros j Hj. apply Htaken. lia.
Qed.

(** X15. [generateUniqueSlug] comes to an end: after at most one query
    more than the table has rows it returns a slug, and more queries
    allowed return the same. The slug returned is not in use (by a row
    other than the excluded one); it is the base slug itself when that is
    free, and otherwise the base slug followed by a hyphen and the
    smallest number from 1 on that makes it free, a number no larger than
    the number of rows. *)
Theorem X15_generateUniqueSlug base excl t :
  exists k,
    (k <= length t)%nat /\
    generateUniqueSlug base excl t = Some (candidate base k) /\
    count (candidate base k) excl t = 0%nat /\
    (forall j, (j < k)%nat -> count (candidate base j) excl t <> 0%nat) /\
    (count base excl t = 0%nat -> k = 0%nat) /\
    (forall fuel, (length t < fuel)%nat ->
       search fuel base excl t base 1 = Some (candidate base k)).
Proof.
  destruct (some_candidate_free base excl t) as (k0 & Hk0 & Hfree0).
  assert (Hleast : exists k, (k <= k0)%nat /\
            count (candidate base k) excl t = 0%nat /\
            forall j, (j < k)%nat -> count (candidate base j) excl t <> 0%nat).
  { clear Hk0. induction k0 as [k0 IH] using lt_wf_ind.
    destruct (List.Exists_dec
                (fun j => count (candidate base j) excl t = 0%nat)
                (seq 0 k0) (fun j => Nat.eq_dec _ _)) as [Hex|Hnone].
    - apply List.Exists_exists in Hex as (j & Hj & Hfj). apply in_seq in Hj.
      destruct (IH j ltac:(lia) Hfj) as (k & Hk & Hfk & Hmin).
      exists k. split; [lia|auto].
    - exists k0. split; [lia|]. split; [exact Hfree0|].
      intros j Hj Hz. apply Hnone, List.Exists_exists.
      exists j. split; [apply in_seq; lia|exact Hz]. }
  destruct Hleast as (k & Hk & Hfree & Hmin).
  assert (Hsearch : forall fuel, (length t < fuel)%nat ->
            search fuel base excl t base 1 = Some (candidate base k)).
  { intros fuel Hfuel.
    apply (search_finds base excl t fuel 0 k Hfree); [|lia].
    intros j Hj. apply Hmin. lia. }
  exists k. split; [lia|]. split; [apply Hsearch; lia|].
  split; [exact Hfree|]. split; [exact Hmin|]. split; [|exact Hsearch].
  intros Hbase. destruct k as [|k]; [reflexivity|].
  exfalso. now apply (Hmin 0%nat ltac:(lia)).
Qed.

End SlugFacts.

(* --------------------------------------------------------------------- *)
(** ** The attempt log of the class CryptoUtils *)

Module CryptoUtils.

(** [rateLimitConfig] *)
Definition maxAttempts : nat := 5.
Definition windowMs : Z := 15 * 60 * 1000.

(** The item [login_attempts] of [localStorage]: absent, or the array
    written by [recordFailedAttempt]. *)
Definition stored := option (list Z).

(** [getStoredAttempts()] *)
Definition getStoredAttempts (s : stored) : list Z :=
  match s with
  | Some attempts => attempts
  | None => []
  end.

(** [attempts.filter(attempt => now - attempt < windowMs)] *)
Definition recent (now : Z) (attempts : list Z) : list Z :=
  List.filter (fun attempt => (now - attempt <? windowMs)%Z) attempts.

(** [Math.ceil(ms / 1000 / 60)] *)
Definition minutes (ms : Z) : Z := - ((- ms) / 60000).

(** A number inside a template literal. *)
Definition number (z : Z) : string := NilEmpty.string_of_int (Z.to_int z).

Definition too_many (timeRemaining : Z) : string :=
  "Too many login attempts. Please try again in " ++ number timeRemaining
    ++ " minutes.".

(** [checkRateLimit()]; [recentAttempts[0]] is read only when the array
    has five entries or more. *)
Definition checkRateLimit (s : stored) (now : Z) : outcome unit string :=
  let recentAttempts := recent now (getStoredAttempts s) in
  if (maxAttempts <=? length recentAttempts)%nat then
    let timeRemaining := minutes (hd 0 recentAttempts + windowMs - now) in
    Throws (too_many timeRemaining)
  else Returns tt.

(** [recordFailedAttempt()]; the readings of [Date.now()] within the
    call are taken in the same millisecond. *)
Definition recordFailedAttempt (s : stored) (now : Z) : stored :=
  Some (recent now (getStoredAttempts s ++ [now])%list).

(** [clearFailedAttempts()] *)
Definition clearFailedAttempts (s : stored) : stored := None.

End CryptoUtils.

(** ** The rest of AuthManager (scripts/auth-manager.js) *)

Module Client.
Import AuthManager.

(** [this.currentUser]: the [user] object of a reply, or the name and
    role of the stored session. *)
Record user := {
  cu_id : option Z;
  cu_username : string;
  cu_role : string
}.

(** One page with its manager: the storage, timers and banners, the
    attempt log, [this.currentUser], the last value assigned to
    [window.location.href] and the message shown by [showError]. *)
Record client := {
  page : browser;
  stored_attempts : CryptoUtils.stored;
  currentUser : option user;
  href : option string;
  error_message : option string
}.

Definition on_page (f : browser -> browser) (c : client) : client := {|
  page := f (page c);
  stored_attempts := stored_attempts c;
  currentUser := currentUser c;
  href := href c;
  error_message := error_message c
|}.

Definition set_attempts (s : CryptoUtils.stored) (c : client) : client := {|
  page := page c;
  stored_attempts := s;
  currentUser := currentUser c;
  href := href c;
  error_message := error_message c
|}.

Definition set_currentUser (u : option user) (c : client) : client := {|
  page := page c;
  stored_attempts := stored_attempts c;
  currentUser := u;
  href := href c;
  error_message := error_message c
|}.

Definition set_href (h : string) (c : client) : client := {|
  page := page c;
  stored_attempts := stored_attempts c;
  currentUser := currentUser c;
  href := Some h;
  error_message := error_message c
|}.

(** [showError(message)] *)
Definition showError (message : string) (c : client) : client := {|
  page := page c;
  stored_attempts := stored_attempts c;
  currentUser := currentUser c;
  href := href c;
  error_message := Some message
|}.

(** [hideError()] *)
Definition hideError (c : client) : client := {|
  page := page c;
  stored_attempts := stored_attempts c;
  currentUser := currentUser c;
  href := href c;
  error_message := None
|}.

(** [redirectToAdmin()] and [redirectToLogin()] *)
Definition redirectToAdmin : client -> client := set_href "admin.html".
Definition redirectToLogin : client -> client := set_href "login.html".

(** [clearTimers()] *)
Definition clearTimers (b : browser) : browser := {|
  auth_session := auth_session b;
  auth_fingerprint := auth_fingerprint b;
  auth_active := auth_active b;
  csrf_token := csrf_token b;
  sessionTimer := None;
  warningTimer := None;
  warnings := warnings b
|}.

(** [clearSession()] *)
Definition clearSession (b : browser) : browser := {|
  auth_session := None;
  auth_fingerprint := None;
  auth_active := None;
  csrf_token := None;
  sessionTimer := sessionTimer b;
  warningTimer := warningTimer b;
  warnings := warnings b
|}.

(** [showSessionWarning()]: one more banner in the page. *)
Definition showSessionWarning (b : browser) : browser := {|
  auth_session := auth_session b;
  auth_fingerprint := auth_fingerprint b;
  auth_active := auth_active b;
  csrf_token := csrf_token b;
  sessionTimer := sessionTimer b;
  warningTimer := warningTimer b;
  warnings := S (warnings b)
|}.

(** [handleLogout()] *)
Definition handleLogout (c : client) : client :=
  redirectToLogin
    (set_currentUser None
       (on_page (fun b => hideSessionWarning (clearTimers (clearSession b))) c)).

(** [handleSessionTimeout()] *)
Definition handleSessionTimeout (c : client) : client :=
  handleLogout
    (showError "Session expired due to inactivity. Please log in again." c).

(** [pauseSession()] *)
Definition pauseSession (c : client) : client := on_page clearTimers c.

(** [!value] for a form field or a missing one. *)
Definition falsy (value : option string) : bool :=
  match value with
  | None => true
  | Some s => negb (Str.truthy s)
  end.

(** [response.ok] *)
Definition ok (response : response) : bool :=
  (200 <=? status response)%Z && (status response <=? 299)%Z.

(** [data.user], [data.valid], [data.token] and [data.error] of a reply;
    a property the reply does not have reads as [undefined], which
    the code here treats like [false] and like the empty string. *)
Definition data_user (data : response_body) : option user :=
  match data with
  | LoginBody _ _ uid name role =>
      Some {| cu_id := Some uid; cu_username := name; cu_role := role |}
  | VerifyBody _ uid name role _ =>
      Some {| cu_id := Some uid; cu_username := name; cu_role := role |}
  | LogoutBody _ _ uid name =>
      Some {| cu_id := Some uid; cu_username := name; cu_role := "" |}
  | ErrorBody _ _ _ | InvalidInputBody _ _ => None
  end.

Definition data_valid (data : response_body) : bool :=
  match data with
  | VerifyBody valid _ _ _ _ => valid
  | _ => false
  end.

Definition data_token (data : response_body) : string :=
  match data with
  | LoginBody _ token _ _ _ => token
  | _ => ""
  end.

Definition data_error (data : response_body) : string :=
  match data with
  | ErrorBody error _ _ => error
  | InvalidInputBody error _ => error
  | _ => ""
  end.

(** The fields of the login form, as [FormData.get] returns them. *)
Record credentials := {
  cr_username : option string;
  cr_password : option string;
  cr_captcha : option string
}.

(** What [fetch] and [response.json()] come to: a reply, or an error
    thrown with its message. *)
Inductive reply :=
| FetchFailed (message : string)
| Reply (response : response).

Record login_outcome := {
  after : client;
  sent : option credentials       (* the body posted to /api/auth/login *)
}.

(** What the page sees happen. *)
Inductive event :=
| Activity          (* mousedown, mousemove, keypress, scroll, touchstart *)
| Hidden            (* visibilitychange with [document.hidden] *)
| Visible           (* visibilitychange without *)
| WarningDue        (* the warning timer fires *)
| WarningHide       (* ten seconds after the warning *)
| TimeoutDue        (* the session timer fires *)
| StorageCleared    (* a storage event: [auth_session] removed *)
| LogoutClick
| LoggedIn (data : response_body) (csrf : string)
| Loaded (pathname : string) (fetch : string -> reply) (checked : Z).

Section Methods.
(** The value [generateFingerprint()] computes in this browser. *)
Variable fingerprint : string.

(** [isAuthenticated()] *)
Definition isAuthenticated (b : browser) (now : Z) : bool :=
  match getSession fingerprint b with
  | Some sessionData => isSessionValid b sessionData now
  | None => false
  end.

(** [resumeSession()] *)
Definition resumeSession (c : client) (now : Z) : client :=
  match getSession fingerprint (page c) with
  | Some sessionData =>
      if isSessionValid (page c) sessionData now
      then on_page (fun b => startSessionTimer b now) c
      else handleLogout c
  | None => handleLogout c
  end.

(** [handleSuccessfulLogin(response)], all of it. A reply without
    [user] makes [response.user.username] throw, after the attempt log
    has been cleared; the method catches that and shows a message. *)
Definition handleSuccessfulLogin (c : client) (data : response_body)
    (csrf : string) (now : Z) : client :=
  let c1 := set_attempts (CryptoUtils.clearFailedAttempts (stored_attempts c)) c in
  match data_user data with
  | Some u =>
      redirectToAdmin
        (set_currentUser (Some u)
           (on_page
              (fun b => AuthManager.handleSuccessfulLogin fingerprint b
                          (data_token data) (cu_username u) (cu_role u)
                          csrf now) c1))
  | None =>
      showError
        "Login successful but session creation failed. Please try again." c1
  end.

(** [handleFailedLogin(message)] *)
Definition handleFailedLogin (c : client) (message : string) (now : Z)
    : client :=
  showError message
    (set_attempts (CryptoUtils.recordFailedAttempt (stored_attempts c) now) c).

(** [handleLogin(e)]: the rate limit is checked at [now]; the outcome is
    handled at [done], when the reply has come or an error was thrown. *)
Definition handleLogin (c : client) (form : credentials)
    (fetch : credentials -> reply) (csrf : string) (now done : Z)
    : login_outcome :=
  let c0 := hideError c in
  let failed message posted :=
    {| after := handleFailedLogin c0 message done; sent := posted |} in
  match CryptoUtils.checkRateLimit (stored_attempts c0) now with
  | Throws message => failed message None
  | Returns _ =>
      if falsy (cr_username form) || falsy (cr_password form)
      then failed "Please enter both username and password." None
      else if falsy (cr_captcha form)
      then failed "Please complete the captcha verification." None
      else match fetch form with
           | FetchFailed message => failed message (Some form)
           | Reply response =>
               if ok response
               then {| after := handleSuccessfulLogin c0 (body response)
                                  csrf done;
                       sent := Some form |}
               else failed (if Str.truthy (data_error (body response))
                            then data_error (body response)
                            else "Login failed") (Some form)
           end
  end.

(** [verifyTokenWithServer(token)]; [fetch] takes the value of the
    Authorization header to the reply of [GET /api/auth/verify]. *)
Definition verifyTokenWithServer (c : client) (token : string)
    (fetch : string -> reply) : client * bool :=
  match fetch ("Bearer " ++ token) with
  | Reply response =>
      if ok response
      then (set_currentUser (data_user (body response)) c,
            data_valid (body response))
      else (c, false)
  | FetchFailed _ => (c, false)
  end.

(** [checkExistingSession()]: the stored session is judged at [checked],
    the timers are started at [now], after the server has replied. *)
Definition checkExistingSession (c : client) (pathname : string)
    (fetch : string -> reply) (checked now : Z) : client :=
  let invalid c :=
    let c' := on_page clearSession c in
    if Audit.includes "admin.html" pathname then redirectToLogin c' else c' in
  match getSession fingerprint (page c) with
  | Some sessionData =>
      if isSessionValid (page c) sessionData checked then
        let '(c1, isValidToken) :=
          verifyTokenWithServer c (token sessionData) fetch in
        if isValidToken then
          if Audit.includes "login.html" pathname then redirectToAdmin c1
          else on_page (fun b => startSessionTimer b now)
                 (set_currentUser
                    (Some {| cu_id := None;
                             cu_username := username sessionData;
                             cu_role := role sessionData |}) c1)
        else invalid c1
      else invalid c
  | None => invalid c
  end.

(** [new AuthManager()] on a page just loaded: the storage is what the
    last page left, the rest is new. *)
Definition constructor (c : client) : client := {|
  page := {| auth_session := auth_session (page c);
             auth_fingerprint := auth_fingerprint (page c);
             auth_active := auth_active (page c);
             csrf_token := csrf_token (page c);
             sessionTimer := None;
             warningTimer := None;
             warnings := 0 |};
  stored_attempts := stored_attempts c;
  currentUser := None;
  href := None;
  error_message := None
|}.

(** The handler of each event. *)
Definition step (c : client) (now : Z) (e : event) : client :=
  match e with
  | Activity => on_page (fun b => extendSession fingerprint b now) c
  | Hidden => pauseSession c
  | Visible => resumeSession c now
  | WarningDue => on_page showSessionWarning c
  | WarningHide => on_page hideSessionWarning c
  | TimeoutDue => handleSessionTimeout c
  | StorageCleared => handleLogout c
  | LogoutClick => handleLogout c
  | LoggedIn data csrf => handleSuccessfulLogin c data csrf now
  | Loaded pathname fetch checked =>
      checkExistingSession (constructor c) pathname fetch checked now
  end.

(** A run of events, each with the time at which its handler is done. *)
Fixpoint run (c : client) (es : list (Z * event)) : client :=
  match es with
  | [] => c
  | (now, e) :: es' => run (step c now e) es'
  end.

End Methods.

(** The time at which the handler of an event first reads the clock. *)
Definition starts (now : Z) (e : event) : Z :=
  match e with
  | Loaded _ _ checked => checked
  | _ => now
  end.

(** The clock does not run backwards from [t] through the events to
    [t']. *)
Fixpoint ascending (t : Z) (es : list (Z * event)) (t' : Z) : Prop :=
  match es with
  | [] => t <= t'
  | (now, e) :: es' => t <= starts now e /\ starts now e <= now /\
                       ascending now es' t'
  end.

Definition quiet (e : event) : bool :=
  match e with
  | LoggedIn _ _ => false
  | _ => true
  end.

End Client.

Section RateLimitFacts.
Import CryptoUtils.

Lemma recent_app now l1 l2 :
  recent now (l1 ++ l2)%list = (recent now l1 ++ recent now l2)%list.
Proof. apply List.filter_app. Qed.

(** Pruning at an earlier time removes nothing that a later check would
    count. *)
Lemma recent_recent t now l :
  t <= now -> recent now (recent t l) = recent now l.
Proof.
  intros Ht. unfold recent. induction l as [|a l IH]; [reflexivity|].
  simpl. destruct (Z.ltb_spec (t - a) windowMs) as [Hin|Hout]; simpl.
  - now rewrite IH.
  - rewrite IH. destruct (Z.ltb_spec (now - a) windowMs); [lia|reflexivity].
Qed.

Lemma recent_records s0 ts now :
  Forall (fun t => t <= now) ts ->
  recent now (getStoredAttempts (fold_left recordFailedAttempt ts s0))
    = recent now (getStoredAttempts s0 ++ ts)%list.
Proof.
  revert s0. induction ts as [|t ts IH]; intros s0 Hts.
  - simpl. now rewrite app_nil_r.
  - apply Forall_cons in Hts as [Ht Hts]. simpl fold_left.
    rewrite IH by exact Hts. unfold recordFailedAttempt at 1.
    simpl getStoredAttempts at 1.
    rewrite recent_app, recent_recent by exact Ht.
    rewrite <- recent_app, <- app_assoc. reflexivity.
Qed.

Lemma recent_within now l : Forall (fun a => now - a < windowMs) (recent now l).
Proof.
  unfold recent. apply List.Forall_forall. intros a Ha.
  apply List.filter_In in Ha as [_ Ha]. now apply Z.ltb_lt in Ha.
Qed.

Lemma recent_bound now l :
  Forall (fun a => a <= now) l -> Forall (fun a => a <= now) (recent now l).
Proof.
  intros Hl. apply List.Forall_forall. intros a Ha.
  apply List.filter_In in Ha as [Ha _].
  rewrite List.Forall_forall in Hl. now apply Hl.
Qed.

Lemma minutes_bounds ms : 0 < ms <= windowMs -> 1 <= minutes ms <= 15.
Proof.
  unfold minutes, windowMs. intros Hms.
  assert (Hlo : - ms / 60000 < 0) by (apply Z.div_lt_upper_bound; lia).
  assert (Hhi : -15 <= - ms / 60000) by (apply Z.div_le_lower_bound; lia).
  lia.
Qed.

(** X16. The attempt log and the check made on it. Whatever the log
    held before, after any number of recorded failures a check made no
    earlier than they were recorded sees exactly the earlier entries and
    the recorded ones that lie less than fifteen minutes back: pruning
    the log at each recording loses nothing. The check lets the
    submission through if and only if fewer than five of them do; when it
    refuses, and no entry of the log lies in the future, the wait it
    announces is between 1 and 15 minutes. A cleared log never refuses. *)
Theorem X16_rate_limit_window (s0 : stored) (ts : list Z) (now : Z) :
  Forall (fun t => t <= now) ts ->
  let s := fold_left recordFailedAttempt ts s0 in
  let all := (getStoredAttempts s0 ++ ts)%list in
  recent now (getStoredAttempts s) = recent now all /\
  (checkRateLimit s now = Returns tt <->
     (length (recent now all) < 5)%nat) /\
  (Forall (fun a => a <= now) (getStoredAttempts s0) ->
   forall message, checkRateLimit s now = Throws message ->
     exists m, 1 <= m <= 15 /\ message = too_many m) /\
  (forall t, checkRateLimit (clearFailedAttempts s) t = Returns tt).
Proof.
  intros Hts s all.
  pose proof (recent_records s0 ts now Hts) as Hrec. fold s all in Hrec.
  split; [exact Hrec|]. split; [|split].
  - unfold checkRateLimit. rewrite Hrec. unfold maxAttempts.
    destruct (Nat.leb_spec 5 (length (recent now all))) as [Hge|Hlt].
    + split; [discriminate|lia].
    + split; [intros _; exact Hlt|reflexivity].
  - intros Hs0 message. unfold checkRateLimit. rewrite Hrec.
    destruct (Nat.leb_spec maxAttempts (length (recent now all))) as [Hge|_];
      [|discriminate].
    intros [= <-]. eexists. split; [|reflexivity].
    apply minutes_bounds.
    assert (Hall : Forall (fun a => a <= now) all).
    { apply Forall_app. split; assumption. }
    pose proof (recent_within now all) as Hin.
    pose proof (recent_bound now all Hall) as Hle.
    destruct (recent now all) as [|a l]; [simpl in Hge; unfold maxAttempts in Hge; lia|].
    apply Forall_cons in Hin as [Hin _]. apply Forall_cons in Hle as [Hle _].
    simpl. unfold windowMs in *. lia.
  - intros t. reflexivity.
Qed.

End RateLimitFacts.

Section ClientFacts.
Import AuthManager Client.
Variable fingerprint : string.
Let isAuthenticated := Client.isAuthenticated fingerprint.
Let step := Client.step fingerprint.
Let run := Client.run fingerprint.

Local Ltac failed_submission :=
  right; repeat split; eauto;
  try match goal with
      | Hdone : forall s, In _ _ |- In _ _ =>
          apply (Hdone (stored_attempts _))
      end;
  try (intros (? & ? & ? & ?); first [discriminate | congruence]).

(** X17. One submission of the login form. The request is posted only
    when the rate limit lets it through and the three fields are filled
    in. The submission either reaches a reply with a 2xx status, and then
    the attempt log is cleared; or, for whatever reason it fails (refused
    by the rate limit, an empty field, no reply, a reply with another
    status), it is recorded in the attempt log, a message is shown, and
    the stored session, the timers, the current user and the location
    stay as they were. *)
Theorem X17_handleLogin_counts_failures (c : client) (form : credentials)
    (fetch : credentials -> reply) (csrf : string) (now done : Z) :
  let r := handleLogin fingerprint c form fetch csrf now done in
  (sent r = Some form <->
     CryptoUtils.checkRateLimit (stored_attempts c) now = Returns tt /\
     falsy (cr_username form) = false /\
     falsy (cr_password form) = false /\
     falsy (cr_captcha form) = false) /\
  (sent r = None \/ sent r = Some form) /\
  ((sent r = Some form /\
    (exists response, fetch form = Reply response /\ ok response = true) /\
    stored_attempts (after r) = None)
   \/
   (stored_attempts (after r)
      = CryptoUtils.recordFailedAttempt (stored_attempts c) done /\
    In done (CryptoUtils.getStoredAttempts (stored_attempts (after r))) /\
    page (after r) = page c /\
    currentUser (after r) = currentUser c /\
    href (after r) = href c /\
    (exists message, error_message (after r) = Some message) /\
    ~ (exists response, sent r = Some form /\ fetch form = Reply response /\
                        ok response = true))).
Proof.
  intros r. subst r. unfold handleLogin.
  assert (Hdone : forall s,
            In done (CryptoUtils.getStoredAttempts
                       (CryptoUtils.recordFailedAttempt s done))).
  { intros s. unfold CryptoUtils.recordFailedAttempt. simpl.
    apply List.filter_In. split; [apply in_or_app; right; now left|].
    apply Z.ltb_lt. unfold CryptoUtils.windowMs. lia. }
  change (stored_attempts (hideError c)) with (stored_attempts c).
  destruct (CryptoUtils.checkRateLimit (stored_attempts c) now) as [[]|message].
  2:{ simpl. split; [split; [discriminate|intros [? _]; discriminate]|].
      split; [now left|]. failed_submission. }
  destruct (falsy (cr_username form)) eqn:Hu; simpl.
  { split; [split; [discriminate|intros (_ & ? & _); discriminate]|].
    split; [now left|]. failed_submission. }
  destruct (falsy (cr_password form)) eqn:Hp; simpl.
  { split; [split; [discriminate|intros (_ & _ & ? & _); discriminate]|].
    split; [now left|]. failed_submission. }
  destruct (falsy (cr_captcha form)) eqn:Hc; simpl.
  { split; [split; [discriminate|intros (_ & _ & _ & ?); discriminate]|].
    split; [now left|]. failed_submission. }
  destruct (fetch form) as [message|response] eqn:Hfetch; simpl.
  { split; [split; [intros _|]; auto|].
    split; [now right|]. failed_submission. }
  destruct (ok response) eqn:Hok; simpl.
  - split; [split; [intros _|]; auto|].
    split; [now right|]. left. split; [reflexivity|]. split; [eauto|].
    unfold handleSuccessfulLogin.
    destruct (data_user (body response)); reflexivity.
  - split; [split; [intros _|]; auto|].
    split; [now right|]. failed_submission.
Qed.

(** *** Sessions that are not valid stay so *)

Lemma isAuthenticated_later b t t' :
  t <= t' -> isAuthenticated b t = false -> isAuthenticated b t' = false.
Proof.
  intros Ht. unfold isAuthenticated, Client.isAuthenticated.
  destruct (getSession fingerprint b) as [sd|]; [|reflexivity].
  unfold isSessionValid.
  destruct (negb (Str.truthy (token sd)) || (expiresAt sd =? 0)%Z);
    [reflexivity|].
  destruct (Z.ltb_spec (expiresAt sd) t) as [Hexp|Hin].
  - intros _. destruct (Z.ltb_spec (expiresAt sd) t'); [reflexivity|lia].
  - intros Hact. destruct (expiresAt sd <? t')%Z; [reflexivity|exact Hact].
Qed.

(** What [isAuthenticated] reads of the storage. *)
Lemma isAuthenticated_ext b b' t :
  auth_session b = auth_session b' ->
  auth_fingerprint b = auth_fingerprint b' ->
  auth_active b = auth_active b' ->
  isAuthenticated b t = isAuthenticated b' t.
Proof.
  intros Hs Hf Ha.
  unfold isAuthenticated, Client.isAuthenticated, getSession, isSessionValid.
  now rewrite Hs, Hf, Ha.
Qed.

Lemma isAuthenticated_no_session b t :
  auth_session b = None -> isAuthenticated b t = false.
Proof.
  intros Hs. unfold isAuthenticated, Client.isAuthenticated, getSession.
  now rewrite Hs.
Qed.

Lemma extendSession_invalid b now :
  isAuthenticated b now = false -> extendSession fingerprint b now = b.
Proof.
  unfold isAuthenticated, Client.isAuthenticated, extendSession.
  destruct (getSession fingerprint b) as [sd|]; [|reflexivity].
  now intros ->.
Qed.

Lemma resumeSession_invalid c now :
  isAuthenticated (page c) now = false ->
  resumeSession fingerprint c now = handleLogout c.
Proof.
  unfold isAuthenticated, Client.isAuthenticated, resumeSession.
  destruct (getSession fingerprint (page c)) as [sd|]; [|reflexivity].
  now intros ->.
Qed.

Lemma checkExistingSession_invalid c pathname fetch checked now :
  isAuthenticated (page c) checked = false ->
  page (checkExistingSession fingerprint c pathname fetch checked now)
    = clearSession (page c).
Proof.
  unfold isAuthenticated, Client.isAuthenticated, checkExistingSession.
  destruct (getSession fingerprint (page c)) as [sd|].
  - intros ->. now destruct (Audit.includes "admin.html" pathname).
  - intros _. now destruct (Audit.includes "admin.html" pathname).
Qed.

Lemma step_quiet c now e :
  quiet e = true ->
  isAuthenticated (page c) (starts now e) = false ->
  starts now e <= now ->
  isAuthenticated (page (step c now e)) now = false.
Proof.
  intros Hq Hun Hnow. destruct e; try discriminate Hq; simpl in *.
  - rewrite extendSession_invalid by exact Hun. exact Hun.
  - rewrite <- Hun. now apply isAuthenticated_ext.
  - rewrite resumeSession_invalid by exact Hun.
    now apply isAuthenticated_no_session.
  - rewrite <- Hun. now apply isAuthenticated_ext.
  - rewrite <- Hun. now apply isAuthenticated_ext.
  - now apply isAuthenticated_no_session.
  - now apply isAuthenticated_no_session.
  - now apply isAuthenticated_no_session.
  - rewrite checkExistingSession_invalid.
    + now apply isAuthenticated_no_session.
    + rewrite <- Hun. now apply isAuthenticated_ext.
Qed.

(** X18. Only a login makes the page authenticated. If [isAuthenticated]
    is false at some time (no stored session, another fingerprint, no
    token, the expiry passed, no [auth_active] mark), it is false at every
    later time, whatever happens in between other than a login: activity,
    the tab hidden or shown again, the timers firing, a logout, the
    storage event, a page load with any answer of the server. *)
Theorem X18_only_login_authenticates (c : client) (t : Z)
    (es : list (Z * event)) (t' : Z) :
  isAuthenticated (page c) t = false ->
  ascending t es t' ->
  Forall (fun te => quiet (snd te) = true) es ->
  isAuthenticated (page (run c es)) t' = false.
Proof.
  revert c t. induction es as [|[now e] es IH]; intros c t Hun Hasc Hq.
  - simpl in *. now apply (isAuthenticated_later _ t).
  - simpl in Hasc. destruct Hasc as (Hstart & Hnow & Hasc).
    apply Forall_cons in Hq as [Hqe Hq]. simpl in Hqe.
    simpl. apply (IH _ now); [|exact Hasc|exact Hq].
    apply step_quiet; [exact Hqe| |exact Hnow].
    now apply (isAuthenticated_later _ t).
Qed.

(** *** The timers and the stored expiry *)

(** The stored expiry lies at most thirty minutes after [t]; the two
    timers are set together, five minutes apart, and the session timer
    is not due before the stored expiry. *)
Definition in_step (b : browser) (t : Z) : Prop :=
  (forall sd, auth_session b = Some sd -> expiresAt sd <= t + sessionTimeout) /\
  match sessionTimer b, warningTimer b with
  | Some due, Some warn =>
      warn = due - warningTime /\
      forall sd, auth_session b = Some sd -> expiresAt sd <= due
  | None, None => True
  | _, _ => False
  end.

Lemma in_step_later b t t' : t <= t' -> in_step b t -> in_step b t'.
Proof.
  intros Ht [Hexp Htimers]. split; [|exact Htimers].
  intros sd Hsd. specialize (Hexp sd Hsd). lia.
Qed.

Lemma in_step_logged_out b t :
  auth_session b = None -> sessionTimer b = None -> warningTimer b = None ->
  in_step b t.
Proof.
  intros Hs Ht Hw. unfold in_step. rewrite Hs, Ht, Hw.
  split; [discriminate|exact I].
Qed.

Lemma in_step_started b now :
  (forall sd, auth_session b = Some sd -> expiresAt sd <= now + sessionTimeout) ->
  in_step (startSessionTimer b now) now.
Proof.
  intros Hexp. split; [exact Hexp|]. simpl.
  split; [unfold sessionTimeout, warningTime; lia|exact Hexp].
Qed.

Lemma step_in_step c now e t :
  in_step (page c) t ->
  t <= starts now e -> starts now e <= now ->
  in_step (page (step c now e)) now.
Proof.
  intros Hin Hstart Hnow.
  assert (Hin' : in_step (page c) now) by (apply (in_step_later _ t); [lia|exact Hin]).
  destruct e; simpl in *.
  - unfold extendSession.
    destruct (getSession fingerprint (page c)) as [sd|]; [|exact Hin'].
    destruct (isSessionValid (page c) sd now); [|exact Hin'].
    split; simpl.
    + intros sd' [= <-]. simpl. lia.
    + split; [unfold sessionTimeout, warningTime; lia|].
      intros sd' [= <-]. simpl. lia.
  - destruct Hin' as [Hexp _]. split; [exact Hexp|exact I].
  - unfold resumeSession.
    destruct (getSession fingerprint (page c)) as [sd|];
      [|now apply in_step_logged_out].
    destruct (isSessionValid (page c) sd now);
      [|now apply in_step_logged_out].
    simpl. apply in_step_started. apply Hin'.
  - exact Hin'.
  - exact Hin'.
  - now apply in_step_logged_out.
  - now apply in_step_logged_out.
  - now apply in_step_logged_out.
  - unfold handleSuccessfulLogin.
    destruct (data_user data) as [u|]; [|exact Hin'].
    simpl. split; simpl.
    + intros sd' [= <-]. simpl. lia.
    + split; [unfold sessionTimeout, warningTime; lia|].
      intros sd' [= <-]. simpl. lia.
  - assert (Hc : in_step (page (constructor c)) now).
    { destruct Hin' as [Hexp _]. split; [exact Hexp|exact I]. }
    unfold checkExistingSession.
    assert (Hinvalid : forall c0,
              sessionTimer (page c0) = None -> warningTimer (page c0) = None ->
              in_step (page (let c' := on_page clearSession c0 in
                             if Audit.includes "admin.html" pathname
                             then redirectToLogin c' else c')) now).
    { intros c0 Ht Hw.
      destruct (Audit.includes "admin.html" pathname);
        now apply in_step_logged_out. }
    destruct (getSession fingerprint (page (constructor c))) as [sd|];
      [|now apply Hinvalid].
    destruct (isSessionValid (page (constructor c)) sd checked);
      [|now apply Hinvalid].
    unfold verifyTokenWithServer.
    destruct (fetch _) as [message|response]; [now apply Hinvalid|].
    destruct (ok response); [|now apply Hinvalid].
    destruct (data_valid (body response)); [|now apply Hinvalid].
    destruct (Audit.includes "login.html" pathname); [exact Hc|].
    simpl. apply in_step_started. apply Hc.
Qed.

Lemma run_in_step es : forall c t t',
  in_step (page c) t -> ascending t es t' -> in_step (page (run c es)) t'.
Proof.
  induction es as [|[now e] es IH]; intros c t t' Hin Hasc; simpl in *.
  - now apply (in_step_later _ t).
  - destruct Hasc as (Hstart & Hnow & Hasc).
    apply (IH _ now); [|exact Hasc]. now apply (step_in_step _ _ _ t).
Qed.

(** X19. The timers never run ahead of the stored session. On a page that
    starts without a stored session and without timers, after any events
    (logins, activity, the tab hidden and shown, timers firing, logouts,
    page loads) with a clock that does not run backwards: the stored
    expiry is at most thirty minutes ahead of the clock; the warning
    timer is set exactly when the session timer is, five minutes before
    it; and the session timer is not due before the stored expiry, so as
    long as [isAuthenticated] holds the logout by time-out has not been
    due. *)
Theorem X19_timers_follow_expiry (c : client) (t : Z)
    (es : list (Z * event)) (t' : Z) :
  auth_session (page c) = None ->
  sessionTimer (page c) = None ->
  warningTimer (page c) = None ->
  ascending t es t' ->
  let b := page (run c es) in
  (forall sd, auth_session b = Some sd ->
     expiresAt sd <= t' + 30 * 60 * 1000) /\
  (forall due, sessionTimer b = Some due ->
     warningTimer b = Some (due - 5 * 60 * 1000) /\
     (forall sd, auth_session b = Some sd -> expiresAt sd <= due) /\
     (forall v, isAuthenticated b v = true -> v <= due)) /\
  (sessionTimer b = None -> warningTimer b = None).
Proof.
  intros Hs Ht Hw Hasc b.
  assert (Hin : in_step b t').
  { apply (run_in_step es c t); [now apply in_step_logged_out|exact Hasc]. }
  destruct Hin as [Hexp Htimers]. split; [exact Hexp|].
  destruct (sessionTimer b) as [due|], (warningTimer b) as [warn|];
    try contradiction.
  - destruct Htimers as [-> Hdue]. split; [|discriminate].
    intros due' [= <-]. split; [reflexivity|]. split; [exact Hdue|].
    intros v. unfold isAuthenticated, Client.isAuthenticated.
    destruct (getSession fingerprint b) as [sd|] eqn:Hget; [|discriminate].
    apply getSession_some in Hget as [Hsd _].
    intros (_ & _ & Hv & _)%isSessionValid_true.
    specialize (Hdue sd Hsd). lia.
  - split; [discriminate|reflexivity].
Qed.

End ClientFacts.

Section RestoreFacts.
Context `{Jwt.Primitives}.
Import SessionManager AuthManager Client.
Variable fingerprint : string.
Variable sm : SessionManager.t.
Variable env : process_env.


End RestoreFacts.

(* ===================================================================== *)
(** * Part IV. The properties of Part III on concrete data *)
(* ===================================================================== *)

Module Samples.

(** [admin] after five failures, the last one at [t0]. *)
Definition locked_admin : Db.user_row :=
  Db.set_failed 5 (Some (Scenario.t0 + 15 * 60 * 1000)) Scenario.admin.

(** A login for a name that is not in the table. *)
Definition stranger : request := {|
  req_ip := "198.51.100.23";
  authorization := None;
  user_agent := Some "curl/8.4.0";
  body_username := "root";
  body_password := "toor";
  body_captcha := Some "10000000-aaaa-bbbb-cccc-000000000001"
|}.

(** A request with the 124 characters of [Cases.long_agent] as its
    user agent. *)
Definition long_agent_request : request := {|
  req_ip := "203.0.113.7";
  authorization := None;
  user_agent := Some Cases.long_agent;
  body_username := "admin";
  body_password := "not-the-password";
  body_captcha := None
|}.

(** The body of a password change, as the audit middleware sees it. *)
Definition password_change : Audit.audit_request := {|
  Audit.ar_user := None;
  Audit.ar_method := "POST";
  Audit.ar_url := "/api/admin/password";
  Audit.ar_body := Some [("username", Audit.JStr "admin");
                         ("__proto__", Audit.JObj [("admin", Audit.JBool true)]);
                         ("new_password", Audit.JStr "hunter2");
                         ("remember", Audit.JBool true)];
  Audit.ar_ip := Some "203.0.113.7";
  Audit.ar_remoteAddress := None;
  Audit.ar_user_agent := Some "Mozilla/5.0 (X11; Linux x86_64)"
|}.

(** What [toLowerCase] makes of the code units of the sample titles: the
    ASCII capitals, the Kelvin sign U+212A and the dotted capital I
    U+0130 change, the others stay. *)
Definition lower_unit (n : N) : Slug.title :=
  if ((65 <=? n) && (n <=? 90))%N then [(n + 32)%N]
  else if (n =? 8490)%N then [107%N]
  else if (n =? 304)%N then [105%N; 775%N]
  else [n].

Definition toLowerCase (t : Slug.title) : Slug.title :=
  List.flat_map lower_unit t.

(** A [blogs] table in which the slug [release-notes] and its first
    two numbered variants are taken. *)
Definition blogs : list Slug.blog_row :=
  [ {| Slug.blog_id := 1; Slug.slug := "release-notes" |};
    {| Slug.blog_id := 2; Slug.slug := "hello-world" |};
    {| Slug.blog_id := 3; Slug.slug := "release-notes-1" |};
    {| Slug.blog_id := 4; Slug.slug := "release-notes-2" |} ].

Definition fingerprint : string := "TW96aWxsYS81LjAgKFgxMTsgTGludXgg".

(** A browser that has never been logged in. *)
Definition fresh : Client.client := {|
  Client.page := {| AuthManager.auth_session := None;
                    AuthManager.auth_fingerprint := None;
                    AuthManager.auth_active := None;
                    AuthManager.csrf_token := None;
                    AuthManager.sessionTimer := None;
                    AuthManager.warningTimer := None;
                    AuthManager.warnings := 0 |};
  Client.stored_attempts := None;
  Client.currentUser := None;
  Client.href := None;
  Client.error_message := None
|}.

Definition form : Client.credentials := {|
  Client.cr_username := Some "admin";
  Client.cr_password := Some "123456";
  Client.cr_captcha := Some "10000000-aaaa-bbbb-cccc-000000000001"
|}.

(** A server that answers every login with 401. *)
Definition refuses (_ : Client.credentials) : Client.reply :=
  Client.Reply {| status := 401;
                  body := ErrorBody "Invalid credentials" None None |}.

(** The reply to the login of [Scenario]. *)
Definition login_body : response_body :=
  LoginBody "Login successful" Scenario.token 1 "admin" "admin".

Definition csrf : string := "b7e23ec29af22b0b4e41da31e868d572".

(** The browser after that login, handled 200 ms after [t0], and
    activity twenty minutes after [t0]. *)
Definition active : Client.client :=
  Client.run fingerprint fresh
    [(Scenario.t0 + 200, Client.LoggedIn login_body csrf);
     (Scenario.t0 + 20 * 60 * 1000, Client.Activity)].

Definition active_session : AuthManager.session_data := {|
  AuthManager.token := Scenario.token;
  AuthManager.username := "admin";
  AuthManager.role := "admin";
  AuthManager.loginTime := Scenario.t0 + 200;
  AuthManager.expiresAt := Scenario.t0 + 50 * 60 * 1000;
  AuthManager.csrfToken := csrf
|}.

(** The request that carries [auth] as its Authorization header. *)
Definition carrier (auth : string) : request :=
  Scenario.request_from "203.0.113.7" (Some auth).

End Samples.

(** X1 for the token of a user with the role [editor] on a route that
    requires [admin]. *)
Lemma X1_requireRole_behind_authenticate_witness :
  Authorize.guarded Scenario.sm Scenario.env "admin"
    (Scenario.bearer Cases.editor_token) (Scenario.t0 + 60000)
  = Authorize.StoppedByRole 403 "Insufficient permissions"
      (Some "admin") (Some "editor").
Proof.
  destruct (X1_requireRole_behind_authenticate Scenario.sm Scenario.env
              "admin" (Scenario.bearer Cases.editor_token)
              (Scenario.t0 + 60000)) as (_ & _ & _ & Hlast).
  apply (Hlast "203.0.113.7" Cases.editor Scenario.browser_request
           Scenario.t0).
  - reflexivity.
  - vm_compute. reflexivity.
  - apply not_elem_of_empty.
  - vm_compute. reflexivity.
Defined.

(** X2 for two logins of [admin] half a second apart. *)
Lemma X2_same_second_same_token_witness :
  SessionManager.generateToken Scenario.sm Scenario.admin
    Scenario.browser_request (Scenario.t0 + 500) = Scenario.token /\
  succeeded
    (snd (SessionManager.verifyToken
            (SessionManager.revokeToken Scenario.sm Scenario.token)
            Scenario.env
            (SessionManager.generateToken Scenario.sm Scenario.admin
               Scenario.browser_request (Scenario.t0 + 500))
            Scenario.browser_request (Scenario.t0 + 1000))) = false.
Proof.
  destruct (X2_same_second_same_token Scenario.sm Scenario.env Scenario.admin
              Scenario.browser_request Scenario.t0 (Scenario.t0 + 500))
    as [Hsame Hrevoked].
  assert (Hsecond : Scenario.t0 / 1000 = (Scenario.t0 + 500) / 1000)
    by (vm_compute; reflexivity).
  split.
  - symmetry. apply Hsame. exact Hsecond.
  - apply (Hrevoked Hsecond).
Defined.

(** X3 for a user agent of 124 characters. *)
Lemma X3_userAgent_claim_bounds_witness :
  String.length (SessionManager.userAgent_claim Samples.long_agent_request)
    = 100%nat.
Proof.
  destruct (X3_userAgent_claim_bounds Samples.long_agent_request)
    as (_ & _ & _ & Hua).
  destruct (Hua Cases.long_agent) as (_ & _ & Hlong).
  - reflexivity.
  - discriminate.
  - apply Hlong. vm_compute. lia.
Defined.

(** X4 for a set with one revoked token. *)
Lemma X4_cleanupBlacklist_bound_witness :
  SessionManager.cleanupBlacklist
    (SessionManager.revokeToken Scenario.sm Scenario.token)
  = SessionManager.revokeToken Scenario.sm Scenario.token.
Proof.
  destruct (X4_cleanupBlacklist_bound
              (SessionManager.revokeToken Scenario.sm Scenario.token))
    as (_ & _ & Hsmall & _).
  apply Hsmall.
  change (SessionManager.tokenBlacklist
            (SessionManager.revokeToken Scenario.sm Scenario.token))
    with ({[ Scenario.token ]} ∪ (∅ : gset string)).
  rewrite (right_id_L ∅ (∪)), size_singleton. lia.
Defined.

(** X5 for the token of [Scenario], revoked, after another user has
    logged out. *)
Lemma X5_revocation_is_permanent_witness :
  let sm' := Server.logout_run Scenario.env
               (SessionManager.revokeToken Scenario.sm Scenario.token)
               [(Scenario.bearer Cases.editor_token, Scenario.t0 + 1000)] in
  Scenario.token ∈ SessionManager.tokenBlacklist sm' /\
  status (Server.verify Scenario.env sm' (Scenario.bearer Scenario.token)
            (Scenario.t0 + 5000)) = 403.
Proof.
  intros sm'.
  destruct (X5_revocation_is_permanent Scenario.env
              (SessionManager.revokeToken Scenario.sm Scenario.token)
              [(Scenario.bearer Cases.editor_token, Scenario.t0 + 1000)]
              Scenario.token (Scenario.bearer Scenario.token)
              (Scenario.t0 + 5000)) as (Hin & _ & Hverify & _).
  - apply revokeToken_elem. now left.
  - apply extract_bearer. vm_compute. reflexivity.
  - reflexivity.
  - split; [exact Hin|exact Hverify].
Defined.

(** X6 for [admin] logging in with the right password at [t0] and using
    the token a minute later. *)
Lemma X6_session_lifecycle_witness :
  let a := Scenario.attempt "correct horse battery staple" Scenario.t0 in
  let token := SessionManager.generateToken Scenario.sm Scenario.admin
                 (fst a) (Scenario.t0 + 80) in
  status (Server.res
            (Server.login Scenario.compare Scenario.cfg Scenario.env
               Scenario.sm Scenario.db (fst a) (snd a))) = 200 /\
  status (Server.verify Scenario.env Scenario.sm (Scenario.bearer token)
            (Scenario.t0 + 60000)) = 200 /\
  status (Server.verify Scenario.env
            (SessionManager.revokeToken Scenario.sm token)
            (Scenario.bearer token) (Scenario.t0 + 61000)) = 403.
Proof.
  intros a token.
  destruct (X6_session_lifecycle Scenario.compare
              "0f1e2d3c4b5a69788796a5b4c3d2e1f0" Scenario.env Scenario.sm
              Scenario.db (fst a) (snd a) Scenario.admin
              (Scenario.bearer token) (Scenario.t0 + 60000))
    as (Hres & _ & _ & Hverify & _ & Hafter).
  - apply scenario_admitted. reflexivity.
  - reflexivity.
  - reflexivity.
  - reflexivity.
  - reflexivity.
  - vm_compute. reflexivity.
  - apply not_elem_of_empty.
  - vm_compute. reflexivity.
  - split; [|split].
    + change Scenario.cfg with (server_config "0f1e2d3c4b5a69788796a5b4c3d2e1f0").
      now rewrite Hres.
    + exact Hverify.
    + apply (Hafter (Scenario.t0 + 61000)).
Defined.

(** X7 for a login as [root], which is no account. *)
Lemma X7_unknown_user_witness :
  let c := snd (Scenario.attempt "toor" Scenario.t0) in
  let r := Server.login Scenario.compare Scenario.cfg Scenario.env
             Scenario.sm Scenario.db Samples.stranger c in
  status (Server.res r) = 401 /\ Server.comparisons r = 0%nat /\
  Server.users_after r = Scenario.db.
Proof.
  intros c r.
  destruct (X7_unknown_user Scenario.compare
              "0f1e2d3c4b5a69788796a5b4c3d2e1f0" Scenario.env Scenario.sm
              Scenario.db Samples.stranger c) as (Hres & Hcmp & Hdb & _).
  - unfold admitted. repeat split.
  - reflexivity.
  - subst r. change Scenario.cfg
      with (server_config "0f1e2d3c4b5a69788796a5b4c3d2e1f0").
    rewrite Hres. repeat split; assumption.
Defined.

(** X8 for a failed login of [admin]. *)
Lemma X8_login_frame_witness :
  let a := Scenario.attempt "123456" Scenario.t0 in
  length (Server.users_after
            (Server.login Scenario.compare Scenario.cfg Scenario.env
               Scenario.sm Scenario.db (fst a) (snd a))) = 1%nat.
Proof.
  intros a.
  exact (proj1 (X8_login_frame Scenario.compare
                  "0f1e2d3c4b5a69788796a5b4c3d2e1f0" Scenario.env Scenario.sm
                  Scenario.db (fst a) (snd a))).
Defined.

(** X9 for six attempts on the locked [admin] from one address, the
    last with the right password and the one before with a number for a
    password. *)
Lemma X9_locked_attempts_change_nothing_witness :
  Server.login_run Scenario.compare Scenario.cfg Scenario.env Scenario.sm
    Scenario.no_hits [Samples.locked_admin]
    [Server.Attempt (fst (Scenario.attempt "123456" (Scenario.t0 + 1000)))
       (snd (Scenario.attempt "123456" (Scenario.t0 + 1000)));
     Server.Attempt (fst (Scenario.attempt "password" (Scenario.t0 + 2000)))
       (snd (Scenario.attempt "password" (Scenario.t0 + 2000)));
     Server.Elsewhere false "203.0.113.7";
     Server.Attempt (fst (Scenario.attempt "letmein" (Scenario.t0 + 3000)))
       (snd (Scenario.attempt "letmein" (Scenario.t0 + 3000)));
     Server.Attempt (fst (Scenario.attempt "qwerty" (Scenario.t0 + 4000)))
       (snd (Scenario.attempt "qwerty" (Scenario.t0 + 4000)));
     Server.AttemptOdd (fst (Scenario.attempt "12345" (Scenario.t0 + 5000)))
       (snd (Scenario.attempt "12345" (Scenario.t0 + 5000)));
     Server.Attempt
       (fst (Scenario.attempt "correct horse battery staple"
               (Scenario.t0 + 6000)))
       (snd (Scenario.attempt "correct horse battery staple"
               (Scenario.t0 + 6000)))]
  = ([locked_response; locked_response; locked_response; locked_response;
      locked_response;
      {| status := 429;
         body := ErrorBody "Too many login attempts, please try again later."
                   None None |}],
     [Samples.locked_admin], 0%nat).
Proof.
  destruct (X9_locked_attempts_change_nothing Scenario.compare
              "0f1e2d3c4b5a69788796a5b4c3d2e1f0" Scenario.env Scenario.sm
              Scenario.no_hits [Samples.locked_admin] "admin"
              Samples.locked_admin (Scenario.t0 + 15 * 60 * 1000)
              [Server.Attempt
                 (fst (Scenario.attempt "123456" (Scenario.t0 + 1000)))
                 (snd (Scenario.attempt "123456" (Scenario.t0 + 1000)));
               Server.Attempt
                 (fst (Scenario.attempt "password" (Scenario.t0 + 2000)))
                 (snd (Scenario.attempt "password" (Scenario.t0 + 2000)));
               Server.Elsewhere false "203.0.113.7";
               Server.Attempt
                 (fst (Scenario.attempt "letmein" (Scenario.t0 + 3000)))
                 (snd (Scenario.attempt "letmein" (Scenario.t0 + 3000)));
               Server.Attempt
                 (fst (Scenario.attempt "qwerty" (Scenario.t0 + 4000)))
                 (snd (Scenario.attempt "qwerty" (Scenario.t0 + 4000)));
               Server.AttemptOdd
                 (fst (Scenario.attempt "12345" (Scenario.t0 + 5000)))
                 (snd (Scenario.attempt "12345" (Scenario.t0 + 5000)));
               Server.Attempt
                 (fst (Scenario.attempt "correct horse battery staple"
                         (Scenario.t0 + 6000)))
                 (snd (Scenario.attempt "correct horse battery staple"
                         (Scenario.t0 + 6000)))])
    as [Hrun _].
  - reflexivity.
  - reflexivity.
  - repeat (constructor;
            [first [exact I
                   |split; [reflexivity|
                    split; [apply scenario_admitted; reflexivity|
                            vm_compute; reflexivity]]]|]).
    constructor.
  - change Scenario.cfg with (server_config "0f1e2d3c4b5a69788796a5b4c3d2e1f0").
    rewrite Hrun. vm_compute. reflexivity.
Defined.

(** X10 for the table of [Scenario] under six wrong passwords from one
    address. *)
Lemma X10_lock_consistency_kept_witness :
  Forall lock_consistent
    (snd (fst (Server.login_run Scenario.compare Scenario.cfg Scenario.env
                 Scenario.sm Scenario.no_hits Scenario.db
                 (Server.attempts
                    [Scenario.attempt "123456" Scenario.t0;
                     Scenario.attempt "password" (Scenario.t0 + 5000);
                     Scenario.attempt "admin" (Scenario.t0 + 10000);
                     Scenario.attempt "letmein" (Scenario.t0 + 15000);
                     Scenario.attempt "qwerty" (Scenario.t0 + 20000);
                     Scenario.attempt "dragon" (Scenario.t0 + 25000)])))).
Proof.
  apply (X10_lock_consistency_kept Scenario.compare
           "0f1e2d3c4b5a69788796a5b4c3d2e1f0" Scenario.env Scenario.sm).
  constructor; [|constructor].
  split; [vm_compute; discriminate|].
  split; [intros Hl; now contradiction Hl|vm_compute; intros Hc; now contradiction Hc].
Defined.

(** X11 in production with a verdict of the captcha service. *)
Lemma X11_verifyCaptcha_accepts_witness :
  Server.success
    (Server.verifyCaptcha Scenario.env
       (Some "10000000-aaaa-bbbb-cccc-000000000001") (Server.Verdict true))
  = true.
Proof.
  apply (proj1 (X11_verifyCaptcha_accepts Scenario.env
                  (Some "10000000-aaaa-bbbb-cccc-000000000001")
                  (Server.Verdict true))).
  split.
  - eexists. split; [reflexivity|discriminate].
  - right. split; [|reflexivity].
    eexists. split; [reflexivity|discriminate].
Defined.

(** X12 for a password change whose body also has a key [__proto__]. *)
Lemma X12_audit_redaction_witness :
  Audit.d_body (Audit.entry_details
                  (Audit.logData "CHANGE_PASSWORD" Samples.password_change))
  = [("username", Audit.JStr "admin"); ("new_password", Audit.redacted);
     ("remember", Audit.JBool true)].
Proof.
  destruct (X12_audit_redaction "CHANGE_PASSWORD" Samples.password_change
              [("username", Audit.JStr "admin");
               ("__proto__", Audit.JObj [("admin", Audit.JBool true)]);
               ("new_password", Audit.JStr "hunter2");
               ("remember", Audit.JBool true)] eq_refl)
    as (Hkeys & Hvalues & _).
  destruct (Hvalues 0%nat "username" (Audit.JStr "admin") eq_refl)
    as [_ Hname].
  destruct (Hvalues 1%nat "new_password" (Audit.JStr "hunter2") eq_refl)
    as [Hsecret _].
  destruct (Hvalues 2%nat "remember" (Audit.JBool true) eq_refl)
    as [_ Hremember].
  assert (Hnot : forall k, Audit.sensitive k = false -> ~ names_secret k).
  { intros k Hk Hs. apply sensitive_spec in Hs. congruence. }
  specialize (Hname (Hnot "username" eq_refl)).
  specialize (Hremember (Hnot "remember" eq_refl)).
  assert (Hpw : names_secret "new_password").
  { exists "password", "new_", "". split; [now left|reflexivity]. }
  specialize (Hsecret Hpw).
  destruct (Audit.d_body _) as [|e0 [|e1 [|e2 [|e3 rest]]]];
    try discriminate Hkeys.
  simpl in Hname, Hsecret, Hremember.
  now injection Hname as ->; injection Hsecret as ->; injection Hremember as ->.
Defined.

(** X13 for a login attempt while the database handle is open. *)
Lemma X13_audit_append_only_witness :
  exists added,
    Audit.auditLog "LOGIN_ATTEMPT"
      {| Audit.connected := true; Audit.insert_throws := false |} []
      (Audit.login_attempt Scenario.browser_request "/api/auth/login")
    = added /\ length added = 1%nat.
Proof.
  destruct (X13_audit_append_only "LOGIN_ATTEMPT"
              {| Audit.connected := true; Audit.insert_throws := false |} []
              (Audit.login_attempt Scenario.browser_request "/api/auth/login"))
    as [(added & Hlog & _ & Hone) _].
  exists added. split; [exact Hlog|].
  now rewrite (proj2 Hone (conj eq_refl eq_refl)).
Defined.

(** X14 for a title with capitals, punctuation and blanks, for one of
    punctuation only, for three Kelvin signs and for a title that starts
    with U+0130. *)
Lemma X14_baseSlug_shape_witness :
  let release := Slug.units "  Release Notes: v2.0 (beta)!  " in
  Slug.baseSlug Samples.toLowerCase release = "release-notes-v2-0-beta" /\
  Slug.baseSlug Samples.toLowerCase
    (Slug.units (Slug.baseSlug Samples.toLowerCase release))
    = Slug.baseSlug Samples.toLowerCase release /\
  Slug.baseSlug Samples.toLowerCase (Slug.units "?!") = "" /\
  Slug.baseSlug Samples.toLowerCase [8490; 8490; 8490]%N = "kkk" /\
  Slug.baseSlug Samples.toLowerCase (304%N :: Slug.units "stanbul")
    = "i-stanbul".
Proof.
  intros release.
  destruct (X14_baseSlug_shape Samples.toLowerCase release)
    as (_ & _ & _ & _ & _ & Hidem).
  destruct (X14_baseSlug_shape Samples.toLowerCase (Slug.units "?!"))
    as (_ & _ & _ & _ & Hnone & _).
  split; [vm_compute; reflexivity|]. split.
  - apply Hidem. intros u Hu.
    assert (Hchars : forall c, Slug.alnum c = true \/ c = "-"%char ->
              Samples.lower_unit (N_of_ascii c) = [N_of_ascii c]).
    { intros c [Hc| ->]; [|reflexivity].
      unfold Samples.lower_unit. unfold Slug.alnum, Slug.alnum_unit in Hc.
      pose proof (N_ascii_bounded c) as Hb.
      destruct (N.leb_spec 65 (N_of_ascii c)), (N.leb_spec (N_of_ascii c) 90),
        (N.leb_spec 97 (N_of_ascii c)), (N.leb_spec (N_of_ascii c) 122),
        (N.leb_spec 48 (N_of_ascii c)), (N.leb_spec (N_of_ascii c) 57),
        (N.eqb_spec (N_of_ascii c) 8490), (N.eqb_spec (N_of_ascii c) 304);
        simpl in *; try reflexivity; try discriminate; lia. }
    pose proof (shaped_chars true u Hu) as Hall. clear Hu.
    induction u as [|c u IH]; [reflexivity|].
    inversion Hall as [|? ? Hc Hrest]; subst.
    change (Slug.units (String c u)) with (N_of_ascii c :: Slug.units u).
    unfold Samples.toLowerCase in *. simpl.
    now rewrite (Hchars c Hc), (IH Hrest).
  - split; [apply Hnone; repeat constructor|].
    split; vm_compute; reflexivity.
Defined.

(** X15 for a slug that is taken together with its first two variants. *)
Lemma X15_generateUniqueSlug_witness :
  (exists k, (k <= 4)%nat /\
     Slug.generateUniqueSlug "release-notes" None Samples.blogs
       = Some (Slug.candidate "release-notes" k) /\
     Slug.count (Slug.candidate "release-notes" k) None Samples.blogs = 0%nat) /\
  Slug.generateUniqueSlug "release-notes" None Samples.blogs
    = Some "release-notes-3" /\
  Slug.generateUniqueSlug "release-notes" (Some 1) Samples.blogs
    = Some "release-notes".
Proof.
  destruct (X15_generateUniqueSlug "release-notes" None Samples.blogs)
    as (k & Hle & Hk & Hfree & _).
  destruct (X15_generateUniqueSlug "release-notes" (Some 1) Samples.blogs)
    as (k' & _ & Hk' & _ & _ & Hbase & _).
  split; [exists k; repeat split; assumption|].
  split; [vm_compute; reflexivity|].
  rewrite Hk'. now rewrite (Hbase eq_refl).
Defined.

(** X16 for five failures a minute apart, checked a minute after the
    last and again sixteen minutes after the first. *)
Lemma X16_rate_limit_window_witness :
  let s := fold_left CryptoUtils.recordFailedAttempt
             [Scenario.t0; Scenario.t0 + 60000; Scenario.t0 + 120000;
              Scenario.t0 + 180000; Scenario.t0 + 240000] None in
  (exists m, 1 <= m <= 15 /\
     CryptoUtils.checkRateLimit s (Scenario.t0 + 300000)
       = Throws (CryptoUtils.too_many m)) /\
  CryptoUtils.checkRateLimit s (Scenario.t0 + 16 * 60000) = Returns tt.
Proof.
  intros s.
  destruct (X16_rate_limit_window None
              [Scenario.t0; Scenario.t0 + 60000; Scenario.t0 + 120000;
               Scenario.t0 + 180000; Scenario.t0 + 240000]
              (Scenario.t0 + 300000)) as (_ & _ & Hwait & _).
  { repeat (constructor; [vm_compute; discriminate|]). constructor. }
  destruct (X16_rate_limit_window None
              [Scenario.t0; Scenario.t0 + 60000; Scenario.t0 + 120000;
               Scenario.t0 + 180000; Scenario.t0 + 240000]
              (Scenario.t0 + 16 * 60000)) as (_ & Hpass & _).
  { repeat (constructor; [vm_compute; discriminate|]). constructor. }
  split.
  - assert (Hthrown : CryptoUtils.checkRateLimit s (Scenario.t0 + 300000)
                      = Throws (CryptoUtils.too_many 10))
      by (vm_compute; reflexivity).
    destruct (Hwait (List.Forall_nil _) _ Hthrown) as (m & Hm & Hmsg).
    exists m. split; [exact Hm|]. now rewrite Hthrown, Hmsg.
  - apply Hpass. vm_compute. lia.
Defined.

(** X17 for a first submission that the server refuses. *)
Lemma X17_handleLogin_counts_failures_witness :
  let r := Client.handleLogin Samples.fingerprint Samples.fresh Samples.form
             Samples.refuses Samples.csrf Scenario.t0 (Scenario.t0 + 350) in
  Client.sent r = Some Samples.form /\
  Client.stored_attempts (Client.after r) = Some [Scenario.t0 + 350] /\
  Client.page (Client.after r) = Client.page Samples.fresh.
Proof.
  intros r.
  destruct (X17_handleLogin_counts_failures Samples.fingerprint Samples.fresh
              Samples.form Samples.refuses Samples.csrf Scenario.t0
              (Scenario.t0 + 350)) as (Hsent & _ & Houtcome).
  split; [apply Hsent; repeat split|].
  destruct Houtcome as [(_ & (response & Hreply & Hok) & _)
                       |(Hlog & _ & Hpage & _)].
  - injection Hreply as <-. discriminate Hok.
  - split; [|exact Hpage]. subst r. rewrite Hlog. vm_compute. reflexivity.
Defined.

(** X18 for the session of [Samples.active], found expired fifty-one
    minutes after [t0]: activity and a page load that the server
    answers with [valid: true] do not bring it back. *)
Lemma X18_only_login_authenticates_witness :
  let says_valid (_ : string) :=
    Client.Reply {| status := 200;
                    body := VerifyBody true 1 "admin" "admin"
                              (Scenario.t0 + 53 * 60000) |} in
  Client.isAuthenticated Samples.fingerprint
    (Client.page
       (Client.run Samples.fingerprint Samples.active
          [(Scenario.t0 + 52 * 60000, Client.Activity);
           (Scenario.t0 + 53 * 60000 + 100,
            Client.Loaded "/admin.html" says_valid (Scenario.t0 + 53 * 60000))]))
    (Scenario.t0 + 54 * 60000) = false.
Proof.
  intros says_valid.
  apply (X18_only_login_authenticates Samples.fingerprint Samples.active
           (Scenario.t0 + 51 * 60000)).
  - vm_compute. reflexivity.
  - repeat split; vm_compute; discriminate.
  - repeat constructor.
Defined.

(** X19 for a login, activity twenty minutes later, and the tab hidden
    for eight minutes after that. *)
Lemma X19_timers_follow_expiry_witness :
  let b := Client.page
             (Client.run Samples.fingerprint Samples.fresh
                [(Scenario.t0 + 200, Client.LoggedIn Samples.login_body Samples.csrf);
                 (Scenario.t0 + 20 * 60000, Client.Activity);
                 (Scenario.t0 + 21 * 60000, Client.Hidden);
                 (Scenario.t0 + 29 * 60000, Client.Visible)]) in
  AuthManager.auth_session b = Some Samples.active_session /\
  AuthManager.sessionTimer b = Some (Scenario.t0 + 59 * 60000) /\
  AuthManager.warningTimer b = Some (Scenario.t0 + 59 * 60000 - 5 * 60 * 1000) /\
  AuthManager.expiresAt Samples.active_session <= Scenario.t0 + 59 * 60000.
Proof.
  intros b.
  destruct (X19_timers_follow_expiry Samples.fingerprint Samples.fresh
              Scenario.t0
              [(Scenario.t0 + 200, Client.LoggedIn Samples.login_body Samples.csrf);
               (Scenario.t0 + 20 * 60000, Client.Activity);
               (Scenario.t0 + 21 * 60000, Client.Hidden);
               (Scenario.t0 + 29 * 60000, Client.Visible)]
              (Scenario.t0 + 29 * 60000)) as (_ & Hdue & _).
  - reflexivity.
  - reflexivity.
  - reflexivity.
  - repeat split; vm_compute; discriminate.
  - assert (Hsession : AuthManager.auth_session b = Some Samples.active_session)
      by (vm_compute; reflexivity).
    assert (Htimer : AuthManager.sessionTimer b = Some (Scenario.t0 + 59 * 60000))
      by (vm_compute; reflexivity).
    destruct (Hdue _ Htimer) as (Hwarn & Hexp & _).
    split; [exact Hsession|]. split; [exact Htimer|].
    split; [exact Hwarn|]. apply Hexp. exact Hsession.
Defined.


(** X21 at the token of [Scenario]: read back one minute after it was
    issued, and rejected with its first character, its last character
    or its second dot overwritten. *)
Lemma X21_issued_token_read_back_and_altered_witness :
  (exists c, snd (SessionManager.verifyToken Scenario.sm Scenario.env
                    Scenario.token Scenario.browser_request
                    (Scenario.t0 + 60000)) = Returns c /\
     Jwt.id c = 1 /\ Jwt.username c = "admin" /\ Jwt.role c = "admin") /\
  Forall (fun i =>
            succeeded (snd (SessionManager.verifyToken Scenario.sm Scenario.env
                              (Str.set_char i "x" Scenario.token)
                              Scenario.browser_request (Scenario.t0 + 60000)))
              = false)
    [0%nat; 221%nat; 739%nat].
Proof.
  destruct (X21_issued_token_read_back_and_altered Scenario.sm Scenario.env
              Scenario.admin Scenario.browser_request Scenario.t0)
    as (Hshape & Hback & Haltered).
  split.
  - apply Hback; [apply not_elem_of_empty|vm_compute; reflexivity].
  - apply List.Forall_cons; [|apply List.Forall_cons;
                                [|apply List.Forall_cons;
                                   [|apply List.Forall_nil]]].
    + (* inside the header *)
      apply (proj2 (Haltered 0%nat "h"%char "x"%char Scenario.browser_request
                      (Scenario.t0 + 60000) eq_refl ltac:(discriminate))).
      intros alg' front _ Hfront Hsame.
      apply Plain.hmac_injective in Hsame. subst front.
      change (SessionManager.generateToken Scenario.sm Scenario.admin
                Scenario.browser_request Scenario.t0)
        with Scenario.token in Hshape, Hfront.
      rewrite <- Hshape in Hfront.
      apply (f_equal (String.get 0)) in Hfront.
      vm_compute in Hfront. discriminate.
    + (* the dot before the signature *)
      apply (proj1 (Haltered 221%nat "."%char "x"%char Scenario.browser_request
                      (Scenario.t0 + 60000) eq_refl ltac:(discriminate))).
      now left.
    + (* inside the signature *)
      apply (proj1 (Haltered 739%nat "f"%char "x"%char Scenario.browser_request
                      (Scenario.t0 + 60000) eq_refl ltac:(discriminate))).
      right. right. vm_compute. lia.
Defined.
